(** * cfde_ap: the action provider's job store, routes and schema compiler

    A shallow embedding of [cfde_ap/utils.py] and [cfde_ap/api.py].

    Python dictionaries with a known universe of keys are records whose
    fields are [option]s ([None] = key absent); the DynamoDB table is a
    finite map keyed by [action_id]; [bytes] objects are lists of 8-bit
    characters and [str] objects are [string]s; exceptions are values of
    [exn] carried by [result]; code with effects on the table, on the
    spawned driver processes or on [ERROR.log] passes a [World] along. *)

From Stdlib Require Import Ascii String ZArith Lia.
From stdpp Require Import base option list strings pretty gmap.

Local Open Scope string_scope.
Local Open Scope Z_scope.
Local Open Scope list_scope.

(** ** Exceptions and fallible computations *)

(** The classes of [cfde_ap/error.py] that the two modules raise, and the
    Python built-in exceptions that escape from the modelled expressions. *)
Inductive exn : Type :=
| InvalidRequest (msg : string)
| NotAuthorized (msg : string)
| NotFound (msg : string)
| InvalidState (msg : string)
| ServiceError (msg : string)
| InternalError (msg : string)
| ValueError (msg : string)
| IndexError (msg : string)
| KeyError (key : string)
| TypeError (msg : string)
| OtherError (msg : string).

Inductive result (A : Type) : Type :=
| Ok (a : A)
| Raise (e : exn).
Arguments Ok {A} a.
Arguments Raise {A} e.

Definition result_bind {A B} (f : A → result B) (m : result A) : result B :=
  match m with
  | Ok a => f a
  | Raise e => Raise e
  end.

#[global] Instance result_ret : MRet result := @Ok.
#[global] Instance result_mbind : MBind result := @result_bind.

Definition is_ok {A} (r : result A) : bool :=
  match r with Ok _ => true | Raise _ => false end.

(** [str(e)] of a raised exception: the message it was built with. *)
Definition str_exn (e : exn) : string :=
  match e with
  | InvalidRequest m | NotAuthorized m | NotFound m | InvalidState m
  | ServiceError m | InternalError m | ValueError m | IndexError m
  | TypeError m | OtherError m => m
  | KeyError k => "'" +:+ k +:+ "'"
  end.

(** ** Python built-ins used by the two modules *)

Module Py.

(** A [bytes] object. *)
Definition bytes : Type := list ascii.

(** The literal [b"..."]. *)
Definition b (s : string) : bytes := list_ascii_of_string s.

Definition ascii_eqb (x y : ascii) : bool := Ascii.eqb x y.

(** [s.startswith(p)] on bytes. *)
Fixpoint startswith (p s : bytes) : bool :=
  match p with
  | [] => true
  | c :: p' =>
    match s with
    | [] => false
    | d :: s' => ascii_eqb c d && startswith p' s'
    end
  end.

(** [sub in s] on bytes. *)
Fixpoint contains (sub s : bytes) : bool :=
  startswith sub s ||
  match s with
  | [] => false
  | _ :: s' => contains sub s'
  end.

(** [s.split(sep)] for a non-empty separator: the text is cut at the
    occurrences of [sep] found from left to right, each search resuming
    right after the previous occurrence.  [skip] counts the characters of
    the occurrence just found that are still to be passed over and [cur]
    holds, reversed, the piece being collected. *)
Fixpoint split_go (sep : bytes) (skip : nat) (cur : bytes) (s : bytes)
  : list bytes :=
  match s with
  | [] => [rev cur]
  | c :: s' =>
    match skip with
    | S k => split_go sep k cur s'
    | O =>
      if startswith sep s
      then rev cur :: split_go sep (length sep - 1) [] s'
      else split_go sep 0 (c :: cur) s'
    end
  end.

Definition split (sep s : bytes) : list bytes := split_go sep 0 [] s.

(** ASCII whitespace as [bytes.strip] and [int] see it. *)
Definition isspace (c : ascii) : bool :=
  let n := N_of_ascii c in
  ((9 <=? n) && (n <=? 13) || (n =? 32))%N.

Fixpoint lstrip (s : bytes) : bytes :=
  match s with
  | c :: s' => if isspace c then lstrip s' else s
  | [] => []
  end.

Definition rstrip (s : bytes) : bytes := rev (lstrip (rev s)).

(** [s.strip()]. *)
Definition strip (s : bytes) : bytes := rstrip (lstrip s).

(** [l[-1]]. *)
Definition index_last {A} (l : list A) : result A :=
  match last l with
  | Some x => Ok x
  | None => Raise (IndexError "list index out of range")
  end.

(** [l[0]]. *)
Definition index_0 {A} (l : list A) : result A :=
  match l with
  | x :: _ => Ok x
  | [] => Raise (IndexError "list index out of range")
  end.

Definition digit_value (c : ascii) : option Z :=
  let n := N_of_ascii c in
  if ((48 <=? n) && (n <=? 57))%N then Some (Z.of_N n - 48) else None.

Definition underscore : ascii := "_"%char.

(** The digit scan of [int]: decimal digits with single underscores
    between them.  [prev_us] tells whether the previous character was an
    underscore; the result is the value, the number of digits read and
    the unread rest, or [None] when two underscores meet or one ends the
    digits. *)
Fixpoint scan_digits (acc : Z) (ndigits : nat) (prev_us : bool) (s : bytes)
  : option (Z * nat * bytes) :=
  match s with
  | [] => if prev_us then None else Some (acc, ndigits, [])
  | c :: s' =>
    match digit_value c with
    | Some d => scan_digits (10 * acc + d) (S ndigits) false s'
    | None =>
      if ascii_eqb c underscore
      then if prev_us then None else scan_digits acc ndigits true s'
      else if prev_us then None else Some (acc, ndigits, s)
    end
  end.

(** [repr(s)] of a bytes object, as an f-string prints it (for printable
    text; escapes are not rendered). *)
Definition repr_bytes (s : bytes) : string :=
  "b'" +:+ string_of_list_ascii s +:+ "'".

Definition invalid_literal (s : bytes) : exn :=
  ValueError ("invalid literal for int() with base 10: " +:+ repr_bytes s).

(** [int(s)] for a bytes object [s]: optional surrounding whitespace, an
    optional sign directly before the digits, at least one digit. *)
Definition int_of_bytes (s : bytes) : result Z :=
  let s1 := lstrip s in
  let '(sign, s2) :=
    match s1 with
    | c :: r =>
      if ascii_eqb c "+"%char then (1, r)
      else if ascii_eqb c "-"%char then (-1, r)
      else (1, s1)
    | [] => (1, s1)
    end in
  match s2 with
  | c :: _ =>
    if ascii_eqb c underscore then Raise (invalid_literal s)
    else
      match scan_digits 0 0 false s2 with
      | Some (v, n, rest) =>
        match n, lstrip rest with
        | S _, [] => Ok (sign * v)
        | _, _ => Raise (invalid_literal s)
        end
      | None => Raise (invalid_literal s)
      end
  | [] => Raise (invalid_literal s)
  end.

(** [s.startswith(p)] and [s.endswith(p)] on [str]. *)
Definition str_startswith (p s : string) : bool := String.prefix p s.

Definition str_endswith (p s : string) : bool :=
  (String.length p <=? String.length s)%nat &&
  String.eqb (substring (String.length s - String.length p) (String.length p) s) p.

(** [sep.join(l)] on [str]. *)
Fixpoint join (sep : string) (l : list string) : string :=
  match l with
  | [] => ""
  | [x] => x
  | x :: l' => x +:+ sep +:+ join sep l'
  end.

(** [os.path.join(a, p)] (POSIX). *)
Definition path_join (a p : string) : string :=
  if str_startswith "/" p then p
  else if String.eqb a "" || str_endswith "/" a then a +:+ p
  else a +:+ "/" +:+ p.

End Py.

(** ** The schema compiler ([utils.make_table] and its helpers) *)

(** A field definition [cdef] of a TableSchema resource. *)
Module Constraints.
Record t := mk { required : option bool; unique : option bool }.
End Constraints.

Module FieldDef.
Record t := mk {
  name : string;
  type : option string;
  constraints : option Constraints.t;
  description : option string
}.
End FieldDef.

(** A JSON value that is a string or a list of strings. *)
Inductive str_or_list : Type :=
| Str (s : string)
| StrList (l : list string).

Module Reference.
Record t := mk { resource : string; fields : str_or_list }.
End Reference.

Module FKeyDef.
Record t := mk { fields : str_or_list; reference : Reference.t }.
End FKeyDef.

Module TableDef.
Record t := mk {
  name : string;
  fields : list FieldDef.t;
  primaryKey : option str_or_list;
  foreignKeys : option (list FKeyDef.t);
  description : option string
}.
End TableDef.

(** [deriva.core.ermrest_model.builtin_types]: the five members the
    compiler selects. *)
Inductive builtin_type : Type :=
| text
| timestamptz
| int8
| float8
| text_array.

(** What [Column.define], [Key.define], [ForeignKey.define] and
    [Table.define] are called with. *)
Module Column.
Record t := define {
  cname : string;
  ctype : builtin_type;
  nullok : bool;
  comment : option string
}.
End Column.

Module Key.
Record t := define {
  colnames : list string;
  constraint_names : list (list string)
}.
End Key.

Module ForeignKey.
Record t := define {
  fk_colnames : list string;
  pk_sname : string;
  pk_tname : string;
  pk_colnames : list string;
  constraint_names : list (list string)
}.
End ForeignKey.

Module Table.
Record t := define {
  tname : string;
  column_defs : list Column.t;
  key_defs : list Key.t;
  fkey_defs : list ForeignKey.t;
  comment : option string;
  provide_system : bool
}.
End Table.

(** [mapM] for [result]: a list comprehension whose element expression can
    raise stops at the first element that does. *)
Fixpoint result_map {A B} (f : A → result B) (l : list A) : result (list B) :=
  match l with
  | [] => Ok []
  | x :: l' =>
    y ← f x;
    ys ← result_map f l';
    Ok (y :: ys)
  end.

(** Python's duplicate-free [frozenset] of strings, as the list of its
    members; two of them are equal when they have the same members. *)
Definition frozenset_eqb (x y : list string) : bool :=
  forallb (λ a, bool_decide (a ∈ y)) x && forallb (λ a, bool_decide (a ∈ x)) y.

(** ** Values and the action status dictionary *)

(** The scalar values that occur under the keys whose type the code
    inspects: a Python [int], a [decimal.Decimal] (what a DynamoDB number
    is read back as; [coeff × 10 ^ exponent]), a [str] and a [bool]. *)
Inductive value : Type :=
| PyInt (z : Z)
| PyDecimal (coeff exponent : Z)
| PyStr (s : string)
| PyBool (b : bool).

(** Truth value of [v] in [if v]. *)
Definition truthy (v : value) : bool :=
  match v with
  | PyInt z => negb (z =? 0)
  | PyDecimal c _ => negb (c =? 0)
  | PyStr s => negb (String.eqb s "")
  | PyBool b => b
  end.

(** [int(Decimal)] truncates towards zero. *)
Definition int_of_decimal (coeff exponent : Z) : Z :=
  if 0 <=? exponent then coeff * 10 ^ exponent
  else coeff ÷ 10 ^ (- exponent).

(** [int(v)]. *)
Definition py_int (v : value) : result Z :=
  match v with
  | PyInt z => Ok z
  | PyDecimal c e => Ok (int_of_decimal c e)
  | PyStr s => Py.int_of_bytes (list_ascii_of_string s)
  | PyBool b => Ok (if b then 1 else 0)
  end.

(** [str(v)] as the f-strings of the executors need it. *)
Definition py_str (v : value) : string :=
  match v with
  | PyInt z => pretty z
  | PyDecimal c e => if e =? 0 then pretty c else pretty c +:+ "E" +:+ pretty e
  | PyStr s => s
  | PyBool b => if b then "True" else "False"
  end.

(** Is the value a plain Python [int]? *)
Definition is_plain_int (v : value) : bool :=
  match v with
  | PyInt _ => true
  | _ => false
  end.

(** The [details] dictionary of an action status. *)
Module Details.
Record t := mk {
  message : option string;
  error : option value;
  deriva_id : option value;
  deriva_link : option string;
  deriva_samples_link : option string
}.
(** [not d] for a dictionary [d]: it has no key. *)
Definition is_empty (d : t) : bool :=
  match d with
  | mk None None None None None => true
  | _ => false
  end.
End Details.

(** An action status: the dictionary kept in the table under its
    [action_id] and served to callers. *)
Module Status.
Record t := mk {
  action_id : option string;
  request_id : option string;
  status : option string;
  manage_by : option (list string);
  monitor_by : option (list string);
  creator_id : option string;
  release_after : option string;
  label : option string;
  details : option Details.t
}.
Definition set_action_id (x : string) (s : t) : t :=
  mk (Some x) (request_id s) (status s) (manage_by s) (monitor_by s)
     (creator_id s) (release_after s) (label s) (details s).
Definition set_details (d : Details.t) (s : t) : t :=
  mk (action_id s) (request_id s) (status s) (manage_by s) (monitor_by s)
     (creator_id s) (release_after s) (label s) (Some d).
End Status.

(** [mdf_toolbox.dict_merge(base, addition)]: the keys of [base] stay as
    they are, the keys only [addition] has are added, and where both hold
    a dictionary the two are merged in the same way. *)
Definition merge_key {A} (base addition : option A) : option A :=
  match base with
  | Some x => Some x
  | None => addition
  end.

Definition dict_merge_details (base addition : Details.t) : Details.t :=
  Details.mk
    (merge_key (Details.message base) (Details.message addition))
    (merge_key (Details.error base) (Details.error addition))
    (merge_key (Details.deriva_id base) (Details.deriva_id addition))
    (merge_key (Details.deriva_link base) (Details.deriva_link addition))
    (merge_key (Details.deriva_samples_link base)
               (Details.deriva_samples_link addition)).

Definition dict_merge (base addition : Status.t) : Status.t :=
  Status.mk
    (merge_key (Status.action_id base) (Status.action_id addition))
    (merge_key (Status.request_id base) (Status.request_id addition))
    (merge_key (Status.status base) (Status.status addition))
    (merge_key (Status.manage_by base) (Status.manage_by addition))
    (merge_key (Status.monitor_by base) (Status.monitor_by addition))
    (merge_key (Status.creator_id base) (Status.creator_id addition))
    (merge_key (Status.release_after base) (Status.release_after addition))
    (merge_key (Status.label base) (Status.label addition))
    (match Status.details base, Status.details addition with
     | Some d, Some d' => Some (dict_merge_details d d')
     | Some d, None => Some d
     | None, d' => d'
     end).

(** ** The DynamoDB service

    The tables by name, each a map from the hash key [action_id] to the
    item, and what the environment decides: whether a call of the service
    raises, the HTTP status a scan reports and how many items one scan
    page evaluates. *)
Module dynamodb.

Record Table := mkTable {
  table_status : string;
  items : gmap string Status.t
}.

Record Faults := mkFaults {
  describe_raises : option string;
  get_item_raises : option string;
  put_item_raises : option string;
  delete_item_raises : option string;
  scan_status_code : Z
}.

Definition healthy : Faults := mkFaults None None None None 200.

Record Service := mkService {
  tables : gmap string Table;
  faults : Faults;
  (** a scan page evaluates [S page_items] items *)
  page_items : nat
}.

Definition set_items (table_name : string) (tbl : Table)
           (m : gmap string Status.t) (d : Service) : Service :=
  mkService (<[table_name := mkTable (table_status tbl) m]> (tables d))
            (faults d) (page_items d).

(** A number written to the table is read back as a [Decimal]. *)
Definition stored_value (v : value) : value :=
  match v with
  | PyInt z => PyDecimal z 0
  | _ => v
  end.

Definition stored_details (d : Details.t) : Details.t :=
  Details.mk (Details.message d) (stored_value <$> Details.error d)
             (stored_value <$> Details.deriva_id d)
             (Details.deriva_link d) (Details.deriva_samples_link d).

Definition stored_item (s : Status.t) : Status.t :=
  Status.mk (Status.action_id s) (Status.request_id s) (Status.status s)
            (Status.manage_by s) (Status.monitor_by s) (Status.creator_id s)
            (Status.release_after s) (Status.label s)
            (stored_details <$> Status.details s).

Definition no_table : exn := OtherError "ResourceNotFoundException".

(** [table.get_item(Key={"action_id": action_id}, ConsistentRead=True).get("Item")] *)
Definition get_item (d : Service) (table_name action_id : string)
  : result (option Status.t) :=
  match get_item_raises (faults d) with
  | Some msg => Raise (OtherError msg)
  | None =>
    match tables d !! table_name with
    | None => Raise no_table
    | Some tbl => Ok (items tbl !! action_id)
    end
  end.

(** [table.put_item(Item=item)], with
    [ConditionExpression=Attr("action_id").not_exists()] when
    [if_absent]. *)
Definition put_item (d : Service) (table_name : string) (item : Status.t)
           (if_absent : bool) : Service * result unit :=
  match put_item_raises (faults d) with
  | Some msg => (d, Raise (OtherError msg))
  | None =>
    match tables d !! table_name with
    | None => (d, Raise no_table)
    | Some tbl =>
      match Status.action_id item with
      | None => (d, Raise (OtherError "ValidationException"))
      | Some k =>
        if if_absent && bool_decide (is_Some (items tbl !! k))
        then (d, Raise (OtherError "ConditionalCheckFailedException"))
        else (set_items table_name tbl (<[k := stored_item item]> (items tbl)) d,
              Ok ())
      end
    end
  end.

(** [table.delete_item(Key={"action_id": action_id})]; a call that raises
    leaves the table as it was. *)
Definition delete_item (d : Service) (table_name action_id : string)
  : Service * result unit :=
  match delete_item_raises (faults d) with
  | Some msg => (d, Raise (OtherError msg))
  | None =>
    match tables d !! table_name with
    | None => (d, Raise no_table)
    | Some tbl => (set_items table_name tbl (delete action_id (items tbl)) d, Ok ())
    end
  end.

(** The response of [table.scan]. *)
Record ScanRes := mkScanRes {
  HTTPStatusCode : Z;
  Items : list Status.t;
  LastEvaluatedKey : option nat
}.

(** The items of a table in the order a scan visits them. *)
Definition scan_order (tbl : Table) : list Status.t :=
  (map_to_list (items tbl)).*2.

(** [table.scan(ConsistentRead=True,
                FilterExpression=Attr("request_id").eq(request_id),
                ExclusiveStartKey=...)]: one page.  The page evaluates the
    next [S page_items] items, returns those that pass the filter and,
    when items remain, the place to resume from (the key of the last
    evaluated item, here its position in the scan order). *)
Definition scan (d : Service) (table_name request_id : string)
           (ExclusiveStartKey : option nat) : result ScanRes :=
  match tables d !! table_name with
  | None => Raise no_table
  | Some tbl =>
    let start := default 0%nat ExclusiveStartKey in
    let stop := (start + S (page_items d))%nat in
    let page := take (S (page_items d)) (drop start (scan_order tbl)) in
    Ok (mkScanRes
          (scan_status_code (faults d))
          (filter (λ it, Status.request_id it = Some request_id) page)
          (if (stop <? length (scan_order tbl))%nat then Some stop else None))
  end.

End dynamodb.

(** ** [cfde_ap/utils.py]: the action status store *)

Module utils.
Import dynamodb.

Definition table_missing : exn :=
  NotFound "Table does not exist or is not active".

(** [get_dmo_table(table_name)]: the table, provided it exists and its
    status is ["ACTIVE"]. *)
Definition get_dmo_table (d : Service) (table_name : string) : result Table :=
  match describe_raises (faults d) with
  | Some msg => Raise (ServiceError msg)
  | None =>
    match tables d !! table_name with
    | None => Raise table_missing
    | Some tbl =>
      if String.eqb (table_status tbl) "ACTIVE" then Ok tbl
      else Raise table_missing
    end
  end.

(** [read_action_status(table_name, action_id)] *)
Definition read_action_status (d : Service) (table_name action_id : string)
  : result Status.t :=
  _ ← get_dmo_table d table_name;
  match get_item d table_name action_id with
  | Raise e => Raise (ServiceError (str_exn e))
  | Ok None =>
    Raise (NotFound ("Action ID " +:+ action_id +:+ " not found in status database"))
  | Ok (Some entry) => Ok entry
  end.

(** The loop of [generate_action_id]: [action_id] is the candidate at
    hand and [more] the identifiers [bson.ObjectId()] yields next.  The
    loop has no bound of its own; [None] says that it was still running
    when the listed candidates were used up. *)
Fixpoint generate_action_id_loop (d : Service) (table_name action_id : string)
         (more : list string) : option (result string) :=
  match read_action_status d table_name action_id with
  | Raise (NotFound _) => Some (Ok action_id)
  | Raise e => Some (Raise e)
  | Ok _ =>
    match more with
    | [] => None
    | next :: more' => generate_action_id_loop d table_name next more'
    end
  end.

(** [generate_action_id(table_name)], given the identifiers
    [bson.ObjectId()] yields, in order. *)
Definition generate_action_id (oids : list string) (d : Service)
           (table_name : string) : option (result string) :=
  match oids with
  | [] => None
  | action_id :: more => generate_action_id_loop d table_name action_id more
  end.

(** The part of [create_action_status] that follows the choice of the
    identifier: the defaults and the conditional write. *)
Definition create_action_status_put (d : Service) (table_name : string)
           (action_status : Status.t) (action_id : string)
  : Service * result Status.t :=
  let action_status := Status.set_action_id action_id action_status in
  let action_status :=
    match Status.details action_status with
    | Some det =>
      if Details.is_empty det
      then Status.set_details
             (Details.mk (Some "Action started") None None None None) action_status
      else action_status
    | None =>
      Status.set_details
        (Details.mk (Some "Action started") None None None None) action_status
    end in
  match put_item d table_name action_status true with
  | (d', Raise e) => (d', Raise (ServiceError (str_exn e)))
  | (d', Ok _) => (d', Ok action_status)
  end.

(** [create_action_status(table_name, action_status)] *)
Definition create_action_status (oids : list string) (d : Service)
           (table_name : string) (action_status : Status.t)
  : Service * option (result Status.t) :=
  match get_dmo_table d table_name with
  | Raise e => (d, Some (Raise e))
  | Ok _ =>
    match generate_action_id oids d table_name with
    | None => (d, None)
    | Some (Raise e) => (d, Some (Raise e))
    | Some (Ok action_id) =>
      let '(d', r) := create_action_status_put d table_name action_status action_id in
      (d', Some r)
    end
  end.

(** The [while True] loop of [read_action_by_request]: one scan call per
    turn, until a response carries no [LastEvaluatedKey].  [None] says
    that [fuel] turns did not reach that response. *)
Fixpoint scan_loop (fuel : nat) (d : Service) (table_name request_id : string)
         (ExclusiveStartKey : option nat) (result_entries : list Status.t)
  : option (result (list Status.t)) :=
  match fuel with
  | O => None
  | S fuel' =>
    match scan d table_name request_id ExclusiveStartKey with
    | Raise e => Some (Raise e)
    | Ok scan_res =>
      if 300 <=? HTTPStatusCode scan_res
      then Some (Raise (ServiceError ("HTTPStatusCode " +:+ pretty (HTTPStatusCode scan_res))))
      else
        let result_entries := result_entries ++ Items scan_res in
        match LastEvaluatedKey scan_res with
        | Some key => scan_loop fuel' d table_name request_id (Some key) result_entries
        | None => Some (Ok result_entries)
        end
    end
  end.

Definition request_not_found (request_id : string) : exn :=
  NotFound ("Request ID '" +:+ request_id +:+ "' not found in status database").

Definition multiple_entries (request_id : string) : exn :=
  InternalError ("Multiple entries found for request ID '" +:+ request_id
                 +:+ "'. Please report this error.").

(** [read_action_by_request(table_name, request_id)] *)
Definition read_action_by_request (fuel : nat) (d : Service)
           (table_name request_id : string) : option (result Status.t) :=
  match get_dmo_table d table_name with
  | Raise e => Some (Raise e)
  | Ok _ =>
    match scan_loop fuel d table_name request_id None [] with
    | None => None
    | Some (Raise e) => Some (Raise e)
    | Some (Ok []) => Some (Raise (request_not_found request_id))
    | Some (Ok [entry]) => Some (Ok entry)
    | Some (Ok _) => Some (Raise (multiple_entries request_id))
    end
  end.

(** [update_action_status(table_name, action_id, updates, overwrite)] *)
Definition update_action_status (d : Service) (table_name action_id : string)
           (updates : Status.t) (overwrite : bool) : Service * result Status.t :=
  match read_action_status d table_name action_id with
  | Raise e => (d, Raise e)
  | Ok old_status =>
    let full_updates :=
      if overwrite then updates else dict_merge updates old_status in
    match get_dmo_table d table_name with
    | Raise e => (d, Raise e)
    | Ok _ =>
      match put_item d table_name full_updates false with
      | (d', Raise e) => (d', Raise (ServiceError (str_exn e)))
      | (d', Ok _) => (d', Ok full_updates)
      end
    end
  end.

Definition not_deleted : exn := InternalError "Action status was not deleted.".

(** [delete_action_status(table_name, action_id)].  The handler of the
    delete call logs the exception and builds a [ServiceError] that it
    does not raise, so whatever the call did, the verification follows. *)
Definition delete_action_status (d : Service) (table_name action_id : string)
  : Service * result unit :=
  match read_action_status d table_name action_id with
  | Raise e => (d, Raise e)
  | Ok _ =>
    match get_dmo_table d table_name with
    | Raise e => (d, Raise e)
    | Ok _ =>
      let '(d', _) := delete_item d table_name action_id in
      match read_action_status d' table_name action_id with
      | Raise (NotFound _) => (d', Ok ())
      | Raise e => (d', Raise e)
      | Ok _ => (d', Raise not_deleted)
      end
    end
  end.

Definition set_deriva_id (v : value) (det : Details.t) : Details.t :=
  Details.mk (Details.message det) (Details.error det) (Some v)
             (Details.deriva_link det) (Details.deriva_samples_link det).

(** [translate_status(raw_status)] *)
Definition translate_status (raw_status : Status.t) : result Status.t :=
  match Status.details raw_status with
  | Some det =>
    match Details.deriva_id det with
    | Some v =>
      if truthy v
      then z ← py_int v;
           Ok (Status.set_details (set_deriva_id (PyInt z) det) raw_status)
      else Ok raw_status
    | None => Ok raw_status
    end
  | None => Ok raw_status
  end.

(** *** The schema compiler *)

Definition make_type (col_type : string) : result builtin_type :=
  if String.eqb col_type "string" then Ok text
  else if String.eqb col_type "datetime" then Ok timestamptz
  else if String.eqb col_type "integer" then Ok int8
  else if String.eqb col_type "number" then Ok float8
  else if String.eqb col_type "list" then Ok text_array
  else Raise (ValueError ("Mapping undefined for type '" +:+ col_type +:+ "'")).

Definition make_column (cdef : FieldDef.t) : result Column.t :=
  let constraints := default (Constraints.mk None None) (FieldDef.constraints cdef) in
  ty ← make_type (default "string" (FieldDef.type cdef));
  Ok (Column.define
        (FieldDef.name cdef)
        ty
        (negb (default false (Constraints.required constraints)))
        (FieldDef.description cdef)).

Definition make_key (tname : string) (cols : list string) (schema_name : string)
  : Key.t :=
  Key.define cols [[schema_name; tname +:+ "_" +:+ Py.join "_" cols +:+ "_key"]].

(** [[x] if isinstance(x, str) else x]. *)
Definition as_list (x : str_or_list) : list string :=
  match x with
  | Str s => [s]
  | StrList l => l
  end.

Definition make_fkey (tname : string) (fkdef : FKeyDef.t) (schema_name : string)
  : ForeignKey.t :=
  let fkcols := as_list (FKeyDef.fields fkdef) in
  let reference := FKeyDef.reference fkdef in
  let pktable := Reference.resource reference in
  let pktable := if String.eqb pktable "" then tname else pktable in
  let pkcols := as_list (Reference.fields reference) in
  ForeignKey.define fkcols schema_name pktable pkcols
    [[schema_name; tname +:+ "_" +:+ Py.join "_" fkcols +:+ "_fkey"]].

(** [cdef.get("constraints", {}).get("unique", False)]. *)
Definition is_unique (cdef : FieldDef.t) : bool :=
  default false (Constraints.unique (default (Constraints.mk None None)
                                              (FieldDef.constraints cdef))).

Definition make_table (tdef : TableDef.t) (schema_name : string)
           (provide_system : bool) : result Table.t :=
  let tname := TableDef.name tdef in
  (* pk = tdef.get("primaryKey"); a str becomes a one-element list *)
  let pk : option (list string) := as_list <$> TableDef.primaryKey tdef in
  (* keysets: the frozenset of the primary key, when there is one *)
  let keysets : list (list string) :=
    match pk with
    | Some l => [l]
    | None => []
    end in
  column_defs ← result_map make_column (TableDef.fields tdef);
  let key_defs :=
    (* [make_key(tname, pk, schema_name)] if pk else [] *)
    match pk with
    | Some (c :: l) => [make_key tname (c :: l) schema_name]
    | _ => []
    end
    ++ map (λ cdef, make_key tname [FieldDef.name cdef] schema_name)
           (filter (λ cdef,
                      is_unique cdef = true
                      ∧ existsb (frozenset_eqb [FieldDef.name cdef]) keysets = false)
                   (TableDef.fields tdef)) in
  let fkey_defs :=
    map (λ fkdef, make_fkey tname fkdef schema_name)
        (default [] (TableDef.foreignKeys tdef)) in
  Ok (Table.define tname column_defs key_defs fkey_defs
                   (TableDef.description tdef) provide_system).

(** *** [convert_tableschema] *)

(** A TableSchema document: [tableschema["resources"]]. *)
Module TableSchema.
Record t := mk { resources : list TableDef.t }.
End TableSchema.

(** The ERMrest document [convert_tableschema] returns:
    [{"schemas": {schema_name: {"schema_name": ..., "tables": {...}}}}]. *)
Module Ermrest.
Record schema := mkSchema {
  schema_name : string;
  tables : gmap string Table.t
}.
Record t := mk { schemas : gmap string schema }.
End Ermrest.

(** [{k: v for k, v in pairs}]: a key met again takes the later value. *)
Definition dict_of {A} (pairs : list (string * A)) : gmap string A :=
  foldl (λ m kv, <[kv.1 := kv.2]> m) ∅ pairs.

(** [convert_tableschema(tableschema, schema_name)]: the tables are
    compiled in the order of the resources, and the first one that
    raises ends the conversion. *)
Definition convert_tableschema (tableschema : TableSchema.t) (schema_name : string)
  : result Ermrest.t :=
  let resources := TableSchema.resources tableschema in
  compiled ← result_map (λ tdef,
                           t ← make_table tdef schema_name true;
                           Ok (TableDef.name tdef, t))
                        resources;
  Ok (Ermrest.mk {[ schema_name := Ermrest.mkSchema schema_name (dict_of compiled) ]}).

End utils.

(** ** The key constraints and the type mapping as the spec words them *)

Module schema_spec.
Import utils.

Definition supported_types : list string :=
  ["string"; "datetime"; "integer"; "number"; "list"].

(** What the spec calls the table's key constraints: the primary key when
    there is one (a primary key without columns counts as none), then a
    singleton key for each field marked unique whose singleton column
    set is not the primary key's column set. *)
Definition spec_primary_key (tdef : TableDef.t) : option (list string) :=
  match as_list <$> TableDef.primaryKey tdef with
  | Some (c :: l) => Some (c :: l)
  | _ => None
  end.

Definition same_members (x y : list string) : Prop := x ⊆ y ∧ y ⊆ x.

(** A unique field is left out when its singleton column set is the
    primary key's column set. *)
Definition covered_by_primary_key (pk : option (list string)) (cname : string)
  : Prop :=
  match pk with
  | Some cols => same_members [cname] cols
  | None => False
  end.

#[global] Instance covered_by_primary_key_dec pk cname :
  Decision (covered_by_primary_key pk cname).
Proof. destruct pk; simpl; unfold same_members; apply _. Defined.

Definition spec_key_constraints (tdef : TableDef.t) (schema_name : string)
  : list Key.t :=
  let tname := TableDef.name tdef in
  match spec_primary_key tdef with
  | Some cols => [make_key tname cols schema_name]
  | None => []
  end
  ++ map (λ cdef, make_key tname [FieldDef.name cdef] schema_name)
         (filter (λ cdef,
                    is_unique cdef = true
                    ∧ ¬ covered_by_primary_key (spec_primary_key tdef)
                                               (FieldDef.name cdef))
                 (TableDef.fields tdef)).

End schema_spec.

(** ** The caller, the request and the environment of [cfde_ap/api.py] *)

(** [request.auth]: the caller's verified identities. *)
Module Auth.
Record t := mk {
  identities : list string;
  effective_identity : string
}.
End Auth.

(** Modelled from the spec: the authorization gate of the identity
    provider ([request.auth.check_authorization], a collaborator outside
    the repository): the caller passes when one of its identities is among
    the allowed principals, or, where the rule admits every authenticated
    user, when that rule is among them and the caller has an identity. *)
Definition check_authorization (auth : Auth.t) (allowed_principals : list string)
           (allow_all_authenticated_users : bool) : bool :=
  (allow_all_authenticated_users
   && bool_decide ("all_authenticated_users" ∈ allowed_principals)
   && negb (bool_decide (Auth.identities auth = [])))
  || existsb (λ p, bool_decide (p ∈ Auth.identities auth)) allowed_principals.

(** Access rules: a dictionary from a rule name to principals. *)
Definition acls : Type := list (string * list string).

(** The [body] of a request to [run]. *)
Module Body.
Record t := mk {
  operation : option string;
  data_url : option string;
  catalog_id : option value;
  catalog_acls : option acls;
  server : option string
}.
End Body.

(** The JSON document posted to [run]. *)
Module Request.
Record t := mk {
  body : Body.t;
  request_id : string;
  label : option string;
  manage_by : option str_or_list;
  monitor_by : option str_or_list;
  release_after : option string;
  deadline : option string
}.
End Request.

(** What [jsonify] is given, with the HTTP status of the response. *)
Module Response.
Record t := mk {
  status_code : Z;
  json : Status.t
}.
End Response.

Module CatalogInfo.
Record t := mk { catalog_id : value; server : string }.
End CatalogInfo.

(** The result dictionary of [actions.deriva_ingest]. *)
Module IngestRes.
Record t := mk {
  success : bool;
  error : option string;
  catalog_id : option value
}.
End IngestRes.

(** The configuration constants and the collaborators outside the two
    modules: input schema validation, the clock and the ISO-8601 codecs,
    the credential source, downloads, the restore tool, the directory
    listing and the catalog ingest.  Times are seconds. *)
Record Env := mkEnv {
  TBL : string;
  INPUT_SCHEMA_error : Body.t → option string;
  KNOWN_CATALOGS : gmap string CatalogInfo.t;
  DATA_DIR : string;
  DEFAULT_SERVER_NAME : string;
  DERIVA_SCHEMA_NAME : string;
  DEFAULT_ACLS : acls;
  now : Z;
  parse_duration : string → result Z;
  parse_datetime : string → result Z;
  duration_isoformat : Z → string;
  get_deriva_token : result string;
  fetch_url : string → string → result unit;
  restore_cli : list string → result (Py.bytes * Py.bytes);
  download_data : string → string → result string;
  listdir : string → result (list string);
  deriva_ingest : string → string → option value → acls → result IngestRes.t
}.

(** The driver processes [start_action] spawns, with their arguments. *)
Inductive driver : Type :=
| restore_driver (action_id url : string) (server : option string)
                 (catalog : option value)
| ingest_driver (action_id url : string) (server : option string)
                (catalog_id : option value) (catalog_acls : option acls)
| modify_driver (action_id : string) (catalog_id : value)
                (server : option string) (catalog_acls : option acls).

(** Everything the routes and the executors act on: the status table, the
    processes started so far, the file [ERROR.log] and the staging
    directories removed from disk. *)
Record World := mkWorld {
  dynamo : dynamodb.Service;
  processes : list driver;
  error_log : option string;
  removed_dirs : list string
}.

Definition set_dynamo (d : dynamodb.Service) (w : World) : World :=
  mkWorld d (processes w) (error_log w) (removed_dirs w).

Definition spawn (p : driver) (w : World) : World :=
  mkWorld (dynamo w) (processes w ++ [p]) (error_log w) (removed_dirs w).

Definition write_error_log (content : string) (w : World) : World :=
  mkWorld (dynamo w) (processes w) (Some content) (removed_dirs w).

Definition rmtree (dir : string) (w : World) : World :=
  mkWorld (dynamo w) (processes w) (error_log w) (removed_dirs w ++ [dir]).

(** [d.get(k)] as a condition, for a string and for a dictionary. *)
Definition truthy_str (x : option string) : bool :=
  match x with
  | Some s => negb (String.eqb s "")
  | None => false
  end.

Definition truthy_acls (x : option acls) : bool :=
  match x with
  | Some (_ :: _) => true
  | _ => false
  end.

Definition truthy_value (x : option value) : bool :=
  match x with
  | Some v => truthy v
  | None => false
  end.

(** [d[k]] *)
Definition getitem {A} (k : string) (x : option A) : result A :=
  match x with
  | Some a => Ok a
  | None => Raise (KeyError k)
  end.

(** [repr(e)] *)
Definition repr_exn (e : exn) : string :=
  match e with
  | InvalidRequest m => "InvalidRequest('" +:+ m +:+ "')"
  | NotAuthorized m => "NotAuthorized('" +:+ m +:+ "')"
  | NotFound m => "NotFound('" +:+ m +:+ "')"
  | InvalidState m => "InvalidState('" +:+ m +:+ "')"
  | ServiceError m => "ServiceError('" +:+ m +:+ "')"
  | InternalError m => "InternalError('" +:+ m +:+ "')"
  | ValueError m => "ValueError('" +:+ m +:+ "')"
  | IndexError m => "IndexError('" +:+ m +:+ "')"
  | KeyError k => "KeyError('" +:+ k +:+ "')"
  | TypeError m => "TypeError('" +:+ m +:+ "')"
  | OtherError m => "Exception('" +:+ m +:+ "')"
  end.

(** ** [cfde_ap/api.py]: the routes and the executors *)

Module api.

(** *** Synchronous events *)

(** [start_action(action_id, action_data)] *)
Definition start_action (env : Env) (action_id : string) (action_data : Body.t)
           (w : World) : World * result unit :=
  (* a keyword catalog id stands for a known catalog and its server *)
  let resolved : result Body.t :=
    match Body.catalog_id action_data with
    | Some (PyStr key) =>
      match KNOWN_CATALOGS env !! key with
      | Some catalog_info =>
        let cid := CatalogInfo.catalog_id catalog_info in
        if negb (truthy_str (Body.server action_data))
        then Ok (Body.mk (Body.operation action_data) (Body.data_url action_data)
                         (Some cid) (Body.catalog_acls action_data)
                         (Some (CatalogInfo.server catalog_info)))
        else if negb (bool_decide (Body.server action_data
                                   = Some (CatalogInfo.server catalog_info)))
        then Raise (ValueError
                      ("Server '" +:+ default "" (Body.server action_data)
                       +:+ "' does not match server for catalog '" +:+ py_str cid
                       +:+ "' (" +:+ CatalogInfo.server catalog_info +:+ ")"))
        else Ok (Body.mk (Body.operation action_data) (Body.data_url action_data)
                         (Some cid) (Body.catalog_acls action_data)
                         (Body.server action_data))
      | None => Ok action_data
      end
    | _ => Ok action_data
    end in
  match resolved with
  | Raise e => (w, Raise e)
  | Ok action_data =>
    match Body.operation action_data with
    | None => (w, Raise (KeyError "operation"))
    | Some operation =>
      if String.eqb operation "restore" then
        match Body.data_url action_data with
        | None => (w, Raise (KeyError "data_url"))
        | Some url =>
          (spawn (restore_driver action_id url (Body.server action_data)
                                 (Body.catalog_id action_data)) w, Ok ())
        end
      else if String.eqb operation "ingest" then
        match Body.data_url action_data with
        | None => (w, Raise (KeyError "data_url"))
        | Some url =>
          (spawn (ingest_driver action_id url (Body.server action_data)
                                (Body.catalog_id action_data)
                                (Body.catalog_acls action_data)) w, Ok ())
        end
      else if String.eqb operation "modify" then
        match Body.catalog_id action_data with
        | None => (w, Raise (KeyError "catalog_id"))
        | Some cid =>
          (spawn (modify_driver action_id cid (Body.server action_data)
                                (Body.catalog_acls action_data)) w, Ok ())
        end
      else (w, Raise (InvalidRequest ("Operation '" +:+ operation +:+ "' unknown")))
    end
  end.

(** [cancel_action(action_id)]: a stub. *)
Definition cancel_action (action_id : string) (w : World) : World := w.

(** *** API routes *)

(** The input validation that opens [run]. *)
Definition validate_body (env : Env) (body : Body.t) : result unit :=
  match INPUT_SCHEMA_error env body with
  | Some first_line => Raise (InvalidRequest first_line)
  | None =>
    operation ← getitem "operation" (Body.operation body);
    if (String.eqb operation "ingest" || String.eqb operation "restore")
       && negb (truthy_str (Body.data_url body))
    then Raise (InvalidRequest "You must provide a data_url to ingest or restore.")
    else if String.eqb operation "modify" then
      if negb (truthy_value (Body.catalog_id body))
      then Raise (InvalidRequest "You must specify the catalog_id to modify.")
      else if negb (truthy_acls (Body.catalog_acls body))
      then Raise (InvalidRequest
                    ("You must specify content in the catalog to modify. "
                     +:+ "(Currently only catalog_acls qualifies.)"))
      else Ok ()
    else Ok ()
  end.

Definition days (n : Z) : Z := n * 86400.

(** The [job] dictionary [run] builds for a request it has not seen. *)
Definition new_job (env : Env) (auth : Auth.t) (req : Request.t) : result Status.t :=
  let estimated_completion := now env + days 1 in
  let default_release_after := days 30 in
  let manage_by :=
    default (StrList (Auth.identities auth)) (Request.manage_by req) in
  let monitor_by :=
    default (StrList (Auth.identities auth)) (Request.monitor_by req) in
  release_after ←
    match Request.release_after req with
    | Some iso => parse_duration env iso
    | None => Ok default_release_after
    end;
  _ ← match Request.deadline req with
      | Some iso =>
        deadline ← parse_datetime env iso;
        if deadline <? estimated_completion
        then Raise (InvalidRequest ("Processing likely to exceed deadline of " +:+ iso))
        else Ok ()
      | None => Ok ()
      end;
  Ok (Status.mk None
                (Some (Request.request_id req))
                (Some "ACTIVE")
                (Some (utils.as_list manage_by))
                (Some (utils.as_list monitor_by))
                (Some (Auth.effective_identity auth))
                (Some (duration_isoformat env release_after))
                (Request.label req)
                None).

(** The [except err.NotFound] branch of [run]: the request is new. *)
Definition run_create (env : Env) (oids : list string) (auth : Auth.t)
           (req : Request.t) (w : World) : World * option (result Response.t) :=
  match new_job env auth req with
  | Raise e => (w, Some (Raise e))
  | Ok job =>
    match utils.create_action_status oids (dynamo w) (TBL env) job with
    | (d, None) => (set_dynamo d w, None)
    | (d, Some (Raise e)) => (set_dynamo d w, Some (Raise e))
    | (d, Some (Ok job)) =>
      let w := set_dynamo d w in
      match getitem "action_id" (Status.action_id job) with
      | Raise e => (w, Some (Raise e))
      | Ok action_id =>
        match start_action env action_id (Request.body req) w with
        | (w, Raise e) => (w, Some (Raise e))
        | (w, Ok _) =>
          (w, Some (st ← utils.translate_status job; Ok (Response.mk 202 st)))
        end
      end
    end
  end.

(** [run()], for the posted document [req] of the caller [auth]. *)
Definition run (env : Env) (fuel : nat) (oids : list string) (auth : Auth.t)
           (req : Request.t) (w : World) : World * option (result Response.t) :=
  match validate_body env (Request.body req) with
  | Raise e => (w, Some (Raise e))
  | Ok _ =>
    match utils.read_action_by_request fuel (dynamo w) (TBL env)
                                       (Request.request_id req) with
    | None => (w, None)
    | Some (Raise (NotFound _)) => run_create env oids auth req w
    | Some (Raise e) => (w, Some (Raise e))
    | Some (Ok status) =>
      (w, Some (st ← utils.translate_status status; Ok (Response.mk 200 st)))
    end
  end.

(** [status(action_id)] *)
Definition status (env : Env) (auth : Auth.t) (action_id : string) (w : World)
  : result Status.t :=
  status ← utils.read_action_status (dynamo w) (TBL env) action_id;
  monitor_by ← getitem "monitor_by" (Status.monitor_by status);
  if negb (check_authorization auth monitor_by false)
  then Raise (NotAuthorized ("You cannot view the status of action " +:+ action_id))
  else utils.translate_status status.

(** [cancel(action_id)] *)
Definition cancel (env : Env) (auth : Auth.t) (action_id : string) (w : World)
  : World * result Status.t :=
  match utils.read_action_status (dynamo w) (TBL env) action_id with
  | Raise e => (w, Raise e)
  | Ok status =>
    match getitem "manage_by" (Status.manage_by status) with
    | Raise e => (w, Raise e)
    | Ok manage_by =>
      if negb (check_authorization auth manage_by false)
      then (w, Raise (NotAuthorized ("You cannot cancel action " +:+ action_id)))
      else
        match (clean_status ← utils.translate_status status;
               getitem "status" (Status.status clean_status)) with
        | Raise e => (w, Raise e)
        | Ok st =>
          if String.eqb st "SUCCEEDED" || String.eqb st "FAILED"
          then (w, Raise (InvalidState ("Action " +:+ action_id +:+ " already completed")))
          else
            let w := cancel_action action_id w in
            (w, new_status ← utils.read_action_status (dynamo w) (TBL env) action_id;
                utils.translate_status new_status)
        end
    end
  end.

(** [release(action_id)] *)
Definition release (env : Env) (auth : Auth.t) (action_id : string) (w : World)
  : World * result Status.t :=
  match utils.read_action_status (dynamo w) (TBL env) action_id with
  | Raise e => (w, Raise e)
  | Ok status =>
    match getitem "manage_by" (Status.manage_by status) with
    | Raise e => (w, Raise e)
    | Ok manage_by =>
      if negb (check_authorization auth manage_by false)
      then (w, Raise (NotAuthorized ("You cannot cancel action " +:+ action_id)))
      else
        match utils.translate_status status with
        | Raise e => (w, Raise e)
        | Ok clean_status =>
          match getitem "status" (Status.status clean_status) with
          | Raise e => (w, Raise e)
          | Ok st =>
            if String.eqb st "ACTIVE" || String.eqb st "INACTIVE"
            then (w, Raise (InvalidState
                              ("Action " +:+ action_id
                               +:+ " not completed and cannot be released")))
            else
              match utils.delete_action_status (dynamo w) (TBL env) action_id with
              | (d, Raise e) => (set_dynamo d w, Raise e)
              | (d, Ok _) => (set_dynamo d w, Ok clean_status)
              end
          end
        end
    end
  end.

(** *** Asynchronous actions *)

(** [{"status": "FAILED", "details": {"error": msg}}] *)
Definition error_status (msg : string) : Status.t :=
  Status.mk None None (Some "FAILED") None None None None None
            (Some (Details.mk None (Some (PyStr msg)) None None None)).

(** The last-ditch pattern every failure path of the executors ends
    with: write the status, and if that raises, write [ERROR.log]. *)
Definition self_report (env : Env) (action_id : string) (new_status : Status.t)
           (after : string) (w : World) : World :=
  match utils.update_action_status (dynamo w) (TBL env) action_id new_status false with
  | (d, Ok _) => set_dynamo d w
  | (d, Raise e2) =>
    write_error_log ("Error updating status on " +:+ action_id +:+ ": '"
                     +:+ repr_exn e2 +:+ "'" +:+ after)
                    (set_dynamo d w)
  end.

Definition after_error (e : exn) : string :=
  "

After error '" +:+ repr_exn e +:+ "'".

Definition after_success (deriva_id : string) : string :=
  "

After success on ID '" +:+ deriva_id +:+ "'".

(** The parsing of the restore tool's output in [action_restore]: the
    catalog identifier and the link to the samples. *)
Definition parse_restore_message (server : string) (restore_message : Py.bytes)
  : result (Z * string) :=
  if negb (Py.contains (Py.b "completed successfully") restore_message)
  then Raise (ValueError ("DERIVA restore failed: "
                          +:+ Py.repr_bytes restore_message))
  else
    tail ← Py.index_last (Py.split (Py.b "Restore of catalog") restore_message);
    between ← Py.index_0 (Py.split (Py.b "completed successfully") tail);
    let deriva_link := Py.strip between in
    segment ← Py.index_last (Py.split (Py.b "/") deriva_link);
    deriva_id ← Py.int_of_bytes segment;
    Ok (deriva_id,
        "https://" +:+ server +:+ "/chaise/recordset/#" +:+ pretty deriva_id
        +:+ "/demo:Samples").

(** The argument vector of the restore tool; [subprocess.run] refuses an
    argument that is not a string. *)
Definition restore_args (token : string) (catalog : option value)
           (server file_path : string) : result (list string) :=
  match catalog with
  | None => Ok ["deriva-restore-cli"; "--oauth2-token"; token; server; file_path]
  | Some (PyStr c) =>
    Ok ["deriva-restore-cli"; "--oauth2-token"; token; "--catalog"; c;
        server; file_path]
  | Some _ => Raise (TypeError "expected str, bytes or os.PathLike object")
  end.

(** [action_restore(action_id, url, server, catalog)], run as a process
    of its own: an exception it does not handle ends the process and
    leaves the world as it is. *)
Definition action_restore (env : Env) (action_id url : string)
           (server : option string) (catalog : option value) (w : World) : World :=
  match get_deriva_token env with
  | Raise _ => w
  | Ok token =>
    let server := if truthy_str server then default "" server
                  else DEFAULT_SERVER_NAME env in
    let file_path := Py.path_join (DATA_DIR env) "cfde-backup.zip" in
    match fetch_url env url file_path with
    | Raise e =>
      self_report env action_id
        (error_status ("Unable to download URL '" +:+ url +:+ "': " +:+ str_exn e))
        (after_error e) w
    | Ok _ =>
      match (args ← restore_args token catalog server file_path;
             restore_cli env args) with
      | Raise e =>
        self_report env action_id
          (error_status ("Unable to run restore script: " +:+ str_exn e))
          (after_error e) w
      | Ok (stderr, stdout) =>
        let restore_message := stderr ++ stdout in
        match parse_restore_message server restore_message with
        | Raise e =>
          self_report env action_id
            (error_status ("Restore script output parsing failed: " +:+ str_exn e))
            (after_error e) w
        | Ok (deriva_id, deriva_samples) =>
          self_report env action_id
            (Status.mk None None (Some "SUCCEEDED") None None None None None
               (Some (Details.mk (Some "DERIVA restore successful")
                                 (Some (PyBool false))
                                 (Some (PyInt deriva_id))
                                 None
                                 (Some deriva_samples))))
            (after_success (pretty deriva_id)) w
        end
      end
    end
  end.

(** A candidate schema file: a JSON file that is not hidden. *)
Definition is_schema_candidate (filename : string) : bool :=
  Py.str_endswith ".json" filename && negb (Py.str_startswith "." filename).

(** The schema file [action_ingest] picks from the listing of the bag's
    data directory. *)
Definition find_schema_file (listing : list string) : result string :=
  Py.index_0 (filter (λ filename, is_schema_candidate filename = true) listing).

(** [action_ingest(action_id, url, servername, catalog_id, acls)] *)
Definition action_ingest (env : Env) (action_id url : string)
           (servername : option string) (catalog_id : option value)
           (acls : option acls) (w : World) : World :=
  let servername := if truthy_str servername then default "" servername
                    else DEFAULT_SERVER_NAME env in
  let acls := default (DEFAULT_ACLS env) acls in
  let data_dir := Py.path_join (DATA_DIR env) (action_id +:+ "/") in
  match download_data env url data_dir with
  | Raise e =>
    self_report env action_id
      (error_status ("Unable to download URL '" +:+ url +:+ "': " +:+ str_exn e))
      (after_error e) w
  | Ok bag_path =>
    let bag_data_path := Py.path_join bag_path "data" in
    match (listing ← listdir env bag_data_path; find_schema_file listing) with
    | Raise e =>
      self_report env action_id
        (error_status ("Could not process TableSchema file 'File not found': "
                       +:+ str_exn e))
        (after_error e) w
    | Ok schema_file =>
      let schema_file_path := Py.path_join bag_data_path schema_file in
      let schema_name := DERIVA_SCHEMA_NAME env in
      let on_exception (e : exn) (w : World) : World :=
        self_report env action_id
          (error_status ("Error ingesting to DERIVA: " +:+ str_exn e))
          (after_error e) w in
      match deriva_ingest env servername schema_file_path catalog_id acls with
      | Raise e => on_exception e w
      | Ok ingest_res =>
        if negb (IngestRes.success ingest_res) then
          match utils.update_action_status (dynamo w) (TBL env) action_id
                  (error_status ("Unable to ingest to DERIVA: "
                                 +:+ default "None" (IngestRes.error ingest_res)))
                  false with
          | (d, Ok _) => set_dynamo d w
          | (d, Raise e) => on_exception e (set_dynamo d w)
          end
        else
          match getitem "catalog_id" (IngestRes.catalog_id ingest_res) with
          | Raise e => on_exception e w
          | Ok catalog_id =>
            let w :=
              self_report env action_id
                (Status.mk None None (Some "SUCCEEDED") None None None None None
                   (Some (Details.mk
                            (Some "DERIVA ingest successful")
                            (Some (PyBool false))
                            (Some catalog_id)
                            (Some ("https://" +:+ servername
                                   +:+ "/chaise/recordset/#" +:+ py_str catalog_id
                                   +:+ "/" +:+ schema_name +:+ ":project"))
                            None)))
                (after_success (py_str catalog_id)) w in
            rmtree data_dir w
          end
      end
    end
  end.

(** What [actions.deriva_modify] returns: [modify_res["success"]] and
    [modify_res.get("error")]. *)
Module ModifyRes.
Record t := mk { success : bool; error : option string }.
End ModifyRes.

(** [action_modify(action_id, catalog_id, servername, acls)];
    [deriva_modify] stands for [actions.deriva_modify]. *)
Definition action_modify (env : Env)
           (deriva_modify : string → value → option acls → result ModifyRes.t)
           (action_id : string) (catalog_id : value)
           (servername : option string) (acls : option acls) (w : World) : World :=
  let servername := if truthy_str servername then default "" servername
                    else DEFAULT_SERVER_NAME env in
  let schema_name := DERIVA_SCHEMA_NAME env in
  let on_exception (e : exn) (w : World) : World :=
    self_report env action_id
      (error_status ("Error modifying DERIVA catalog " +:+ py_str catalog_id
                     +:+ ": " +:+ str_exn e))
      (after_error e) w in
  match deriva_modify servername catalog_id acls with
  | Raise e => on_exception e w
  | Ok modify_res =>
    if negb (ModifyRes.success modify_res) then
      match utils.update_action_status (dynamo w) (TBL env) action_id
              (error_status ("Unable to modify catalog " +:+ py_str catalog_id
                             +:+ ": " +:+ default "None" (ModifyRes.error modify_res)))
              false with
      | (d, Ok _) => set_dynamo d w
      | (d, Raise e) => on_exception e (set_dynamo d w)
      end
    else
      self_report env action_id
        (Status.mk None None (Some "SUCCEEDED") None None None None None
           (Some (Details.mk
                    (Some "DERIVA catalog modification successful")
                    (Some (PyBool false))
                    (Some catalog_id)
                    (Some ("https://" +:+ servername
                           +:+ "/chaise/recordset/#" +:+ py_str catalog_id
                           +:+ "/" +:+ schema_name +:+ ":project"))
                    None)))
        (after_success (py_str catalog_id)) w
  end.

End api.

(** ** The records of a request, as the spec counts them *)

Module store_spec.
Import dynamodb.

(** The items of a table that carry the request id, in scan order. *)
Definition matching (tbl : Table) (request_id : string) : list Status.t :=
  filter (λ it, Status.request_id it = Some request_id) (scan_order tbl).

End store_spec.

(** ** Sample inputs *)

Module Samples.
Import dynamodb.

Definition table_a : TableDef.t :=
  TableDef.mk "t"
    [FieldDef.mk "a" (Some "integer") (Some (Constraints.mk (Some true) (Some true))) None;
     FieldDef.mk "v" None None None]
    (Some (StrList ["a"])) None None.

Definition table_abc : TableDef.t :=
  TableDef.mk "t"
    [FieldDef.mk "a" (Some "integer") None None;
     FieldDef.mk "b" (Some "string") None None;
     FieldDef.mk "c" (Some "number") (Some (Constraints.mk None (Some true))) None]
    (Some (StrList ["a"; "b"])) None None.

(** An action status as [run] stores it. *)
Definition action (action_id request_id status : string)
           (manage_by monitor_by : list string) (det : Details.t) : Status.t :=
  Status.mk (Some action_id) (Some request_id) (Some status) (Some manage_by)
            (Some monitor_by) (Some "alice") (Some "P30D") None (Some det).

Definition started : Details.t :=
  Details.mk (Some "Action started") None None None None.

(** A service whose only table, ["actions"], is active and holds the
    given items. *)
Definition service (l : list Status.t) (page_items : nat) : Service :=
  mkService
    {[ "actions" := mkTable "ACTIVE"
                      (list_to_map (omap (λ it, (λ k, (k, it)) <$> Status.action_id it) l)) ]}
    healthy page_items.

Definition a1 : Status.t := action "a1" "r1" "ACTIVE" ["alice"] ["alice"; "bob"] started.
Definition a2 : Status.t := action "a2" "dup" "ACTIVE" ["alice"] ["alice"] started.
Definition a3 : Status.t := action "a3" "dup" "ACTIVE" ["alice"] ["alice"] started.

(** The same service with a delete call that raises. *)
Definition failing_delete (l : list Status.t) : Service :=
  mkService (tables (service l 0))
            (mkFaults None None None (Some "ProvisionedThroughputExceededException") 200)
            0.

Definition world (d : Service) : World := mkWorld d [] None [].

Definition alice : Auth.t := Auth.mk ["alice"] "alice".
Definition bob : Auth.t := Auth.mk ["bob"] "bob".
Definition carol : Auth.t := Auth.mk ["carol"] "carol".

(** An environment in which the downloads and the restore tool succeed;
    the restore tool prints [restore_output], the bag's data directory
    lists [listing], and the catalog ingest accepts the schema file
    [a.json] and no other. *)
Definition env (restore_output : string) (listing : list string) : Env :=
  mkEnv "actions"
        (λ _, None)
        ∅
        "/data"
        "demo.derivacloud.org"
        "demo"
        [("owner", ["alice"])]
        1000
        (λ _, Ok 3600)
        (λ _, Ok 1000000)
        (λ _, "P30D")
        (Ok "token")
        (λ _ _, Ok ())
        (λ _, Ok ([], Py.b restore_output))
        (λ _ _, Ok "/data/bag")
        (λ _, Ok listing)
        (λ _ schema_file_path _ _,
           Ok (if String.eqb schema_file_path "/data/bag/data/a.json"
               then IngestRes.mk true None (Some (PyInt 7))
               else IngestRes.mk false (Some "not a TableSchema") None)).

Definition ingest_body : Body.t :=
  Body.mk (Some "ingest") (Some "https://example.org/bag.zip") None None None.

Definition request (request_id : string) (body : Body.t) : Request.t :=
  Request.mk body request_id None None None None None.

(** A body that lacks the data source an ingest needs. *)
Definition ingest_body_no_url : Body.t :=
  Body.mk (Some "ingest") None None None None.


End Samples.

(** ** The caller's standing, as the spec words it *)

Module auth_spec.

(** The caller's identity set does not meet the principal set. *)
Definition disjoint_from (auth : Auth.t) (principals : list string) : Prop :=
  Forall (λ p, p ∉ principals) (Auth.identities auth).

End auth_spec.

(** ** The schema file candidates, as the spec counts them *)

Module ingest_spec.


End ingest_spec.

(** ** Markers in a byte string, as the spec speaks of them *)

Module bytes_spec.
Import Py.

(** A separator without a border: none of its proper, non-empty prefixes
    is also its suffix, so two of its occurrences never overlap. *)
Definition unbordered (sep : bytes) : Prop :=
  Forall (λ k, take k sep ≠ drop (length sep - k) sep)
         (seq 1 (length sep - 1)).

Definition restore_marker : bytes := b "Restore of catalog".
Definition success_marker : bytes := b "completed successfully".
Definition slash : bytes := b "/".

(** The link [action_restore] records for a restored catalog. *)
Definition samples_link (server : string) (deriva_id : Z) : string :=
  "https://" +:+ server +:+ "/chaise/recordset/#" +:+ pretty deriva_id
  +:+ "/demo:Samples".

End bytes_spec.

(** ** Invariants of the status table *)

Module store_inv.
Import dynamodb.

(** Every item of the table is kept under its own [action_id]. *)
Definition well_keyed (tbl : Table) : Prop :=
  map_Forall (λ k v, Status.action_id v = Some k) (items tbl).

Definition service_well_keyed (d : Service) : Prop :=
  map_Forall (λ _ tbl, well_keyed tbl) (tables d).

(** The request ids the items of a table carry, in scan order. *)
Definition request_ids (tbl : Table) : list string :=
  omap Status.request_id (scan_order tbl).

(** No two items of the table carry the same request id. *)
Definition unique_requests (tbl : Table) : Prop := NoDup (request_ids tbl).

(** The error [read_action_status] raises for an id that is not there. *)
Definition action_not_found (action_id : string) : exn :=
  NotFound ("Action ID " +:+ action_id +:+ " not found in status database").

End store_inv.

(** ** The spawned drivers, as a submission's caller sees them *)

Module process_spec.

(** The action a driver process works for. *)
Definition driver_action_id (p : driver) : string :=
  match p with
  | restore_driver action_id _ _ _ => action_id
  | ingest_driver action_id _ _ _ _ => action_id
  | modify_driver action_id _ _ _ => action_id
  end.

(** The principals a new job gets for a key the request may override. *)
Definition principals_or_caller (auth : Auth.t) (given : option str_or_list)
  : list string :=
  match given with
  | Some (Str p) => [p]
  | Some (StrList l) => l
  | None => Auth.identities auth
  end.

(** What a driver process does when it runs:
    [multiprocessing.Process(target=..., args=args)]. *)
Definition run_driver (env : Env)
           (deriva_modify : string → value → option acls → result api.ModifyRes.t)
           (p : driver) (w : World) : World :=
  match p with
  | restore_driver action_id url server catalog =>
    api.action_restore env action_id url server catalog w
  | ingest_driver action_id url server catalog_id catalog_acls =>
    api.action_ingest env action_id url server catalog_id catalog_acls w
  | modify_driver action_id catalog_id server catalog_acls =>
    api.action_modify env deriva_modify action_id catalog_id server catalog_acls w
  end.

End process_spec.

(** ** More sample inputs *)

Module MoreSamples.
Import dynamodb Samples.

Definition restored : Details.t :=
  Details.mk (Some "DERIVA restore successful") (Some (PyBool false))
             (Some (PyDecimal 42 0)) None
             (Some "https://demo.derivacloud.org/chaise/recordset/#42/demo:Samples").

Definition restored_clean : Details.t :=
  Details.mk (Some "DERIVA restore successful") (Some (PyBool false))
             (Some (PyInt 42)) None
             (Some "https://demo.derivacloud.org/chaise/recordset/#42/demo:Samples").

(** A finished action, as the table holds it and as it is served. *)
Definition a4 : Status.t := action "a4" "r4" "SUCCEEDED" ["alice"] ["alice"] restored.
Definition a4_clean : Status.t :=
  action "a4" "r4" "SUCCEEDED" ["alice"] ["alice"] restored_clean.

(** The sample environment with one known catalog, [demo]. *)
Definition env_known : Env :=
  let e := env "" ["a.json"] in
  mkEnv (TBL e) (INPUT_SCHEMA_error e)
        {[ "demo" := CatalogInfo.mk (PyInt 1) "demo.derivacloud.org" ]}
        (DATA_DIR e) (DEFAULT_SERVER_NAME e) (DERIVA_SCHEMA_NAME e) (DEFAULT_ACLS e)
        (now e) (parse_duration e) (parse_datetime e) (duration_isoformat e)
        (get_deriva_token e) (fetch_url e) (restore_cli e) (download_data e)
        (listdir e) (deriva_ingest e).

(** An ingest into the known catalog, naming another server. *)
Definition ingest_body_wrong_server : Body.t :=
  Body.mk (Some "ingest") (Some "https://example.org/bag.zip")
          (Some (PyStr "demo")) None (Some "other.example.org").

Definition ingest_body_demo : Body.t :=
  Body.mk (Some "ingest") (Some "https://example.org/bag.zip")
          (Some (PyStr "demo")) None None.

(** The sample environment with the clock at [t]. *)
Definition env_at (t : Z) : Env :=
  let e := env "" ["a.json"] in
  mkEnv (TBL e) (INPUT_SCHEMA_error e) (KNOWN_CATALOGS e)
        (DATA_DIR e) (DEFAULT_SERVER_NAME e) (DERIVA_SCHEMA_NAME e) (DEFAULT_ACLS e)
        t (parse_duration e) (parse_datetime e) (duration_isoformat e)
        (get_deriva_token e) (fetch_url e) (restore_cli e) (download_data e)
        (listdir e) (deriva_ingest e).

End MoreSamples.

(** ** What the executors report *)

Module executor_spec.
Import dynamodb.

(** The two shapes of status an executor writes: FAILED with an error
    message, or SUCCEEDED with a message, the catalog and no error. *)
Inductive report : Status.t → Prop :=
| report_failed msg : report (api.error_status msg)
| report_succeeded det :
    is_Some (Details.message det) →
    Details.error det = Some (PyBool false) →
    is_Some (Details.deriva_id det) →
    report (Status.mk None None (Some "SUCCEEDED") None None None None None
                      (Some det)).


(** The text of [ERROR.log] after a status write that raised [e2]. *)
Definition error_log_text (action_id : string) (e2 : exn) (after : string) : string :=
  "Error updating status on " +:+ action_id +:+ ": '" +:+ repr_exn e2 +:+ "'"
  +:+ after.

Definition is_ingest (p : driver) : bool :=
  match p with
  | ingest_driver _ _ _ _ _ => true
  | _ => false
  end.

Definition is_restore (p : driver) : bool :=
  match p with
  | restore_driver _ _ _ _ => true
  | _ => false
  end.

(** The staging directory of an ingest. *)
Definition staging_dir (env : Env) (action_id : string) : string :=
  Py.path_join (DATA_DIR env) (action_id +:+ "/").

(** The directories a driver removes after the status [st]: the staging
    directory, for an ingest that succeeded. *)
Definition removed_by (env : Env) (p : driver) (st : Status.t) : list string :=
  if is_ingest p && bool_decide (Status.status st = Some "SUCCEEDED")
  then [staging_dir env (process_spec.driver_action_id p)]
  else [].

End executor_spec.

(** ** Sample inputs for the executors and the schema conversion *)

Module ExecutorSamples.
Import dynamodb Samples.

(** A catalog modification that succeeds. *)
Definition deriva_modify_ok (servername : string) (catalog_id : value)
           (acls : option acls) : result api.ModifyRes.t :=
  Ok (api.ModifyRes.mk true None).

(** The sample service with a put call that raises. *)
Definition failing_put (l : list Status.t) : Service :=
  mkService (tables (service l 0))
            (mkFaults None None (Some "ProvisionedThroughputExceededException") None 200)
            0.

(** The sample environment without a credential. *)
Definition env_no_token : Env :=
  let e := env "" ["a.json"] in
  mkEnv (TBL e) (INPUT_SCHEMA_error e) (KNOWN_CATALOGS e)
        (DATA_DIR e) (DEFAULT_SERVER_NAME e) (DERIVA_SCHEMA_NAME e) (DEFAULT_ACLS e)
        (now e) (parse_duration e) (parse_datetime e) (duration_isoformat e)
        (Raise (OtherError "invalid_grant")) (fetch_url e) (restore_cli e)
        (download_data e) (listdir e) (deriva_ingest e).

Definition table_bad : TableDef.t :=
  TableDef.mk "u"
    [FieldDef.mk "a" (Some "integer") None None;
     FieldDef.mk "b" (Some "object") None None;
     FieldDef.mk "c" (Some "blob") None None]
    None None None.

(** A table that refers to itself and to [t]. *)
Definition table_refs : TableDef.t :=
  TableDef.mk "n"
    [FieldDef.mk "id" (Some "integer") (Some (Constraints.mk (Some true) None))
                 (Some "the node");
     FieldDef.mk "parent" (Some "integer") None None;
     FieldDef.mk "tag" None None None]
    (Some (Str "id"))
    (Some [FKeyDef.mk (Str "parent") (Reference.mk "" (Str "id"));
           FKeyDef.mk (StrList ["tag"]) (Reference.mk "t" (StrList ["a"]))])
    (Some "nodes").

(** A table whose primary key [a, b] and unique field [a_b] meet in one
    constraint name. *)
Definition table_clash : TableDef.t :=
  TableDef.mk "t"
    [FieldDef.mk "a" None None None;
     FieldDef.mk "b" None None None;
     FieldDef.mk "a_b" None (Some (Constraints.mk None (Some true))) None]
    (Some (StrList ["a"; "b"])) None None.

(** The sample service with scans that report the status 500. *)
Definition failing_scan (l : list Status.t) : Service :=
  mkService (tables (service l 0)) (mkFaults None None None None 500) 0.

(** A service without tables. *)
Definition no_tables : Service := mkService ∅ healthy 0.

End ExecutorSamples.

(* ================================================================== *)
(** * Properties *)

(** Case analysis on the first string comparison of the goal. *)
Ltac case_string_eqb :=
  match goal with
  | |- context [String.eqb ?x ?y] =>
    destruct (String.eqb_spec x y) as [->|?]
  end.

Module Examples.
Import Py.

Example split_two :
  map string_of_list_ascii (split (b "ab") (b "xabyabz")) = ["x"; "y"; "z"].
Proof. reflexivity. Qed.

Example split_edges :
  map string_of_list_ascii (split (b "ab") (b "abab")) = [""; ""; ""].
Proof. reflexivity. Qed.

Example split_overlap :
  map string_of_list_ascii (split (b "aa") (b "aaa")) = [""; "a"].
Proof. reflexivity. Qed.

Example int_plain : int_of_bytes (b " 42 ") = Ok 42.
Proof. reflexivity. Qed.

Example int_signed : int_of_bytes (b "-1_000") = Ok (-1000).
Proof. reflexivity. Qed.

Example int_bad : is_ok (int_of_bytes (b "4__2")) = false
                  ∧ is_ok (int_of_bytes (b "- 4")) = false
                  ∧ is_ok (int_of_bytes (b "")) = false
                  ∧ is_ok (int_of_bytes (b "42_")) = false.
Proof. repeat split; reflexivity. Qed.

Example int_of_decimal_truncates :
  int_of_decimal 15 (-1) = 1 ∧ int_of_decimal (-15) (-1) = -1
  ∧ int_of_decimal 15 2 = 1500.
Proof. repeat split; reflexivity. Qed.

Example translate_decimal :
  utils.translate_status
    (Samples.action "a1" "r1" "SUCCEEDED" ["alice"] ["alice"]
                    (Details.mk None None (Some (PyDecimal 42 0)) None None))
  = Ok (Samples.action "a1" "r1" "SUCCEEDED" ["alice"] ["alice"]
                       (Details.mk None None (Some (PyInt 42)) None None)).
Proof. reflexivity. Qed.

Example endswith_json :
  str_endswith ".json" "datapackage.json" = true
  ∧ str_endswith ".json" "json" = false.
Proof. split; reflexivity. Qed.

End Examples.

(** ** The schema compiler *)

Section SchemaCompiler.
Import utils schema_spec.

Lemma make_type_unsupported (s : string) :
  s ∉ supported_types →
  make_type s = Raise (ValueError ("Mapping undefined for type '" +:+ s +:+ "'")).
Proof.
  unfold supported_types, make_type. intros Hs.
  repeat (case_string_eqb; [exfalso; apply Hs; set_solver|]).
  reflexivity.
Qed.

Lemma make_type_ok_inv (s : string) (ty : builtin_type) :
  make_type s = Ok ty → s ∈ supported_types.
Proof.
  unfold supported_types, make_type.
  repeat (case_string_eqb; [set_solver|]).
  discriminate.
Qed.

Lemma frozenset_eqb_spec (x y : list string) :
  frozenset_eqb x y = true ↔ same_members x y.
Proof.
  unfold frozenset_eqb, same_members.
  rewrite andb_true_iff, !forallb_forall. split.
  - intros [H1 H2]. split; intros a Ha.
    + apply list_elem_of_In, H1 in Ha. by apply bool_decide_eq_true in Ha.
    + apply list_elem_of_In, H2 in Ha. by apply bool_decide_eq_true in Ha.
  - intros [H1 H2]. split; intros a Ha; apply bool_decide_eq_true;
      [apply H1|apply H2]; by apply list_elem_of_In.
Qed.

Lemma make_table_key_defs_spec tdef schema_name provide_system t :
  make_table tdef schema_name provide_system = Ok t →
  Table.key_defs t = spec_key_constraints tdef schema_name.
Proof.
  unfold make_table, spec_key_constraints, spec_primary_key.
  destruct (result_map make_column (TableDef.fields tdef)) as [cols|e];
    simpl; [|discriminate].
  intros [= <-]. simpl.
  destruct (TableDef.primaryKey tdef) as [pk|]; simpl.
  - destruct (as_list pk) as [|c l] eqn:Hpk; simpl.
    + f_equal. apply list_filter_iff. intros cdef. split.
      * intros [Hu _]. split; [done|]. tauto.
      * intros [Hu _]. done.
    + do 2 f_equal. apply list_filter_iff. intros cdef.
      rewrite orb_false_r. split.
      * intros [Hu Hk]. split; [done|].
        by rewrite <- frozenset_eqb_spec, Hk.
      * intros [Hu Hk]. split; [done|]. apply not_true_iff_false.
        by rewrite frozenset_eqb_spec.
  - f_equal. apply list_filter_iff. intros cdef. split.
    + intros [Hu _]. split; [done|]. tauto.
    + intros [Hu _]. done.
Qed.

End SchemaCompiler.

Section SchemaCompilerClaims.
Import utils schema_spec Samples.




(** C4. [make_type] maps [string] to [text], [datetime] to
    [timestamptz], [integer] to [int8], [number] to [float8] and [list]
    to the text array; on every other type literal it raises the error
    whose message quotes that literal, and it returns a type on no other
    literal. *)
Theorem make_type_mapping :
  make_type "string" = Ok text
  ∧ make_type "datetime" = Ok timestamptz
  ∧ make_type "integer" = Ok int8
  ∧ make_type "number" = Ok float8
  ∧ make_type "list" = Ok text_array
  ∧ (∀ col_type, col_type ∉ supported_types →
       make_type col_type
       = Raise (ValueError ("Mapping undefined for type '" +:+ col_type +:+ "'")))
  ∧ (∀ col_type ty, make_type col_type = Ok ty → col_type ∈ supported_types).
Proof.
  repeat split; try reflexivity.
  - apply make_type_unsupported.
  - apply make_type_ok_inv.
Qed.

Lemma make_type_mapping_witness :
  ("object" ∉ supported_types)
  ∧ make_type "object" = Raise (ValueError "Mapping undefined for type 'object'").
Proof.
  assert (H : "object" ∉ supported_types).
  { unfold supported_types. intros H. apply list_elem_of_In in H. simpl in H.
    repeat (destruct H as [H|H]; [discriminate|]). exact H. }
  split; [exact H|].
  exact (proj1 (proj2 (proj2 (proj2 (proj2 (proj2 make_type_mapping))))) "object" H).
Defined.

End SchemaCompilerClaims.

(** ** The action status store *)

Section Store.
Import dynamodb utils store_spec.

Lemma get_dmo_table_ok d table_name tbl :
  get_dmo_table d table_name = Ok tbl →
  describe_raises (faults d) = None
  ∧ tables d !! table_name = Some tbl
  ∧ table_status tbl = "ACTIVE".
Proof.
  unfold get_dmo_table. destruct (describe_raises _); [discriminate|].
  destruct (tables d !! table_name) as [t|]; [|discriminate].
  destruct (String.eqb_spec (table_status t) "ACTIVE"); [|discriminate].
  by intros [= ->].
Qed.

Lemma get_dmo_table_intro d table_name tbl :
  describe_raises (faults d) = None →
  tables d !! table_name = Some tbl →
  table_status tbl = "ACTIVE" →
  get_dmo_table d table_name = Ok tbl.
Proof.
  unfold get_dmo_table. intros -> -> ->. reflexivity.
Qed.

Lemma scan_loop_complete fuel d table_name request_id tbl key acc :
  tables d !! table_name = Some tbl →
  scan_status_code (faults d) < 300 →
  (length (scan_order tbl) - default 0 key < fuel)%nat →
  scan_loop fuel d table_name request_id key acc
  = Some (Ok (acc ++ filter (λ it, Status.request_id it = Some request_id)
                            (drop (default 0%nat key) (scan_order tbl)))).
Proof.
  intros Htbl Hcode. revert key acc.
  induction fuel as [|fuel IH]; intros key acc Hfuel; [lia|].
  simpl. unfold scan. rewrite Htbl. simpl.
  destruct (Z.leb_spec 300 (scan_status_code (faults d))) as [|_]; [lia|].
  set (start := default 0%nat key) in *.
  set (all := scan_order tbl) in *.
  destruct (Nat.ltb_spec (start + S (page_items d)) (length all)) as [Hlt|Hge].
  - rewrite IH by (simpl; lia). simpl.
    rewrite <- (assoc_L (++)), <- filter_app. do 3 f_equal.
    rewrite <- (take_drop (S (page_items d)) (drop start all)) at 2.
    by rewrite drop_drop.
  - rewrite take_ge by (rewrite length_drop; lia). done.
Qed.

Lemma read_action_by_request_matching fuel d table_name request_id tbl :
  get_dmo_table d table_name = Ok tbl →
  scan_status_code (faults d) < 300 →
  (length (scan_order tbl) < fuel)%nat →
  read_action_by_request fuel d table_name request_id
  = Some match matching tbl request_id with
         | [] => Raise (request_not_found request_id)
         | [entry] => Ok entry
         | _ => Raise (multiple_entries request_id)
         end.
Proof.
  intros Hget Hcode Hfuel. unfold read_action_by_request. rewrite Hget.
  apply get_dmo_table_ok in Hget as (_ & Htbl & _).
  rewrite (scan_loop_complete _ _ _ _ tbl) by (simpl; done || lia).
  simpl. rewrite drop_0. fold (matching tbl request_id).
  by destruct (matching tbl request_id) as [|? [|? ?]].
Qed.


End Store.

Section StoreWitnesses.
Import dynamodb utils store_spec Samples.


End StoreWitnesses.

Section StoreReads.
Import dynamodb utils.

Lemma read_action_status_found d table_name action_id tbl entry :
  get_dmo_table d table_name = Ok tbl →
  get_item_raises (faults d) = None →
  items tbl !! action_id = Some entry →
  read_action_status d table_name action_id = Ok entry.
Proof.
  intros Hget Hfault Hentry. unfold read_action_status. rewrite Hget. simpl.
  apply get_dmo_table_ok in Hget as (_ & Htbl & _).
  unfold get_item. by rewrite Hfault, Htbl, Hentry.
Qed.

Lemma read_action_status_ok_inv d table_name action_id entry :
  read_action_status d table_name action_id = Ok entry →
  ∃ tbl, get_dmo_table d table_name = Ok tbl
         ∧ get_item_raises (faults d) = None
         ∧ items tbl !! action_id = Some entry.
Proof.
  unfold read_action_status.
  destruct (get_dmo_table d table_name) as [tbl|e] eqn:Hget; [|discriminate].
  simpl. unfold get_item.
  destruct (get_item_raises (faults d)); [discriminate|].
  pose proof (get_dmo_table_ok _ _ _ Hget) as (_ & Htbl & _). rewrite Htbl.
  destruct (items tbl !! action_id) as [x|] eqn:Hx; [|discriminate].
  intros [= ->]. by exists tbl.
Qed.

Lemma read_action_status_absent d table_name action_id tbl :
  get_dmo_table d table_name = Ok tbl →
  get_item_raises (faults d) = None →
  items tbl !! action_id = None →
  read_action_status d table_name action_id
  = Raise (NotFound ("Action ID " +:+ action_id +:+ " not found in status database")).
Proof.
  intros Hget Hfault Hentry. unfold read_action_status. rewrite Hget. simpl.
  apply get_dmo_table_ok in Hget as (_ & Htbl & _).
  unfold get_item. by rewrite Hfault, Htbl, Hentry.
Qed.

Lemma read_action_status_not_unauthorized d table_name action_id msg :
  read_action_status d table_name action_id ≠ Raise (NotAuthorized msg).
Proof.
  unfold read_action_status, get_dmo_table, get_item, table_missing, no_table.
  repeat (case_match; simpl; try discriminate).
Qed.

(** C10. When the record exists and the store's delete call raises,
    [delete_action_status] raises no [ServiceError]: it goes on to the
    verification read, finds the record and raises [InternalError]; the
    store is as it was. *)
Theorem delete_action_status_delete_raises d table_name action_id tbl entry msg :
  get_dmo_table d table_name = Ok tbl →
  get_item_raises (faults d) = None →
  items tbl !! action_id = Some entry →
  delete_item_raises (faults d) = Some msg →
  delete_action_status d table_name action_id
  = (d, Raise (InternalError "Action status was not deleted.")).
Proof.
  intros Hget Hfault Hentry Hdel. unfold delete_action_status.
  rewrite (read_action_status_found _ _ _ _ _ Hget Hfault Hentry), Hget.
  unfold delete_item. rewrite Hdel.
  by rewrite (read_action_status_found _ _ _ _ _ Hget Hfault Hentry).
Qed.

End StoreReads.

Section StoreReadsWitnesses.
Import dynamodb utils Samples.

Lemma delete_action_status_delete_raises_witness :
  delete_action_status (failing_delete [a1]) "actions" "a1"
  = (failing_delete [a1], Raise (InternalError "Action status was not deleted.")).
Proof.
  apply (delete_action_status_delete_raises
           (failing_delete [a1]) "actions" "a1"
           (mkTable "ACTIVE" (list_to_map [("a1", a1)])) a1
           "ProvisionedThroughputExceededException");
    vm_compute; reflexivity.
Defined.

End StoreReadsWitnesses.

(** ** Authorization of the routes *)

Section Authorization.
Import dynamodb utils auth_spec.

Lemma check_authorization_disjoint auth principals :
  disjoint_from auth principals →
  check_authorization auth principals false = false.
Proof.
  intros Hdis. unfold check_authorization. simpl.
  apply not_true_iff_false. rewrite existsb_exists.
  intros (p & Hp & Hin). apply bool_decide_eq_true in Hin.
  unfold disjoint_from in Hdis. rewrite Forall_forall in Hdis.
  apply (Hdis p Hin). by apply list_elem_of_In.
Qed.

Lemma check_authorization_meets auth principals :
  ¬ disjoint_from auth principals →
  check_authorization auth principals false = true.
Proof.
  intros Hmeet. unfold check_authorization. simpl.
  apply not_false_iff_true. intros Hex. apply Hmeet.
  apply Forall_forall. intros p Hp Hin.
  assert (Ht : existsb (λ q, bool_decide (q ∈ Auth.identities auth)) principals = true).
  { apply existsb_exists. exists p. split; [by apply list_elem_of_In|].
    by apply bool_decide_eq_true. }
  congruence.
Qed.

Lemma translate_status_not_unauthorized st msg :
  translate_status st ≠ Raise (NotAuthorized msg).
Proof.
  unfold translate_status, py_int, Py.int_of_bytes, Py.invalid_literal.
  repeat (case_match; simpl; try discriminate).
Qed.

Lemma get_dmo_table_not_unauthorized d table_name msg :
  get_dmo_table d table_name ≠ Raise (NotAuthorized msg).
Proof.
  unfold get_dmo_table, table_missing.
  repeat (case_match; simpl; try discriminate).
Qed.

Lemma delete_action_status_not_unauthorized d table_name action_id msg :
  (delete_action_status d table_name action_id).2 ≠ Raise (NotAuthorized msg).
Proof.
  unfold delete_action_status, not_deleted.
  destruct (read_action_status d table_name action_id) as [?|e] eqn:H1.
  2: { simpl. intros [= ->]. by apply read_action_status_not_unauthorized in H1. }
  destruct (get_dmo_table d table_name) as [?|e] eqn:H2.
  2: { simpl. intros [= ->]. by apply get_dmo_table_not_unauthorized in H2. }
  destruct (delete_item d table_name action_id) as [d' r].
  destruct (read_action_status d' table_name action_id) as [?|e] eqn:H3;
    simpl; [done|].
  destruct e; simpl; try done.
  intros _. by apply read_action_status_not_unauthorized in H3.
Qed.

(** C6. For an action that is in the store: [status] raises
    [NotAuthorized] when the caller's identities do not meet
    [monitor_by]; [cancel] and [release] raise [NotAuthorized], and
    change nothing, when the caller's identities do not meet
    [manage_by], whatever [monitor_by] holds; and when the caller's
    identities do meet [manage_by], neither of the two raises
    [NotAuthorized], whatever [monitor_by] holds. *)
Theorem routes_authorization env auth action_id w st :
  read_action_status (dynamo w) (TBL env) action_id = Ok st →
  (∀ monitor_by,
      Status.monitor_by st = Some monitor_by →
      disjoint_from auth monitor_by →
      api.status env auth action_id w
      = Raise (NotAuthorized ("You cannot view the status of action " +:+ action_id)))
  ∧ (∀ manage_by,
        Status.manage_by st = Some manage_by →
        disjoint_from auth manage_by →
        api.cancel env auth action_id w
        = (w, Raise (NotAuthorized ("You cannot cancel action " +:+ action_id)))
        ∧ api.release env auth action_id w
          = (w, Raise (NotAuthorized ("You cannot cancel action " +:+ action_id))))
  ∧ (∀ manage_by msg,
        Status.manage_by st = Some manage_by →
        ¬ disjoint_from auth manage_by →
        (api.cancel env auth action_id w).2 ≠ Raise (NotAuthorized msg)
        ∧ (api.release env auth action_id w).2 ≠ Raise (NotAuthorized msg)).
Proof.
  intros Hread. split; [|split].
  - intros monitor_by Hmon Hdis. unfold api.status. rewrite Hread. simpl.
    rewrite Hmon. simpl. by rewrite (check_authorization_disjoint _ _ Hdis).
  - intros manage_by Hman Hdis. unfold api.cancel, api.release.
    rewrite Hread, Hman. simpl.
    by rewrite (check_authorization_disjoint _ _ Hdis).
  - intros manage_by msg Hman Hmeet. unfold api.cancel, api.release.
    rewrite Hread, Hman. simpl.
    rewrite (check_authorization_meets _ _ Hmeet). simpl.
    pose proof (translate_status_not_unauthorized st msg) as Htr.
    destruct (translate_status st) as [clean|e]; simpl; [|done].
    destruct (Status.status clean) as [s|]; simpl; [|done].
    split.
    + destruct (_ || _); simpl; [done|]. unfold api.cancel_action.
      rewrite Hread. simpl. apply translate_status_not_unauthorized.
    + destruct (_ || _); simpl; [done|].
      pose proof (delete_action_status_not_unauthorized
                    (dynamo w) (TBL env) action_id msg) as Hdel.
      destruct (delete_action_status (dynamo w) (TBL env) action_id) as [d' [?|e]];
        simpl in *; [done|].
      intros [= ->]. by apply Hdel.
Qed.

End Authorization.

Section AuthorizationWitnesses.
Import dynamodb utils auth_spec Samples.

Lemma routes_authorization_witness :
  api.status (env "" []) carol "a1" (world (service [a1] 0))
  = Raise (NotAuthorized "You cannot view the status of action a1")
  ∧ api.cancel (env "" []) bob "a1" (world (service [a1] 0))
    = (world (service [a1] 0), Raise (NotAuthorized "You cannot cancel action a1"))
  ∧ api.release (env "" []) bob "a1" (world (service [a1] 0))
    = (world (service [a1] 0), Raise (NotAuthorized "You cannot cancel action a1"))
  ∧ (api.cancel (env "" []) alice "a1" (world (service [a1] 0))).2
    ≠ Raise (NotAuthorized "You cannot cancel action a1").
Proof.
  pose (w := world (service [a1] 0)).
  assert (Hread : read_action_status (dynamo w) (TBL (env "" [])) "a1" = Ok a1)
    by (vm_compute; reflexivity).
  split; [|split; [|split]].
  - apply (proj1 (routes_authorization (env "" []) carol "a1" w a1 Hread)
                 ["alice"; "bob"]); [reflexivity|].
    apply (bool_decide_unpack _). vm_compute. exact I.
  - apply (proj1 (proj2 (routes_authorization (env "" []) bob "a1" w a1 Hread))
                 ["alice"]); [reflexivity|].
    apply (bool_decide_unpack _). vm_compute. exact I.
  - apply (proj1 (proj2 (routes_authorization (env "" []) bob "a1" w a1 Hread))
                 ["alice"]); [reflexivity|].
    apply (bool_decide_unpack _). vm_compute. exact I.
  - apply (proj2 (proj2 (routes_authorization (env "" []) alice "a1" w a1 Hread))
                 ["alice"]); [reflexivity|].
    apply (bool_decide_unpack _). vm_compute. exact I.
Defined.

End AuthorizationWitnesses.

(** ** Translation of a status *)

Section Translation.
Import dynamodb utils Samples.


Lemma translate_status_zero_decimal st det e :
  Status.details st = Some det →
  Details.deriva_id det = Some (PyDecimal 0 e) →
  translate_status st = Ok st.
Proof.
  intros Hdet Hid. unfold translate_status. by rewrite Hdet, Hid.
Qed.

(** C9. After a restore whose tool reports catalog 42, [status] serves
    the identifier as the plain integer 42; after one whose tool reports
    catalog 0, the identifier is served as the [Decimal] the table holds,
    because [translate_status] converts an identifier only when it is
    truthy. *)
Theorem status_serves_zero_identifier_as_decimal :
  (∃ st det,
      api.status (env "" []) alice "a1"
        (api.action_restore (env "Restore of catalog 42 completed successfully" [])
                            "a1" "https://example.org/backup.zip" None None
                            (world (service [a1] 0)))
      = Ok st
      ∧ Status.details st = Some det
      ∧ Details.deriva_id det = Some (PyInt 42))
  ∧ (∃ st det,
        api.status (env "" []) alice "a1"
          (api.action_restore (env "Restore of catalog 0 completed successfully" [])
                              "a1" "https://example.org/backup.zip" None None
                              (world (service [a1] 0)))
        = Ok st
        ∧ Status.details st = Some det
        ∧ Details.deriva_id det = Some (PyDecimal 0 0)
        ∧ is_plain_int (PyDecimal 0 0) = false).
Proof.
  split.
  - eexists _, _. split; [vm_compute; reflexivity|]. split; reflexivity.
  - eexists _, _. split; [vm_compute; reflexivity|]. repeat split; reflexivity.
Qed.

End Translation.

(** ** Submission *)

Section Submission.
Import dynamodb utils store_spec.

Lemma scan_order_insert_fresh (tbl : Table) (k : string) (v : Status.t) st :
  items tbl !! k = None →
  scan_order (mkTable st (<[k := v]> (items tbl))) ≡ₚ v :: scan_order tbl.
Proof.
  intros Hk. unfold scan_order. simpl.
  by rewrite (map_to_list_insert _ _ _ Hk).
Qed.

Lemma matching_insert_fresh (tbl : Table) (k : string) (v : Status.t) st request_id :
  items tbl !! k = None →
  Status.request_id v = Some request_id →
  matching tbl request_id = [] →
  matching (mkTable st (<[k := v]> (items tbl))) request_id = [v].
Proof.
  intros Hk Hv Hnone. apply Permutation_singleton_r. unfold matching.
  rewrite (scan_order_insert_fresh _ _ _ _ Hk), filter_cons.
  destruct (decide _) as [_|Hn]; [|done].
  unfold matching in Hnone. by rewrite Hnone.
Qed.


Lemma generate_action_id_loop_fresh d table_name candidate more action_id :
  generate_action_id_loop d table_name candidate more = Some (Ok action_id) →
  ∃ msg, read_action_status d table_name action_id = Raise (NotFound msg).
Proof.
  revert candidate. induction more as [|next more IH]; intros candidate; simpl.
  - destruct (read_action_status d table_name candidate) as [?|e] eqn:Hr;
      [discriminate|].
    destruct e; try discriminate. intros [= <-]. eauto.
  - destruct (read_action_status d table_name candidate) as [?|e] eqn:Hr;
      [apply IH|].
    destruct e; try discriminate. intros [= <-]. eauto.
Qed.

Lemma generate_action_id_fresh oids d table_name action_id tbl :
  generate_action_id oids d table_name = Some (Ok action_id) →
  get_dmo_table d table_name = Ok tbl →
  items tbl !! action_id = None.
Proof.
  intros Hgen Hget. destruct oids as [|candidate more]; [discriminate|].
  apply generate_action_id_loop_fresh in Hgen as [msg Hread].
  unfold read_action_status in Hread. rewrite Hget in Hread. simpl in Hread.
  apply get_dmo_table_ok in Hget as (_ & Htbl & _).
  unfold get_item in Hread. rewrite Htbl in Hread.
  destruct (get_item_raises (faults d)); [discriminate|].
  by destruct (items tbl !! action_id).
Qed.

(** The first candidate that is not in the table is the one chosen. *)
Lemma generate_action_id_first_fresh d table_name tbl candidate more :
  get_dmo_table d table_name = Ok tbl →
  get_item_raises (faults d) = None →
  items tbl !! candidate = None →
  generate_action_id (candidate :: more) d table_name = Some (Ok candidate).
Proof.
  intros Hget Hfault Hk. simpl. destruct more; simpl;
    by rewrite (read_action_status_absent _ _ _ _ Hget Hfault Hk).
Qed.

Lemma start_action_dynamo env action_id action_data w w' r :
  api.start_action env action_id action_data w = (w', r) →
  dynamo w' = dynamo w.
Proof.
  unfold api.start_action. intros H.
  repeat (case_match; simplify_eq; simpl; try done).
Qed.


End Submission.

Section SubmissionClaims.
Import dynamodb utils store_spec.

Lemma new_job_ok env auth req job :
  api.new_job env auth req = Ok job →
  Status.action_id job = None
  ∧ Status.request_id job = Some (Request.request_id req)
  ∧ Status.details job = None.
Proof.
  unfold api.new_job.
  destruct (match Request.release_after req with
            | Some iso => parse_duration env iso
            | None => Ok (api.days 30)
            end) as [release_after|e]; simpl; [|discriminate].
  destruct (match Request.deadline req with
            | Some iso => _
            | None => Ok ()
            end) as [[]|e]; simpl; [|discriminate].
  by intros [= <-].
Qed.


End SubmissionClaims.

Section SubmissionTheorems.
Import dynamodb utils store_spec.

(** C1. When exactly one record of the active table carries the request
    id (and the lookup's scans succeed), a submission whose body passes
    the input validation returns that record as [translate_status]
    renders it, with status 200, and leaves the store and the spawned
    processes as they were; a submission whose body fails the validation
    is refused with the validation error, although the record exists. *)
Theorem run_replay env fuel oids auth req w tbl st :
  get_dmo_table (dynamo w) (TBL env) = Ok tbl →
  scan_status_code (faults (dynamo w)) < 300 →
  (length (scan_order tbl) < fuel)%nat →
  matching tbl (Request.request_id req) = [st] →
  (api.validate_body env (Request.body req) = Ok () →
   api.run env fuel oids auth req w
   = (w, Some (clean ← translate_status st; Ok (Response.mk 200 clean))))
  ∧ (∀ e, api.validate_body env (Request.body req) = Raise e →
          api.run env fuel oids auth req w = (w, Some (Raise e))).
Proof.
  intros Hget Hcode Hfuel Hmatch. unfold api.run. split.
  - intros ->.
    by rewrite (read_action_by_request_matching _ _ _ _ _ Hget Hcode Hfuel), Hmatch.
  - by intros e ->.
Qed.


End SubmissionTheorems.

Section SubmissionWitnesses.
Import dynamodb utils store_spec Samples.

Lemma run_replay_witness :
  api.run (env "" []) 4 [] bob (request "r1" ingest_body) (world (service [a1] 0))
  = (world (service [a1] 0), Some (Ok (Response.mk 200 a1))).
Proof.
  apply (proj1 (run_replay (env "" []) 4 [] bob (request "r1" ingest_body)
                           (world (service [a1] 0))
                           (mkTable "ACTIVE" (list_to_map [("a1", a1)])) a1
                           eq_refl eq_refl
                           ltac:(vm_compute; lia) ltac:(vm_compute; reflexivity))).
  vm_compute. reflexivity.
Defined.

(** The record of request [r1] is in the store, and a submission with
    that request id and a body without [data_url] is refused. *)
Lemma run_replay_validates_body :
  read_action_by_request 4 (service [a1] 0) "actions" "r1" = Some (Ok a1)
  ∧ api.run (env "" []) 4 [] alice (request "r1" ingest_body_no_url)
            (world (service [a1] 0))
    = (world (service [a1] 0),
       Some (Raise (InvalidRequest "You must provide a data_url to ingest or restore."))).
Proof. split; vm_compute; reflexivity. Qed.



End SubmissionWitnesses.

(** ** The ingest executor *)

Section Ingest.
Import dynamodb utils ingest_spec.

Lemma update_action_status_merge d table_name action_id tbl old updates :
  get_dmo_table d table_name = Ok tbl →
  get_item_raises (faults d) = None →
  put_item_raises (faults d) = None →
  items tbl !! action_id = Some old →
  Status.action_id updates = None →
  Status.action_id old = Some action_id →
  update_action_status d table_name action_id updates false
  = (set_items table_name tbl
               (<[action_id := stored_item (dict_merge updates old)]> (items tbl)) d,
     Ok (dict_merge updates old)).
Proof.
  intros Hget Hgetf Hputf Hold Hupd Hkey. unfold update_action_status.
  rewrite (read_action_status_found _ _ _ _ _ Hget Hgetf Hold), Hget.
  pose proof (get_dmo_table_ok _ _ _ Hget) as (_ & Htbl & _).
  unfold put_item. rewrite Hputf, Htbl. simpl.
  unfold merge_key at 1. by rewrite Hupd, Hkey.
Qed.

Lemma read_action_status_after_put d table_name action_id tbl v :
  get_dmo_table d table_name = Ok tbl →
  get_item_raises (faults d) = None →
  read_action_status (set_items table_name tbl (<[action_id := v]> (items tbl)) d)
                     table_name action_id
  = Ok v.
Proof.
  intros Hget Hgetf.
  pose proof (get_dmo_table_ok _ _ _ Hget) as (Hdesc & Htbl & Hactive).
  apply (read_action_status_found _ _ _
           (mkTable (table_status tbl) (<[action_id := v]> (items tbl)))).
  - apply get_dmo_table_intro; [done| |done].
    unfold set_items. simpl. by rewrite lookup_insert_eq.
  - done.
  - simpl. by rewrite lookup_insert_eq.
Qed.


End Ingest.

Section IngestWitnesses.
Import dynamodb utils ingest_spec Samples.



End IngestWitnesses.

(** ** Splitting byte strings *)

Section Bytes.
Import Py bytes_spec.

Lemma ascii_eqb_true c d : ascii_eqb c d = true ↔ c = d.
Proof. apply Ascii.eqb_eq. Qed.

Lemma startswith_prefix p s : startswith p s = true ↔ p `prefix_of` s.
Proof.
  revert s. induction p as [|c p IH]; intros s; simpl.
  - split; [intros _; apply prefix_nil|done].
  - destruct s as [|d s].
    + split; [done|]. intros [k Hk]. discriminate.
    + rewrite andb_true_iff, ascii_eqb_true, IH. split.
      * intros [-> H]. by apply prefix_cons.
      * intros H. split; [by apply prefix_cons_inv_1 in H|
                          by apply prefix_cons_inv_2 in H].
Qed.

Lemma startswith_app p t : startswith p (p ++ t) = true.
Proof. apply startswith_prefix. by exists t. Qed.

Lemma contains_cons_false sub c s :
  contains sub (c :: s) = false →
  startswith sub (c :: s) = false ∧ contains sub s = false.
Proof.
  destruct sub; simpl; [done|]. intros H. by apply orb_false_elim in H.
Qed.

Lemma contains_app_true sub a t : contains sub (a ++ sub ++ t) = true.
Proof.
  induction a as [|c a IH]; simpl.
  - destruct (sub ++ t) eqn:E; simpl.
    + destruct sub; [done|discriminate].
    + rewrite <- E, startswith_app. done.
  - rewrite IH. destruct sub; [done|]. apply orb_true_r.
Qed.

Lemma unbordered_no_border sep x y z :
  unbordered sep → sep = x ++ y → sep = z ++ x → x = [] ∨ y = [].
Proof.
  intros Hun Hxy Hzx.
  destruct x as [|c x]; [by left|]. destruct y as [|d y]; [by right|].
  exfalso. unfold unbordered in Hun. rewrite Forall_forall in Hun.
  apply (Hun (length (c :: x))).
  - apply elem_of_seq. rewrite Hxy, length_app. simpl. lia.
  - rewrite Hxy at 1. rewrite take_app_length.
    rewrite Hzx. rewrite length_app.
    replace (length z + length (c :: x) - length (c :: x))%nat with (length z) by lia.
    by rewrite drop_app_length.
Qed.

(** An occurrence that starts before another one ends before it. *)
Lemma unbordered_no_overlap sep a t :
  unbordered sep → a ≠ [] →
  startswith sep (a ++ sep ++ t) = true →
  (length sep ≤ length a)%nat.
Proof.
  intros Hun Ha Hst. apply startswith_prefix in Hst as [k Hk].
  apply app_eq_inv in Hk as [(l & -> & _)|(l & Hsep & Hl)].
  - rewrite length_app. lia.
  - apply app_eq_inv in Hl as [(l2 & Hsep2 & _)|(l2 & -> & _)].
    + destruct (unbordered_no_border sep l l2 a Hun Hsep2 Hsep) as [->| ->].
      * rewrite app_nil_r in Hsep. by rewrite Hsep.
      * rewrite app_nil_r in Hsep2. subst l.
        apply (f_equal length) in Hsep. rewrite length_app in Hsep.
        destruct a; [done|]. simpl in Hsep. lia.
    + apply (f_equal length) in Hsep. rewrite !length_app in Hsep.
      destruct a; [done|]. simpl in Hsep. lia.
Qed.

Lemma split_go_skip sep x rest cur :
  split_go sep (length x) cur (x ++ rest) = split_go sep 0 cur rest.
Proof. induction x as [|c x IH]; [done|]. simpl. apply IH. Qed.

Lemma split_go_no_occurrence sep cur s :
  contains sep s = false →
  split_go sep 0 cur s = [rev cur ++ s].
Proof.
  revert cur. induction s as [|c s IH]; intros cur H; simpl.
  - by rewrite app_nil_r.
  - apply contains_cons_false in H as [H1 H2]. rewrite H1, (IH _ H2). simpl.
    by rewrite <- (assoc_L (++)).
Qed.

Lemma split_no_occurrence sep s :
  contains sep s = false → split sep s = [s].
Proof. intros H. unfold split. by rewrite split_go_no_occurrence. Qed.

Lemma split_go_at_occurrence sep cur rest :
  sep ≠ [] →
  split_go sep 0 cur (sep ++ rest) = rev cur :: split_go sep 0 [] rest.
Proof.
  intros Hsep. destruct sep as [|c sep]; [done|].
  change ((c :: sep) ++ rest) with (c :: (sep ++ rest)).
  cbn [split_go]. change (c :: (sep ++ rest)) with ((c :: sep) ++ rest).
  rewrite startswith_app. f_equal.
  replace (length (c :: sep) - 1)%nat with (length sep) by (simpl; lia).
  apply split_go_skip.
Qed.

Lemma split_go_last sep pre rest skip cur :
  sep ≠ [] → unbordered sep →
  contains sep rest = false →
  (skip ≤ length pre)%nat →
  last (split_go sep skip cur (pre ++ sep ++ rest)) = Some rest.
Proof.
  intros Hsep Hun Hrest. revert skip cur.
  induction pre as [|c pre IH]; intros skip cur Hskip.
  - destruct skip; [|simpl in Hskip; lia]. simpl.
    rewrite split_go_at_occurrence, split_go_no_occurrence by done. done.
  - change ((c :: pre) ++ sep ++ rest) with (c :: (pre ++ sep ++ rest)).
    cbn [split_go]. destruct skip as [|skip].
    + change (c :: (pre ++ sep ++ rest)) with ((c :: pre) ++ sep ++ rest).
      destruct (startswith sep ((c :: pre) ++ sep ++ rest)) eqn:Hst.
      * apply unbordered_no_overlap in Hst; [|done..]. simpl in Hst.
        rewrite last_cons, IH by lia. done.
      * apply IH. lia.
    + apply IH. simpl in Hskip. lia.
Qed.

(** The last piece is what follows the last occurrence. *)
Lemma split_last sep pre rest :
  sep ≠ [] → unbordered sep →
  contains sep rest = false →
  index_last (split sep (pre ++ sep ++ rest)) = Ok rest.
Proof.
  intros Hsep Hun Hrest. unfold index_last, split.
  rewrite split_go_last; [done..|lia].
Qed.

Lemma split_go_head sep mid post cur :
  sep ≠ [] → unbordered sep →
  contains sep mid = false →
  head (split_go sep 0 cur (mid ++ sep ++ post)) = Some (rev cur ++ mid).
Proof.
  intros Hsep Hun. revert cur. induction mid as [|c mid IH]; intros cur Hmid.
  - simpl. rewrite split_go_at_occurrence by done. simpl. by rewrite app_nil_r.
  - change ((c :: mid) ++ sep ++ post) with (c :: (mid ++ sep ++ post)).
    cbn [split_go].
    change (c :: (mid ++ sep ++ post)) with ((c :: mid) ++ sep ++ post).
    pose proof (contains_cons_false _ _ _ Hmid) as [Hst Hmid'].
    destruct (startswith sep ((c :: mid) ++ sep ++ post)) eqn:Hst'.
    + exfalso. pose proof Hst' as Hlen.
      apply unbordered_no_overlap in Hlen; [|done..].
      apply startswith_prefix in Hst' as [k Hk].
      apply app_eq_inv in Hk as [(l & Hl & _)|(l & Hl & _)].
      * assert (startswith sep (c :: mid) = true)
          by (apply startswith_prefix; by exists l).
        congruence.
      * pose proof (f_equal length Hl) as Hl'. rewrite length_app in Hl'.
        simpl in Hl', Hlen.
        assert (l = []) as -> by (destruct l; [done|simpl in Hl'; lia]).
        rewrite app_nil_r in Hl.
        assert (startswith sep (c :: mid) = true)
          by (apply startswith_prefix; by rewrite Hl).
        congruence.
    + rewrite IH by done. simpl. by rewrite <- (assoc_L (++)).
Qed.

End Bytes.

(** ** The output of the restore tool *)

Section RestoreOutput.
Import Py bytes_spec.

Lemma index_0_head {A} (l : list A) x : head l = Some x → index_0 l = Ok x.
Proof. destruct l; simpl; [done|]. by intros [= ->]. Qed.

Lemma split_head sep mid post :
  sep ≠ [] → unbordered sep →
  contains sep mid = false →
  index_0 (split sep (mid ++ sep ++ post)) = Ok mid.
Proof.
  intros Hsep Hun Hmid. apply index_0_head. unfold split.
  by rewrite split_go_head.
Qed.

Lemma unbordered_restore_marker : unbordered restore_marker.
Proof. apply (bool_decide_unpack _). vm_compute. exact I. Qed.

Lemma unbordered_success_marker : unbordered success_marker.
Proof. apply (bool_decide_unpack _). vm_compute. exact I. Qed.

Lemma unbordered_slash : unbordered slash.
Proof. apply (bool_decide_unpack _). vm_compute. exact I. Qed.

(** The piece [action_restore] reads the identifier from, for each shape
    of the text around the markers. *)
Lemma tail_after_restore_marker msg pre rest :
  msg = rest ∨ msg = pre ++ restore_marker ++ rest →
  contains restore_marker rest = false →
  index_last (split restore_marker msg) = Ok rest.
Proof.
  intros [->| ->] Hrest.
  - by rewrite split_no_occurrence.
  - apply split_last; [done|apply unbordered_restore_marker|done].
Qed.

Lemma text_before_success_marker rest mid post :
  rest = mid ∨ rest = mid ++ success_marker ++ post →
  contains success_marker mid = false →
  index_0 (split success_marker rest) = Ok mid.
Proof.
  intros [->| ->] Hmid.
  - by rewrite split_no_occurrence.
  - apply split_head; [done|apply unbordered_success_marker|done].
Qed.

Lemma trailing_segment link p seg :
  link = seg ∨ link = p ++ slash ++ seg →
  contains slash seg = false →
  index_last (split slash link) = Ok seg.
Proof.
  intros [->| ->] Hseg.
  - by rewrite split_no_occurrence.
  - apply split_last; [done|apply unbordered_slash|done].
Qed.

Lemma startswith_app_false sep a t :
  startswith sep (a ++ t) = false → startswith sep a = false.
Proof.
  intros H. apply not_true_iff_false. intros Ha.
  apply startswith_prefix in Ha. apply not_true_iff_false in H. apply H.
  apply startswith_prefix. by apply prefix_app_r.
Qed.

Lemma contains_drop_prefix sub x t :
  contains sub (x ++ t) = false → contains sub t = false.
Proof.
  induction x as [|c x IH]; [done|]. intros H.
  apply contains_cons_false in H as [_ H]. by apply IH.
Qed.

(** Every text is cut by the last occurrence of a separator, if it has
    one, and by the first one. *)
Lemma last_occurrence sep s :
  sep ≠ [] →
  ∃ pre rest, (s = rest ∨ s = pre ++ sep ++ rest) ∧ contains sep rest = false.
Proof.
  intros Hsep. induction s as [|c s (pre & rest & [->| ->] & Hrest)].
  - exists [], []. split; [by left|]. by destruct sep.
  - destruct (startswith sep (c :: rest)) eqn:Hst.
    + apply startswith_prefix in Hst as [t Ht]. exists [], t.
      split; [right; by rewrite Ht|].
      destruct sep as [|d sep]; [done|]. simplify_eq/=.
      by apply contains_drop_prefix in Hrest.
    + exists [], (c :: rest). split; [by left|]. simpl.
      destruct sep; [done|]. by rewrite Hst, Hrest.
  - exists (c :: pre), rest. split; [by right|done].
Qed.

Lemma first_occurrence sep s :
  sep ≠ [] →
  ∃ mid post, (s = mid ∨ s = mid ++ sep ++ post) ∧ contains sep mid = false.
Proof.
  intros Hsep. induction s as [|c s (mid & post & Hs & Hmid)].
  - exists [], []. split; [by left|]. by destruct sep.
  - destruct (startswith sep (c :: s)) eqn:Hst.
    + apply startswith_prefix in Hst as [t Ht]. exists [], t.
      split; [right; by rewrite Ht|]. by destruct sep.
    + exists (c :: mid), post. split.
      * destruct Hs as [->| ->]; [by left|by right].
      * simpl. destruct sep as [|a sep]; [done|]. rewrite Hmid, orb_false_r.
        destruct Hs as [->| ->]; [done|].
        by apply (startswith_app_false _ (c :: mid) ((a :: sep) ++ post)).
Qed.

(** C5. An output without [completed successfully] is a parse error and
    yields no identifier.  An output with it yields the integer written
    in the trailing [/]-segment of the stripped text that lies after the
    last [Restore of catalog] (the start of the output when that marker
    is absent) and before the next [completed successfully] (the end of
    the output when none follows); when that segment is no integer
    literal the parse fails.  The output
    [Restore of catalog 42 completed successfully] yields 42. *)
Theorem parse_restore_message_markers :
  (∀ server msg,
      contains success_marker msg = false →
      api.parse_restore_message server msg
      = Raise (ValueError ("DERIVA restore failed: " +:+ repr_bytes msg)))
  ∧ (∀ server msg pre rest mid post p seg,
        contains success_marker msg = true →
        msg = rest ∨ msg = pre ++ restore_marker ++ rest →
        contains restore_marker rest = false →
        rest = mid ∨ rest = mid ++ success_marker ++ post →
        contains success_marker mid = false →
        strip mid = seg ∨ strip mid = p ++ slash ++ seg →
        contains slash seg = false →
        api.parse_restore_message server msg
        = (deriva_id ← int_of_bytes seg;
           Ok (deriva_id, samples_link server deriva_id)))
  ∧ (∀ msg, ∃ pre rest mid post p seg,
        (msg = rest ∨ msg = pre ++ restore_marker ++ rest)
        ∧ contains restore_marker rest = false
        ∧ (rest = mid ∨ rest = mid ++ success_marker ++ post)
        ∧ contains success_marker mid = false
        ∧ (strip mid = seg ∨ strip mid = p ++ slash ++ seg)
        ∧ contains slash seg = false)
  ∧ api.parse_restore_message
      "demo.derivacloud.org" (b "Restore of catalog 42 completed successfully")
    = Ok (42, "https://demo.derivacloud.org/chaise/recordset/#42/demo:Samples").
Proof.
  split; [|split; [|split]].
  - intros server msg H. unfold api.parse_restore_message.
    fold success_marker. by rewrite H.
  - intros server msg pre rest mid post p seg Hcs Hmsg Hrest Hmid Hnocs Hseg Hnoslash.
    unfold api.parse_restore_message.
    fold success_marker restore_marker slash. rewrite Hcs. simpl.
    rewrite (tail_after_restore_marker _ _ _ Hmsg Hrest). simpl.
    rewrite (text_before_success_marker _ _ _ Hmid Hnocs). simpl.
    rewrite (trailing_segment _ _ _ Hseg Hnoslash). simpl.
    reflexivity.
  - intros msg.
    destruct (last_occurrence restore_marker msg) as (pre & rest & Hmsg & Hrest);
      [done|].
    destruct (first_occurrence success_marker rest) as (mid & post & Hmid & Hnocs);
      [done|].
    destruct (last_occurrence slash (strip mid)) as (p & seg & Hseg & Hnoslash);
      [done|].
    by exists pre, rest, mid, post, p, seg.
  - vm_compute. reflexivity.
Qed.

Lemma parse_restore_message_markers_witness :
  api.parse_restore_message
    "demo.derivacloud.org"
    (b "Restoring... Restore of catalog https://demo.derivacloud.org/ermrest/catalog/42 completed successfully.")
  = Ok (42, "https://demo.derivacloud.org/chaise/recordset/#42/demo:Samples")
  ∧ api.parse_restore_message "demo.derivacloud.org" (b "Restore of catalog failed")
    = Raise (ValueError "DERIVA restore failed: b'Restore of catalog failed'").
Proof.
  destruct parse_restore_message_markers as (Hfail & Hok & _ & _). split.
  - rewrite (Hok "demo.derivacloud.org" _
                 (b "Restoring... ")
                 (b " https://demo.derivacloud.org/ermrest/catalog/42 completed successfully.")
                 (b " https://demo.derivacloud.org/ermrest/catalog/42 ")
                 (b ".")
                 (b "https://demo.derivacloud.org/ermrest/catalog")
                 (b "42"));
      [vm_compute; reflexivity
      |vm_compute; reflexivity
      |right; vm_compute; reflexivity
      |vm_compute; reflexivity
      |right; vm_compute; reflexivity
      |vm_compute; reflexivity
      |right; vm_compute; reflexivity
      |vm_compute; reflexivity].
  - apply Hfail. vm_compute. reflexivity.
Defined.

(** An output in which [Restore of catalog] never occurs, and one in
    which it occurs only after [completed successfully], still yield an
    identifier; and where the marker occurs again after the success
    marker, the identifier is not the text between the two markers. *)
Lemma parse_restore_message_without_marker :
  contains restore_marker (b "42 completed successfully") = false
  ∧ api.parse_restore_message "demo.derivacloud.org" (b "42 completed successfully")
    = Ok (42, "https://demo.derivacloud.org/chaise/recordset/#42/demo:Samples")
  ∧ api.parse_restore_message
      "demo.derivacloud.org" (b "completed successfully. Restore of catalog 7")
    = Ok (7, "https://demo.derivacloud.org/chaise/recordset/#7/demo:Samples")
  ∧ api.parse_restore_message
      "demo.derivacloud.org"
      (b "Restore of catalog 1 completed successfully. Restore of catalog 2")
    = Ok (2, "https://demo.derivacloud.org/chaise/recordset/#2/demo:Samples").
Proof. repeat split; vm_compute; reflexivity. Qed.

End RestoreOutput.

(** ** Invariants the store operations keep *)

Section StoreInvariants.
Import dynamodb utils store_inv.

Lemma put_item_well_keyed d table_name item if_absent :
  service_well_keyed d →
  service_well_keyed (put_item d table_name item if_absent).1.
Proof.
  intros Hd. unfold put_item.
  destruct (put_item_raises (faults d)); [done|].
  destruct (tables d !! table_name) as [tbl|] eqn:Htbl; [|done].
  destruct (Status.action_id item) as [k|] eqn:Hk; [|done].
  destruct (_ && _); [done|]. simpl.
  apply map_Forall_insert_2; [|done].
  apply map_Forall_insert_2; [done|].
  by apply (map_Forall_lookup_1 _ _ _ _ Hd Htbl).
Qed.

Lemma delete_item_well_keyed d table_name action_id :
  service_well_keyed d →
  service_well_keyed (delete_item d table_name action_id).1.
Proof.
  intros Hd. unfold delete_item.
  destruct (delete_item_raises (faults d)); [done|].
  destruct (tables d !! table_name) as [tbl|] eqn:Htbl; [|done]. simpl.
  apply map_Forall_insert_2; [|done].
  apply map_Forall_delete.
  by apply (map_Forall_lookup_1 _ _ _ _ Hd Htbl).
Qed.

Lemma create_action_status_well_keyed oids d table_name action_status :
  service_well_keyed d →
  service_well_keyed (create_action_status oids d table_name action_status).1.
Proof.
  intros Hd. unfold create_action_status.
  destruct (get_dmo_table d table_name); [|done].
  destruct (generate_action_id oids d table_name) as [[action_id|e]|]; [|done..].
  unfold create_action_status_put.
  match goal with
  | |- context [put_item d table_name ?it true] =>
    pose proof (put_item_well_keyed d table_name it true Hd) as Hput;
      destruct (put_item d table_name it true) as [d' [[]|e]]
  end; done.
Qed.

Lemma update_action_status_well_keyed d table_name action_id updates overwrite :
  service_well_keyed d →
  service_well_keyed
    (update_action_status d table_name action_id updates overwrite).1.
Proof.
  intros Hd. unfold update_action_status.
  destruct (read_action_status d table_name action_id) as [old|e]; [|done].
  destruct (get_dmo_table d table_name); [|done].
  match goal with
  | |- context [put_item d table_name ?it false] =>
    pose proof (put_item_well_keyed d table_name it false Hd) as Hput;
      destruct (put_item d table_name it false) as [d' [[]|e]]
  end; done.
Qed.

Lemma delete_action_status_well_keyed d table_name action_id :
  service_well_keyed d →
  service_well_keyed (delete_action_status d table_name action_id).1.
Proof.
  intros Hd. unfold delete_action_status.
  destruct (read_action_status d table_name action_id) as [old|e]; [|done].
  destruct (get_dmo_table d table_name); [|done].
  pose proof (delete_item_well_keyed d table_name action_id Hd) as Hdel.
  destruct (delete_item d table_name action_id) as [d' r]. simpl in Hdel.
  destruct (read_action_status d' table_name action_id) as [?|[]]; done.
Qed.

(** X1. The store functions keep every record under its own
    [action_id]: when that holds of the tables before
    [create_action_status], [update_action_status] (merging or
    overwriting) or [delete_action_status], it holds after, whatever the
    call returned; so a record read by [read_action_status] carries the
    id it was asked for. *)
Theorem store_functions_keep_records_keyed d :
  service_well_keyed d →
  (∀ oids table_name action_status,
      service_well_keyed (create_action_status oids d table_name action_status).1)
  ∧ (∀ table_name action_id updates overwrite,
        service_well_keyed
          (update_action_status d table_name action_id updates overwrite).1)
  ∧ (∀ table_name action_id,
        service_well_keyed (delete_action_status d table_name action_id).1)
  ∧ (∀ table_name action_id entry,
        read_action_status d table_name action_id = Ok entry →
        Status.action_id entry = Some action_id).
Proof.
  intros Hd. repeat split.
  - intros. by apply create_action_status_well_keyed.
  - intros. by apply update_action_status_well_keyed.
  - intros. by apply delete_action_status_well_keyed.
  - intros table_name action_id entry Hread.
    apply read_action_status_ok_inv in Hread as (tbl & Hget & _ & Hentry).
    apply get_dmo_table_ok in Hget as (_ & Htbl & _).
    by apply (map_Forall_lookup_1 _ _ _ _ (map_Forall_lookup_1 _ _ _ _ Hd Htbl) Hentry).
Qed.

End StoreInvariants.

(** ** Creating, updating and deleting records *)

Section StoreOperations.
Import dynamodb utils store_inv.

Lemma read_action_status_lookup d table_name tbl action_id :
  get_dmo_table d table_name = Ok tbl →
  get_item_raises (faults d) = None →
  read_action_status d table_name action_id
  = match items tbl !! action_id with
    | Some entry => Ok entry
    | None => Raise (action_not_found action_id)
    end.
Proof.
  intros Hget Hfault. destruct (items tbl !! action_id) as [entry|] eqn:Hk.
  - by apply (read_action_status_found _ _ _ tbl).
  - by apply (read_action_status_absent _ _ _ tbl).
Qed.

Lemma get_dmo_table_set_items d table_name tbl m :
  get_dmo_table d table_name = Ok tbl →
  get_dmo_table (set_items table_name tbl m d) table_name
  = Ok (mkTable (table_status tbl) m).
Proof.
  intros Hget. apply get_dmo_table_ok in Hget as (Hdesc & Htbl & Hactive).
  apply get_dmo_table_intro; [done| |done].
  unfold set_items. simpl. by rewrite lookup_insert_eq.
Qed.

Lemma generate_action_id_taken_then_fresh d table_name tbl taken fresh more :
  get_dmo_table d table_name = Ok tbl →
  get_item_raises (faults d) = None →
  Forall (λ k, is_Some (items tbl !! k)) taken →
  items tbl !! fresh = None →
  generate_action_id (taken ++ fresh :: more) d table_name = Some (Ok fresh).
Proof.
  intros Hget Hfault Htaken Hfresh.
  induction Htaken as [|k taken [v Hk] _ IH]; simpl.
  - by apply (generate_action_id_first_fresh _ _ tbl).
  - destruct (taken ++ fresh :: more) as [|next rest] eqn:E.
    + by destruct taken.
    + simpl. rewrite (read_action_status_found _ _ _ _ _ Hget Hfault Hk).
      exact IH.
Qed.

Lemma generate_action_id_all_taken d table_name tbl oids :
  get_dmo_table d table_name = Ok tbl →
  get_item_raises (faults d) = None →
  Forall (λ k, is_Some (items tbl !! k)) oids →
  generate_action_id oids d table_name = None.
Proof.
  intros Hget Hfault Htaken.
  induction Htaken as [|k taken [v Hk] _ IH]; [done|]. simpl.
  destruct taken as [|next rest]; simpl;
    rewrite (read_action_status_found _ _ _ _ _ Hget Hfault Hk); [done|].
  exact IH.
Qed.

(** X2. [generate_action_id] returns the first of the identifiers it
    draws that is not in the table, passing over those that are; while
    every identifier drawn is taken the loop goes on; and when the table
    is missing or inactive, the [NotFound] of the probe counts as "free",
    so the first identifier drawn is returned unprobed. *)
Theorem generate_action_id_first_free :
  (∀ d table_name tbl taken fresh more,
      get_dmo_table d table_name = Ok tbl →
      get_item_raises (faults d) = None →
      Forall (λ k, is_Some (items tbl !! k)) taken →
      items tbl !! fresh = None →
      generate_action_id (taken ++ fresh :: more) d table_name = Some (Ok fresh))
  ∧ (∀ d table_name tbl oids,
        get_dmo_table d table_name = Ok tbl →
        get_item_raises (faults d) = None →
        Forall (λ k, is_Some (items tbl !! k)) oids →
        generate_action_id oids d table_name = None)
  ∧ (∀ d table_name msg candidate more,
        get_dmo_table d table_name = Raise (NotFound msg) →
        generate_action_id (candidate :: more) d table_name = Some (Ok candidate)).
Proof.
  split; [|split].
  - apply generate_action_id_taken_then_fresh.
  - apply generate_action_id_all_taken.
  - intros d table_name msg candidate more Hget. simpl.
    destruct more; simpl; unfold read_action_status; by rewrite Hget.
Qed.




(** X5. [update_action_status] needs the record: on an id that is not in
    the table it raises [NotFound] and writes nothing, merging or
    overwriting.  Overwriting writes the patch as it is, under the
    patch's own [action_id]: a patch without one is refused by the store
    ([ServiceError], nothing written), and a patch that names another id
    is stored under that id while the record asked for stays as it
    was. *)
Theorem update_action_status_edges d table_name tbl action_id updates :
  get_dmo_table d table_name = Ok tbl →
  get_item_raises (faults d) = None →
  put_item_raises (faults d) = None →
  (∀ overwrite,
      items tbl !! action_id = None →
      update_action_status d table_name action_id updates overwrite
      = (d, Raise (action_not_found action_id)))
  ∧ (is_Some (items tbl !! action_id) →
     Status.action_id updates = None →
     update_action_status d table_name action_id updates true
     = (d, Raise (ServiceError "ValidationException")))
  ∧ (∀ other,
        is_Some (items tbl !! action_id) →
        Status.action_id updates = Some other →
        other ≠ action_id →
        ∃ d',
          update_action_status d table_name action_id updates true = (d', Ok updates)
          ∧ read_action_status d' table_name other = Ok (stored_item updates)
          ∧ read_action_status d' table_name action_id
            = read_action_status d table_name action_id).
Proof.
  intros Hget Hgetf Hputf.
  pose proof (get_dmo_table_ok _ _ _ Hget) as (_ & Htbl & _).
  split; [|split].
  - intros overwrite Hnone. unfold update_action_status.
    by rewrite (read_action_status_absent _ _ _ _ Hget Hgetf Hnone).
  - intros [old Hold] Hupd. unfold update_action_status.
    rewrite (read_action_status_found _ _ _ _ _ Hget Hgetf Hold), Hget.
    unfold put_item. by rewrite Hputf, Htbl, Hupd.
  - intros other [old Hold] Hupd Hne. unfold update_action_status.
    rewrite (read_action_status_found _ _ _ _ _ Hget Hgetf Hold), Hget.
    unfold put_item. rewrite Hputf, Htbl, Hupd. simpl.
    eexists. split; [done|]. split.
    + by apply read_action_status_after_put.
    + rewrite (read_action_status_lookup _ _ _ _ (get_dmo_table_set_items _ _ _ _ Hget))
        by done.
      simpl. by rewrite lookup_insert_ne, Hold.
Qed.

(** X6. On a healthy table [delete_action_status] removes an existing
    record: afterwards reading its id raises [NotFound] and every other
    id reads as before.  On an id that is not in the table it raises
    [NotFound] and changes nothing. *)
Theorem delete_action_status_removes d table_name tbl action_id :
  get_dmo_table d table_name = Ok tbl →
  get_item_raises (faults d) = None →
  delete_item_raises (faults d) = None →
  (is_Some (items tbl !! action_id) →
   ∃ d',
     delete_action_status d table_name action_id = (d', Ok ())
     ∧ read_action_status d' table_name action_id
       = Raise (action_not_found action_id)
     ∧ (∀ k, k ≠ action_id →
             read_action_status d' table_name k = read_action_status d table_name k))
  ∧ (items tbl !! action_id = None →
     delete_action_status d table_name action_id
     = (d, Raise (action_not_found action_id))).
Proof.
  intros Hget Hgetf Hdelf.
  pose proof (get_dmo_table_ok _ _ _ Hget) as (_ & Htbl & _).
  split.
  - intros [old Hold]. unfold delete_action_status.
    rewrite (read_action_status_found _ _ _ _ _ Hget Hgetf Hold), Hget.
    unfold delete_item. rewrite Hdelf, Htbl.
    assert (Hread : ∀ k,
               read_action_status
                 (set_items table_name tbl (delete action_id (items tbl)) d)
                 table_name k
               = match delete action_id (items tbl) !! k with
                 | Some entry => Ok entry
                 | None => Raise (action_not_found k)
                 end).
    { intros k.
      by rewrite (read_action_status_lookup _ _ _ _ (get_dmo_table_set_items _ _ _ _ Hget)). }
    rewrite Hread, lookup_delete_eq. eexists. split; [done|]. split.
    + by rewrite Hread, lookup_delete_eq.
    + intros k Hk. rewrite Hread, lookup_delete_ne by done.
      by rewrite (read_action_status_lookup _ _ _ _ Hget).
  - intros Hnone. unfold delete_action_status.
    by rewrite (read_action_status_absent _ _ _ _ Hget Hgetf Hnone).
Qed.

End StoreOperations.

Section StoreOperationsWitnesses.
Import dynamodb utils store_inv Samples.

Lemma store_functions_keep_records_keyed_witness :
  service_well_keyed (create_action_status ["a1"; "n1"] (service [a1; a2] 0) "actions" a3).1
  ∧ service_well_keyed
      (update_action_status (service [a1; a2] 0) "actions" "a1" a3 true).1
  ∧ service_well_keyed (delete_action_status (service [a1; a2] 0) "actions" "a2").1
  ∧ Status.action_id a1 = Some "a1".
Proof.
  assert (Hd : service_well_keyed (service [a1; a2] 0)).
  { unfold service_well_keyed, well_keyed.
    apply (bool_decide_unpack _). vm_compute. exact I. }
  destruct (store_functions_keep_records_keyed _ Hd) as (Hc & Hu & Hdel & Hr).
  split; [apply Hc|]. split; [apply Hu|]. split; [apply Hdel|].
  apply (Hr "actions" "a1"). vm_compute. reflexivity.
Defined.

Lemma generate_action_id_first_free_witness :
  generate_action_id ["a2"; "a1"; "n1"; "n2"] (service [a1; a2] 0) "actions"
  = Some (Ok "n1")
  ∧ generate_action_id ["a2"; "a1"] (service [a1; a2] 0) "actions" = None
  ∧ generate_action_id ["a1"; "n1"] (service [a1; a2] 0) "missing" = Some (Ok "a1").
Proof.
  destruct generate_action_id_first_free as (Hfree & Htaken & Hmissing).
  pose (tbl := mkTable "ACTIVE" (list_to_map [("a1", a1); ("a2", a2)])).
  split; [|split].
  - apply (Hfree (service [a1; a2] 0) "actions" tbl ["a2"; "a1"] "n1" ["n2"]);
      [vm_compute; reflexivity | reflexivity
       | apply (bool_decide_unpack _); vm_compute; exact I
       | vm_compute; reflexivity].
  - apply (Htaken (service [a1; a2] 0) "actions" tbl ["a2"; "a1"]);
      [vm_compute; reflexivity | reflexivity
       | apply (bool_decide_unpack _); vm_compute; exact I].
  - apply (Hmissing (service [a1; a2] 0) "missing"
                    "Table does not exist or is not active").
    vm_compute. reflexivity.
Defined.



Lemma update_action_status_edges_witness :
  update_action_status (service [a1] 0) "actions" "zz" (api.error_status "boom") false
  = (service [a1] 0, Raise (action_not_found "zz"))
  ∧ update_action_status (service [a1] 0) "actions" "a1" (api.error_status "boom") true
    = (service [a1] 0, Raise (ServiceError "ValidationException"))
  ∧ ∃ d',
      update_action_status (service [a1] 0) "actions" "a1" a2 true = (d', Ok a2)
      ∧ read_action_status d' "actions" "a2" = Ok (stored_item a2)
      ∧ read_action_status d' "actions" "a1"
        = read_action_status (service [a1] 0) "actions" "a1".
Proof.
  pose (tbl := mkTable "ACTIVE" (list_to_map [("a1", a1)])).
  split; [|split].
  - apply (proj1 (update_action_status_edges
                    (service [a1] 0) "actions" tbl "zz" (api.error_status "boom")
                    ltac:(vm_compute; reflexivity) eq_refl eq_refl)).
    vm_compute. reflexivity.
  - apply (proj1 (proj2 (update_action_status_edges
                           (service [a1] 0) "actions" tbl "a1" (api.error_status "boom")
                           ltac:(vm_compute; reflexivity) eq_refl eq_refl)));
      [vm_compute; eauto | reflexivity].
  - apply (proj2 (proj2 (update_action_status_edges
                           (service [a1] 0) "actions" tbl "a1" a2
                           ltac:(vm_compute; reflexivity) eq_refl eq_refl)) "a2");
      [vm_compute; eauto | reflexivity | discriminate].
Defined.

Lemma delete_action_status_removes_witness :
  (∃ d',
      delete_action_status (service [a1; a2] 0) "actions" "a1" = (d', Ok ())
      ∧ read_action_status d' "actions" "a1" = Raise (action_not_found "a1")
      ∧ read_action_status d' "actions" "a2" = Ok a2)
  ∧ delete_action_status (service [a1; a2] 0) "actions" "zz"
    = (service [a1; a2] 0, Raise (action_not_found "zz")).
Proof.
  pose (tbl := mkTable "ACTIVE" (list_to_map [("a1", a1); ("a2", a2)])).
  split.
  - destruct (proj1 (delete_action_status_removes
                       (service [a1; a2] 0) "actions" tbl "a1"
                       ltac:(vm_compute; reflexivity) eq_refl eq_refl))
      as (d' & Hdel & Hgone & Hother); [vm_compute; eauto|].
    exists d'. split; [exact Hdel|]. split; [exact Hgone|].
    rewrite (Hother "a2") by discriminate. vm_compute. reflexivity.
  - apply (proj2 (delete_action_status_removes
                    (service [a1; a2] 0) "actions" tbl "zz"
                    ltac:(vm_compute; reflexivity) eq_refl eq_refl)).
    vm_compute. reflexivity.
Defined.

End StoreOperationsWitnesses.

(** ** The routes on an existing action *)

Section RoutesOnExisting.
Import dynamodb utils store_inv auth_spec.

Lemma delete_action_status_existing d table_name tbl action_id old :
  get_dmo_table d table_name = Ok tbl →
  get_item_raises (faults d) = None →
  delete_item_raises (faults d) = None →
  items tbl !! action_id = Some old →
  delete_action_status d table_name action_id
  = (set_items table_name tbl (delete action_id (items tbl)) d, Ok ()).
Proof.
  intros Hget Hgetf Hdelf Hold.
  pose proof (get_dmo_table_ok _ _ _ Hget) as (_ & Htbl & _).
  unfold delete_action_status.
  rewrite (read_action_status_found _ _ _ _ _ Hget Hgetf Hold), Hget.
  unfold delete_item. rewrite Hdelf, Htbl.
  rewrite (read_action_status_lookup _ _ _ _ (get_dmo_table_set_items _ _ _ _ Hget))
    by done.
  simpl. by rewrite lookup_delete_eq.
Qed.

Lemma translate_status_fields st clean :
  translate_status st = Ok clean →
  Status.action_id clean = Status.action_id st
  ∧ Status.request_id clean = Status.request_id st
  ∧ Status.status clean = Status.status st
  ∧ Status.manage_by clean = Status.manage_by st
  ∧ Status.monitor_by clean = Status.monitor_by st
  ∧ Status.creator_id clean = Status.creator_id st
  ∧ Status.release_after clean = Status.release_after st
  ∧ Status.label clean = Status.label st.
Proof.
  unfold translate_status.
  destruct (Status.details st) as [det|]; [|by intros [= <-]].
  destruct (Details.deriva_id det) as [v|]; [|by intros [= <-]].
  destruct (truthy v); [|by intros [= <-]].
  destruct (py_int v) as [z|e]; simpl; [|discriminate].
  by intros [= <-].
Qed.

(** X7. Translating a status twice is translating it once, and
    translation changes nothing but [details.deriva_id]: the ids, the
    status, the principals and the other details are those of the raw
    status, and a truthy identifier comes out as a plain integer. *)
Theorem translate_status_idempotent st clean :
  translate_status st = Ok clean →
  translate_status clean = Ok clean
  ∧ Status.action_id clean = Status.action_id st
  ∧ Status.request_id clean = Status.request_id st
  ∧ Status.status clean = Status.status st
  ∧ Status.manage_by clean = Status.manage_by st
  ∧ Status.monitor_by clean = Status.monitor_by st
  ∧ (∀ det, Status.details st = Some det →
       ∃ det', Status.details clean = Some det'
               ∧ Details.message det' = Details.message det
               ∧ Details.error det' = Details.error det
               ∧ Details.deriva_link det' = Details.deriva_link det
               ∧ Details.deriva_samples_link det' = Details.deriva_samples_link det
               ∧ (∀ v, Details.deriva_id det = Some v → truthy v = true →
                       ∃ z, py_int v = Ok z
                            ∧ Details.deriva_id det' = Some (PyInt z))).
Proof.
  intros Htr.
  pose proof (translate_status_fields _ _ Htr) as (Ha & Hr & Hs & Hm & Hmo & _).
  split; [|repeat split; try done].
  - revert Htr. unfold translate_status.
    destruct (Status.details st) as [det|] eqn:Hdet;
      [|intros [= <-]; by rewrite Hdet].
    destruct (Details.deriva_id det) as [v|] eqn:Hv;
      [|intros [= <-]; by rewrite Hdet, Hv].
    destruct (truthy v) eqn:Ht; [|intros [= <-]; by rewrite Hdet, Hv, Ht].
    destruct (py_int v) as [z|e]; simpl; [|discriminate].
    intros [= <-]. simpl. by destruct (z =? 0).
  - intros det Hdet. revert Htr. unfold translate_status. rewrite Hdet.
    destruct (Details.deriva_id det) as [v|] eqn:Hv.
    + destruct (truthy v) eqn:Ht.
      * destruct (py_int v) as [z|e] eqn:Hz; simpl; [|discriminate].
        intros [= <-]. eexists. split; [done|]. repeat split.
        intros v' [= <-] _. by exists z.
      * intros [= <-]. exists det. rewrite Hdet. repeat split.
        intros v' Hv' Ht'. congruence.
    + intros [= <-]. exists det. rewrite Hdet. repeat split.
      intros v' Hv'. congruence.
Qed.

(** X8. [release] by a caller who meets [manage_by]: an action whose
    status is ACTIVE or INACTIVE is refused with [InvalidState] and
    stays; an action of any other status is deleted from a healthy
    store, the translated status it had is returned, reading its id then
    raises [NotFound], the other records and the processes are as they
    were. *)
Theorem release_state_machine env auth action_id w st manage_by clean s :
  read_action_status (dynamo w) (TBL env) action_id = Ok st →
  Status.manage_by st = Some manage_by →
  ¬ disjoint_from auth manage_by →
  translate_status st = Ok clean →
  Status.status st = Some s →
  (s = "ACTIVE" ∨ s = "INACTIVE" →
   api.release env auth action_id w
   = (w, Raise (InvalidState ("Action " +:+ action_id
                              +:+ " not completed and cannot be released"))))
  ∧ (s ≠ "ACTIVE" → s ≠ "INACTIVE" →
     delete_item_raises (faults (dynamo w)) = None →
     ∃ w',
       api.release env auth action_id w = (w', Ok clean)
       ∧ read_action_status (dynamo w') (TBL env) action_id
         = Raise (action_not_found action_id)
       ∧ (∀ k, k ≠ action_id →
               read_action_status (dynamo w') (TBL env) k
               = read_action_status (dynamo w) (TBL env) k)
       ∧ processes w' = processes w).
Proof.
  intros Hread Hman Hmeet Htr Hs.
  pose proof (translate_status_fields _ _ Htr) as (_ & _ & Hs' & _).
  rewrite Hs in Hs'.
  unfold api.release. rewrite Hread, Hman. simpl.
  rewrite (check_authorization_meets _ _ Hmeet), Htr, Hs'. simpl. split.
  - intros [-> | ->]; reflexivity.
  - intros Hna Hni Hdelf.
    apply String.eqb_neq in Hna, Hni. rewrite Hna, Hni. simpl.
    apply read_action_status_ok_inv in Hread as (tbl & Hget & Hgetf & Hold).
    rewrite (delete_action_status_existing _ _ _ _ _ Hget Hgetf Hdelf Hold).
    eexists. split; [done|]. simpl.
    assert (Hrd : ∀ k,
               read_action_status
                 (set_items (TBL env) tbl (delete action_id (items tbl)) (dynamo w))
                 (TBL env) k
               = match delete action_id (items tbl) !! k with
                 | Some entry => Ok entry
                 | None => Raise (action_not_found k)
                 end).
    { intros k.
      by rewrite (read_action_status_lookup _ _ _ _ (get_dmo_table_set_items _ _ _ _ Hget)). }
    split; [by rewrite Hrd, lookup_delete_eq|]. split; [|done].
    intros k Hk. rewrite Hrd, lookup_delete_ne by done.
    by rewrite (read_action_status_lookup _ _ _ _ Hget).
Qed.

(** X9. [cancel] never changes anything.  For a caller who meets
    [manage_by] it refuses an action whose status is SUCCEEDED or FAILED
    with [InvalidState], and for an action of any other status it
    returns the translated status, unchanged. *)
Theorem cancel_is_a_checked_read env auth action_id w :
  (api.cancel env auth action_id w).1 = w
  ∧ (∀ st manage_by clean s,
        read_action_status (dynamo w) (TBL env) action_id = Ok st →
        Status.manage_by st = Some manage_by →
        ¬ disjoint_from auth manage_by →
        translate_status st = Ok clean →
        Status.status st = Some s →
        (s = "SUCCEEDED" ∨ s = "FAILED" →
         api.cancel env auth action_id w
         = (w, Raise (InvalidState ("Action " +:+ action_id +:+ " already completed"))))
        ∧ (s ≠ "SUCCEEDED" → s ≠ "FAILED" →
           api.cancel env auth action_id w = (w, Ok clean))).
Proof.
  split.
  - unfold api.cancel, api.cancel_action.
    repeat (case_match; simpl; try done).
  - intros st manage_by clean s Hread Hman Hmeet Htr Hs.
    pose proof (translate_status_fields _ _ Htr) as (_ & _ & Hs' & _).
    rewrite Hs in Hs'.
    unfold api.cancel, api.cancel_action. rewrite Hread, Hman. simpl.
    rewrite (check_authorization_meets _ _ Hmeet), Htr. simpl.
    rewrite Hs'. simpl. split.
    + intros [-> | ->]; reflexivity.
    + intros Hns Hnf. apply String.eqb_neq in Hns, Hnf.
      by rewrite Hns, Hnf.
Qed.

End RoutesOnExisting.

Section RoutesOnExistingWitnesses.
Import dynamodb utils store_inv auth_spec Samples MoreSamples.

Lemma translate_status_idempotent_witness :
  translate_status a4 = Ok a4_clean ∧ translate_status a4_clean = Ok a4_clean.
Proof.
  split; [reflexivity|].
  apply (proj1 (translate_status_idempotent a4 a4_clean eq_refl)).
Defined.

Lemma release_state_machine_witness :
  api.release (env "" []) alice "a1" (world (service [a1; a4] 0))
  = (world (service [a1; a4] 0),
     Raise (InvalidState "Action a1 not completed and cannot be released"))
  ∧ ∃ w',
      api.release (env "" []) alice "a4" (world (service [a1; a4] 0))
      = (w', Ok a4_clean)
      ∧ read_action_status (dynamo w') "actions" "a4" = Raise (action_not_found "a4")
      ∧ read_action_status (dynamo w') "actions" "a1" = Ok a1.
Proof.
  split.
  - apply (proj1 (release_state_machine
                    (env "" []) alice "a1" (world (service [a1; a4] 0))
                    a1 ["alice"] a1 "ACTIVE"
                    ltac:(vm_compute; reflexivity) eq_refl
                    ltac:(apply (bool_decide_unpack _); vm_compute; exact I)
                    eq_refl eq_refl)).
    by left.
  - destruct (proj2 (release_state_machine
                       (env "" []) alice "a4" (world (service [a1; a4] 0))
                       a4 ["alice"] a4_clean "SUCCEEDED"
                       ltac:(vm_compute; reflexivity) eq_refl
                       ltac:(apply (bool_decide_unpack _); vm_compute; exact I)
                       eq_refl eq_refl))
      as (w' & Hrel & Hgone & Hother & _); [discriminate|discriminate|reflexivity|].
    exists w'. split; [exact Hrel|]. split; [exact Hgone|].
    etransitivity; [exact (Hother "a1" ltac:(discriminate))|].
    vm_compute. reflexivity.
Defined.

Lemma cancel_is_a_checked_read_witness :
  api.cancel (env "" []) alice "a4" (world (service [a1; a4] 0))
  = (world (service [a1; a4] 0), Raise (InvalidState "Action a4 already completed"))
  ∧ api.cancel (env "" []) alice "a1" (world (service [a1; a4] 0))
    = (world (service [a1; a4] 0), Ok a1).
Proof.
  split.
  - apply (proj1 (proj2 (cancel_is_a_checked_read
                           (env "" []) alice "a4" (world (service [a1; a4] 0)))
                        a4 ["alice"] a4_clean "SUCCEEDED"
                        ltac:(vm_compute; reflexivity) eq_refl
                        ltac:(apply (bool_decide_unpack _); vm_compute; exact I)
                        eq_refl eq_refl)).
    by left.
  - apply (proj2 (proj2 (cancel_is_a_checked_read
                           (env "" []) alice "a1" (world (service [a1; a4] 0)))
                        a1 ["alice"] a1 "ACTIVE"
                        ltac:(vm_compute; reflexivity) eq_refl
                        ltac:(apply (bool_decide_unpack _); vm_compute; exact I)
                        eq_refl eq_refl));
      discriminate.
Defined.

End RoutesOnExistingWitnesses.

(** ** A submission's effect on the store *)

Section SubmissionEffects.
Import dynamodb utils store_spec store_inv process_spec.

Lemma generate_action_id_loop_member d table_name candidate more action_id :
  generate_action_id_loop d table_name candidate more = Some (Ok action_id) →
  action_id ∈ candidate :: more.
Proof.
  revert candidate. induction more as [|next more IH]; intros candidate; simpl.
  - destruct (read_action_status d table_name candidate) as [?|[]];
      try discriminate. intros [= <-]. left.
  - destruct (read_action_status d table_name candidate) as [?|[]];
      try discriminate.
    + intros H. right. by apply IH.
    + intros [= <-]. left.
Qed.

Lemma generate_action_id_ok_inv oids d table_name action_id tbl :
  generate_action_id oids d table_name = Some (Ok action_id) →
  get_dmo_table d table_name = Ok tbl →
  get_item_raises (faults d) = None
  ∧ items tbl !! action_id = None
  ∧ action_id ∈ oids.
Proof.
  intros Hgen Hget. destruct oids as [|candidate more]; [discriminate|].
  simpl in Hgen.
  pose proof (generate_action_id_loop_member _ _ _ _ _ Hgen) as Hin.
  apply generate_action_id_loop_fresh in Hgen as [msg Hread].
  unfold read_action_status in Hread. rewrite Hget in Hread. simpl in Hread.
  apply get_dmo_table_ok in Hget as (_ & Htbl & _).
  unfold get_item in Hread. rewrite Htbl in Hread.
  destruct (get_item_raises (faults d)); [discriminate|].
  by destruct (items tbl !! action_id).
Qed.

Lemma new_job_shape env auth req job :
  api.new_job env auth req = Ok job →
  ∃ release_after,
    job = Status.mk None
                    (Some (Request.request_id req))
                    (Some "ACTIVE")
                    (Some (principals_or_caller auth (Request.manage_by req)))
                    (Some (principals_or_caller auth (Request.monitor_by req)))
                    (Some (Auth.effective_identity auth))
                    (Some (duration_isoformat env release_after))
                    (Request.label req)
                    None
    ∧ (Request.release_after req = None → release_after = api.days 30)
    ∧ (∀ iso, Request.release_after req = Some iso →
              parse_duration env iso = Ok release_after).
Proof.
  unfold api.new_job.
  destruct (match Request.release_after req with
            | Some iso => parse_duration env iso
            | None => Ok (api.days 30)
            end) as [release_after|e] eqn:Hra; simpl; [|discriminate].
  destruct (match Request.deadline req with
            | Some iso => _
            | None => Ok ()
            end) as [[]|e]; simpl; [|discriminate].
  intros [= <-]. exists release_after. split.
  - f_equal; f_equal; by destruct (Request.manage_by req) as [[]|],
                              (Request.monitor_by req) as [[]|].
  - split.
    + intros Hnone. rewrite Hnone in Hra. by injection Hra.
    + intros iso Hsome. by rewrite Hsome in Hra.
Qed.

Lemma start_action_effect env action_id action_data w w' r :
  api.start_action env action_id action_data w = (w', r) →
  match r with
  | Ok _ => ∃ p, w' = spawn p w ∧ driver_action_id p = action_id
  | Raise _ => w' = w
  end.
Proof.
  unfold api.start_action. intros H.
  repeat (case_match; simplify_eq; simpl; try done); eauto.
Qed.

(** What [run_create] leaves in the store, whatever it returns: nothing,
    or one new item under a free id, carrying the request id. *)
Lemma run_create_dynamo env oids auth req w w1 r tbl :
  get_dmo_table (dynamo w) (TBL env) = Ok tbl →
  api.run_create env oids auth req w = (w1, r) →
  dynamo w1 = dynamo w
  ∨ ∃ action_id item,
      items tbl !! action_id = None
      ∧ Status.request_id item = Some (Request.request_id req)
      ∧ dynamo w1
        = set_items (TBL env) tbl (<[action_id := item]> (items tbl)) (dynamo w).
Proof.
  intros Hget. unfold api.run_create.
  destruct (api.new_job env auth req) as [job|e] eqn:Hjob;
    [|intros [= <- _]; by left].
  apply new_job_ok in Hjob as (Hjid & Hjrid & Hjdet).
  unfold create_action_status. rewrite Hget.
  destruct (generate_action_id oids (dynamo w) (TBL env)) as [[action_id|e]|] eqn:Hgen;
    [|intros [= <- _]; by left..].
  pose proof (generate_action_id_fresh _ _ _ _ _ Hgen Hget) as Hfresh.
  pose proof (get_dmo_table_ok _ _ _ Hget) as (_ & Htbl & _).
  unfold create_action_status_put, put_item.
  destruct job as [jid jrid jst jman jmon jcre jrel jlab jdet]. simpl in *. subst.
  simpl. rewrite Htbl.
  destruct (put_item_raises (faults (dynamo w))); [intros [= <- _]; by left|].
  rewrite Hfresh. simpl.
  destruct (api.start_action _ _ _ _) as [w' r'] eqn:Hstart.
  pose proof (start_action_dynamo _ _ _ _ _ _ Hstart) as Hdyn. simpl in Hdyn.
  intros Hres. right. eexists action_id, _. split; [done|].
  assert (w1 = w') as -> by (destruct r'; by injection Hres).
  rewrite Hdyn. split; [|reflexivity]. done.
Qed.

Lemma request_ids_insert_fresh (tbl : Table) (k : string) (v : Status.t) st request_id :
  items tbl !! k = None →
  Status.request_id v = Some request_id →
  request_ids (mkTable st (<[k := v]> (items tbl))) ≡ₚ request_id :: request_ids tbl.
Proof.
  intros Hk Hv. unfold request_ids.
  rewrite (scan_order_insert_fresh _ _ _ _ Hk). simpl. by rewrite Hv.
Qed.

Lemma matching_nil_not_in tbl request_id :
  matching tbl request_id = [] → request_id ∉ request_ids tbl.
Proof.
  intros Hnil Hin. unfold request_ids in Hin.
  apply list_elem_of_omap in Hin as (it & Hit & Hrid).
  assert (Hm : it ∈ matching tbl request_id)
    by (unfold matching; by apply list_elem_of_filter).
  rewrite Hnil in Hm. by apply not_elem_of_nil in Hm.
Qed.

(** X10. Submissions made one after the other keep request ids unique:
    if no two records of the active table carry the same request id
    before [run] (whose lookup scans succeed and get enough turns), none
    do after it, whatever [run] returned. *)
Theorem run_keeps_request_ids_unique env fuel oids auth req w w1 r tbl :
  get_dmo_table (dynamo w) (TBL env) = Ok tbl →
  scan_status_code (faults (dynamo w)) < 300 →
  (length (scan_order tbl) < fuel)%nat →
  unique_requests tbl →
  api.run env fuel oids auth req w = (w1, r) →
  ∃ tbl1,
    get_dmo_table (dynamo w1) (TBL env) = Ok tbl1
    ∧ unique_requests tbl1.
Proof.
  intros Hget Hcode Hfuel Huniq. unfold api.run.
  destruct (api.validate_body env (Request.body req)) as [[]|e];
    [|intros [= <- _]; by exists tbl].
  rewrite (read_action_by_request_matching _ _ _ _ _ Hget Hcode Hfuel).
  destruct (matching tbl (Request.request_id req)) as [|st [|? ?]] eqn:Hmatch;
    [|intros [= <- _]; by exists tbl..].
  intros Hrun.
  destruct (run_create_dynamo _ _ _ _ _ _ _ _ Hget Hrun)
    as [Hsame|(action_id & item & Hfresh & Hrid & Hdyn)].
  - exists tbl. by rewrite Hsame.
  - eexists. rewrite Hdyn. split; [by apply get_dmo_table_set_items|].
    unfold unique_requests.
    rewrite (request_ids_insert_fresh _ _ _ _ _ Hfresh Hrid).
    apply NoDup_cons. split; [by apply matching_nil_not_in|done].
Qed.

End SubmissionEffects.

Section NewSubmissions.
Import dynamodb utils store_spec store_inv process_spec auth_spec.

(** X11. A submission that finds no record of its request id and returns
    a status has created exactly that status: ACTIVE, with the request
    id, the caller as creator, [manage_by] and [monitor_by] the
    request's (a single principal becoming a one-element list) or else
    the caller's identities, the message "Action started", and an
    [action_id] that was drawn from the generator and was free.  The
    response is 202, the status is in the store under that id, and
    exactly one driver process, for that id, has been started. *)
Theorem run_new_request env fuel oids auth req w w1 resp tbl :
  get_dmo_table (dynamo w) (TBL env) = Ok tbl →
  scan_status_code (faults (dynamo w)) < 300 →
  (length (scan_order tbl) < fuel)%nat →
  matching tbl (Request.request_id req) = [] →
  api.run env fuel oids auth req w = (w1, Some (Ok resp)) →
  Response.status_code resp = 202
  ∧ Status.status (Response.json resp) = Some "ACTIVE"
  ∧ Status.request_id (Response.json resp) = Some (Request.request_id req)
  ∧ Status.creator_id (Response.json resp) = Some (Auth.effective_identity auth)
  ∧ Status.manage_by (Response.json resp)
    = Some (principals_or_caller auth (Request.manage_by req))
  ∧ Status.monitor_by (Response.json resp)
    = Some (principals_or_caller auth (Request.monitor_by req))
  ∧ Status.details (Response.json resp)
    = Some (Details.mk (Some "Action started") None None None None)
  ∧ ∃ action_id p,
      Status.action_id (Response.json resp) = Some action_id
      ∧ action_id ∈ oids
      ∧ items tbl !! action_id = None
      ∧ read_action_status (dynamo w1) (TBL env) action_id = Ok (Response.json resp)
      ∧ processes w1 = processes w ++ [p]
      ∧ driver_action_id p = action_id.
Proof.
  intros Hget Hcode Hfuel Hmatch. unfold api.run.
  destruct (api.validate_body env (Request.body req)) as [[]|e]; [|discriminate].
  rewrite (read_action_by_request_matching _ _ _ _ _ Hget Hcode Hfuel), Hmatch.
  unfold request_not_found, api.run_create.
  destruct (api.new_job env auth req) as [job|e] eqn:Hjob; [|discriminate].
  apply new_job_shape in Hjob as (release_after & -> & _).
  unfold create_action_status. rewrite Hget.
  destruct (generate_action_id oids (dynamo w) (TBL env)) as [[action_id|e]|] eqn:Hgen;
    [|discriminate..].
  pose proof (generate_action_id_ok_inv _ _ _ _ _ Hgen Hget) as (Hgetf & Hfresh & Hin).
  pose proof (get_dmo_table_ok _ _ _ Hget) as (_ & Htbl & _).
  unfold create_action_status_put, put_item. simpl. rewrite Htbl.
  destruct (put_item_raises (faults (dynamo w))); [discriminate|].
  rewrite Hfresh. simpl.
  destruct (api.start_action _ _ _ _) as [w' [[]|e]] eqn:Hstart; [|discriminate].
  intros [= <- <-]. simpl.
  pose proof (start_action_dynamo _ _ _ _ _ _ Hstart) as Hdyn. simpl in Hdyn.
  apply start_action_effect in Hstart as (p & -> & Hp).
  repeat split. exists action_id, p. repeat split; try done.
  rewrite Hdyn. by apply read_action_status_after_put.
Qed.

(** X12. A new submission whose deadline lies before the estimated
    completion, one day from now, is refused with [InvalidRequest] and
    leaves the world as it was; the deadline is looked at only after the
    lookup of the request id has found nothing. *)
Theorem run_deadline_too_early env fuel oids auth req w msg iso deadline :
  api.validate_body env (Request.body req) = Ok () →
  read_action_by_request fuel (dynamo w) (TBL env) (Request.request_id req)
  = Some (Raise (NotFound msg)) →
  (∀ text, Request.release_after req = Some text →
           is_ok (parse_duration env text) = true) →
  Request.deadline req = Some iso →
  parse_datetime env iso = Ok deadline →
  deadline < now env + 86400 →
  api.run env fuel oids auth req w
  = (w, Some (Raise (InvalidRequest
                       ("Processing likely to exceed deadline of " +:+ iso)))).
Proof.
  intros Hvalid Hread Hra Hdl Hparse Hlt.
  unfold api.run. rewrite Hvalid, Hread.
  unfold api.run_create, api.new_job. rewrite Hdl, Hparse. simpl.
  assert (Hcmp : (deadline <? now env + api.days 1) = true)
    by (apply Z.ltb_lt; unfold api.days; lia).
  rewrite Hcmp.
  destruct (Request.release_after req) as [text|]; [|done].
  specialize (Hra text eq_refl).
  by destruct (parse_duration env text).
Qed.

(** X13. When starting the action fails, the record that [run] has just
    created stays: the caller gets the error of [start_action], no
    process has been started, and the store holds an ACTIVE status for
    the request id, under the id that was drawn. *)
Theorem run_start_failure_leaves_record env fuel auth req w tbl fresh more job e :
  get_dmo_table (dynamo w) (TBL env) = Ok tbl →
  scan_status_code (faults (dynamo w)) < 300 →
  (length (scan_order tbl) < fuel)%nat →
  matching tbl (Request.request_id req) = [] →
  get_item_raises (faults (dynamo w)) = None →
  put_item_raises (faults (dynamo w)) = None →
  api.validate_body env (Request.body req) = Ok () →
  api.new_job env auth req = Ok job →
  items tbl !! fresh = None →
  (∀ w0, api.start_action env fresh (Request.body req) w0 = (w0, Raise e)) →
  ∃ w1 created,
    api.run env fuel (fresh :: more) auth req w = (w1, Some (Raise e))
    ∧ processes w1 = processes w
    ∧ read_action_status (dynamo w1) (TBL env) fresh = Ok created
    ∧ Status.status created = Some "ACTIVE"
    ∧ Status.request_id created = Some (Request.request_id req)
    ∧ matching (mkTable (table_status tbl) (<[fresh := created]> (items tbl)))
               (Request.request_id req)
      = [created].
Proof.
  intros Hget Hcode Hfuel Hmatch Hgetf Hputf Hvalid Hjob Hfresh Hstart.
  unfold api.run. rewrite Hvalid.
  rewrite (read_action_by_request_matching _ _ _ _ _ Hget Hcode Hfuel), Hmatch.
  unfold request_not_found, api.run_create. rewrite Hjob.
  apply new_job_shape in Hjob as (release_after & -> & _).
  unfold create_action_status. rewrite Hget.
  rewrite (generate_action_id_first_fresh _ _ _ _ _ Hget Hgetf Hfresh).
  pose proof (get_dmo_table_ok _ _ _ Hget) as (_ & Htbl & _).
  unfold create_action_status_put, put_item. simpl.
  rewrite Htbl, Hputf, Hfresh. simpl. rewrite Hstart.
  eexists _, _. split; [reflexivity|]. simpl. split; [done|].
  split; [by apply read_action_status_after_put|].
  split; [done|]. split; [done|].
  by apply matching_insert_fresh.
Qed.

(** X14. [start_action] starts one process or none: when it returns, one
    driver for the given action has been added and nothing else has
    changed; when it raises, nothing has changed.  An operation that is
    none of restore, ingest and modify raises [InvalidRequest]; a
    catalog keyword with a server that is not the keyword's raises
    [ValueError]; and a catalog keyword without a server is replaced by
    the known catalog's id and server in the driver's arguments. *)
Theorem start_action_one_process_or_none env action_id action_data w :
  (∀ w' r,
      api.start_action env action_id action_data w = (w', r) →
      match r with
      | Ok _ => ∃ p, w' = spawn p w ∧ driver_action_id p = action_id
      | Raise _ => w' = w
      end)
  ∧ (∀ operation,
        Body.operation action_data = Some operation →
        (∀ key, Body.catalog_id action_data = Some (PyStr key) →
                KNOWN_CATALOGS env !! key = None) →
        operation ≠ "restore" → operation ≠ "ingest" → operation ≠ "modify" →
        api.start_action env action_id action_data w
        = (w, Raise (InvalidRequest ("Operation '" +:+ operation +:+ "' unknown"))))
  ∧ (∀ key info server,
        Body.catalog_id action_data = Some (PyStr key) →
        KNOWN_CATALOGS env !! key = Some info →
        Body.server action_data = Some server →
        server ≠ "" →
        server ≠ CatalogInfo.server info →
        ∃ msg, api.start_action env action_id action_data w = (w, Raise (ValueError msg)))
  ∧ (∀ key info url,
        Body.catalog_id action_data = Some (PyStr key) →
        KNOWN_CATALOGS env !! key = Some info →
        Body.server action_data = None →
        Body.operation action_data = Some "ingest" →
        Body.data_url action_data = Some url →
        api.start_action env action_id action_data w
        = (spawn (ingest_driver action_id url (Some (CatalogInfo.server info))
                                (Some (CatalogInfo.catalog_id info))
                                (Body.catalog_acls action_data)) w,
           Ok ())).
Proof.
  split; [|split; [|split]].
  - intros w' r. apply start_action_effect.
  - intros operation Hop Hkey Hr Hi Hm. unfold api.start_action.
    assert (Hres : match Body.catalog_id action_data with
                   | Some (PyStr key) =>
                     match KNOWN_CATALOGS env !! key with
                     | Some _ => False
                     | None => True
                     end
                   | _ => True
                   end).
    { destruct (Body.catalog_id action_data) as [[]|]; try done.
      by rewrite (Hkey _ eq_refl). }
    apply String.eqb_neq in Hr, Hi, Hm.
    destruct (Body.catalog_id action_data) as [[| |key|]|];
      try (rewrite Hop, Hr, Hi, Hm; reflexivity).
    destruct (KNOWN_CATALOGS env !! key); [done|].
    by rewrite Hop, Hr, Hi, Hm.
  - intros key info server Hcat Hknown Hserver Hne Hdiff.
    unfold api.start_action. rewrite Hcat, Hknown, Hserver. simpl.
    apply String.eqb_neq in Hne. rewrite Hne. simpl.
    rewrite bool_decide_eq_false_2 by congruence. simpl. eauto.
  - intros key info url Hcat Hknown Hserver Hop Hurl.
    unfold api.start_action. rewrite Hcat, Hknown, Hserver. simpl.
    by rewrite Hop, Hurl.
Qed.

(** X15. [run] answers a repeated request id without looking at who
    asks: a caller whose identities do not meet [monitor_by] is refused
    by [status], yet the same caller, submitting a valid body under the
    action's request id, is given the action's status. *)
Theorem run_replays_to_any_caller env fuel oids auth req w tbl st action_id monitor_by :
  get_dmo_table (dynamo w) (TBL env) = Ok tbl →
  get_item_raises (faults (dynamo w)) = None →
  scan_status_code (faults (dynamo w)) < 300 →
  (length (scan_order tbl) < fuel)%nat →
  items tbl !! action_id = Some st →
  matching tbl (Request.request_id req) = [st] →
  Status.monitor_by st = Some monitor_by →
  disjoint_from auth monitor_by →
  api.validate_body env (Request.body req) = Ok () →
  api.status env auth action_id w
  = Raise (NotAuthorized ("You cannot view the status of action " +:+ action_id))
  ∧ api.run env fuel oids auth req w
    = (w, Some (clean ← translate_status st; Ok (Response.mk 200 clean))).
Proof.
  intros Hget Hgetf Hcode Hfuel Hitem Hmatch Hmon Hdis Hvalid. split.
  - unfold api.status.
    rewrite (read_action_status_found _ _ _ _ _ Hget Hgetf Hitem). simpl.
    rewrite Hmon. simpl. by rewrite (check_authorization_disjoint _ _ Hdis).
  - unfold api.run. rewrite Hvalid.
    by rewrite (read_action_by_request_matching _ _ _ _ _ Hget Hcode Hfuel), Hmatch.
Qed.

End NewSubmissions.

Section NewSubmissionsWitnesses.
Import dynamodb utils store_spec store_inv process_spec auth_spec Samples MoreSamples.

Lemma run_keeps_request_ids_unique_witness :
  ∃ tbl1,
    get_dmo_table
      (dynamo (api.run (env "" []) 4 ["a1"; "id1"] bob (request "r2" ingest_body)
                       (world (service [a1] 0))).1)
      "actions"
    = Ok tbl1
    ∧ unique_requests tbl1.
Proof.
  set (res := api.run (env "" []) 4 ["a1"; "id1"] bob (request "r2" ingest_body)
                      (world (service [a1] 0))).
  apply (run_keeps_request_ids_unique
           (env "" []) 4 ["a1"; "id1"] bob (request "r2" ingest_body)
           (world (service [a1] 0)) res.1 res.2
           (mkTable "ACTIVE" (list_to_map [("a1", a1)])));
    [vm_compute; reflexivity | vm_compute; reflexivity | vm_compute; lia
     | unfold unique_requests, request_ids;
       apply (bool_decide_unpack _); vm_compute; exact I
     | apply surjective_pairing].
Defined.

Lemma run_new_request_witness :
  ∃ w1 resp,
    api.run (env "" []) 4 ["a1"; "id1"] bob
            (Request.mk ingest_body "r2" None (Some (Str "carol")) None None None)
            (world (service [a1] 0))
    = (w1, Some (Ok resp))
    ∧ Response.status_code resp = 202
    ∧ Status.status (Response.json resp) = Some "ACTIVE"
    ∧ Status.manage_by (Response.json resp) = Some ["carol"]
    ∧ Status.monitor_by (Response.json resp) = Some ["bob"].
Proof.
  pose (tbl := mkTable "ACTIVE" (list_to_map [("a1", a1)])).
  eexists _, _. split; [vm_compute; reflexivity|].
  epose proof (run_new_request
                 (env "" []) 4 ["a1"; "id1"] bob
                 (Request.mk ingest_body "r2" None (Some (Str "carol")) None None None)
                 (world (service [a1] 0)) _ _ tbl
                 ltac:(vm_compute; reflexivity) ltac:(vm_compute; reflexivity)
                 ltac:(vm_compute; lia) ltac:(vm_compute; reflexivity)
                 ltac:(vm_compute; reflexivity))
    as (Hcode & Hst & _ & _ & Hman & Hmon & _).
  split; [exact Hcode|]. split; [exact Hst|]. split; [exact Hman|exact Hmon].
Defined.

Lemma run_deadline_too_early_witness :
  api.run (env_at 2000000) 4 ["id1"] alice
          (Request.mk ingest_body "r2" None None None None (Some "1970-01-12T13:46:40Z"))
          (world (service [a1] 0))
  = (world (service [a1] 0),
     Some (Raise (InvalidRequest
                    "Processing likely to exceed deadline of 1970-01-12T13:46:40Z"))).
Proof.
  apply (run_deadline_too_early
           (env_at 2000000) 4 ["id1"] alice
           (Request.mk ingest_body "r2" None None None None
                       (Some "1970-01-12T13:46:40Z"))
           (world (service [a1] 0))
           "Request ID 'r2' not found in status database"
           "1970-01-12T13:46:40Z" 1000000);
    [reflexivity | vm_compute; reflexivity | discriminate | reflexivity
     | reflexivity | vm_compute; reflexivity].
Defined.

End NewSubmissionsWitnesses.

Section StartFailureWitnesses.
Import dynamodb utils store_spec store_inv process_spec auth_spec Samples MoreSamples.

Lemma run_start_failure_leaves_record_witness :
  ∃ w1 created,
    api.run env_known 4 ["id1"] alice (request "r5" ingest_body_wrong_server)
            (world (service [a1] 0))
    = (w1, Some (Raise (ValueError
                          ("Server 'other.example.org' does not match server for "
                           +:+ "catalog '1' (demo.derivacloud.org)"))))
    ∧ processes w1 = []
    ∧ read_action_status (dynamo w1) "actions" "id1" = Ok created
    ∧ Status.status created = Some "ACTIVE"
    ∧ Status.request_id created = Some "r5".
Proof.
  pose (tbl := mkTable "ACTIVE" (list_to_map [("a1", a1)])).
  edestruct (run_start_failure_leaves_record
               env_known 4 alice (request "r5" ingest_body_wrong_server)
               (world (service [a1] 0)) tbl "id1" [])
    as (w1 & created & Hrun & Hproc & Hread & Hst & Hrid & _);
    [vm_compute; reflexivity | vm_compute; reflexivity | vm_compute; lia
     | vm_compute; reflexivity | reflexivity | reflexivity
     | vm_compute; reflexivity | vm_compute; reflexivity
     | vm_compute; reflexivity
     | intros w0; vm_compute; reflexivity |].
  exists w1, created. split; [exact Hrun|]. split; [exact Hproc|].
  split; [exact Hread|]. split; [exact Hst|exact Hrid].
Defined.

Lemma start_action_one_process_or_none_witness :
  api.start_action (env "" []) "id1"
                   (Body.mk (Some "archive") None None None None)
                   (world (service [] 0))
  = (world (service [] 0), Raise (InvalidRequest "Operation 'archive' unknown"))
  ∧ api.start_action env_known "id1" ingest_body_demo (world (service [] 0))
    = (spawn (ingest_driver "id1" "https://example.org/bag.zip"
                            (Some "demo.derivacloud.org") (Some (PyInt 1)) None)
             (world (service [] 0)),
       Ok ())
  ∧ ∃ msg,
      api.start_action env_known "id1" ingest_body_wrong_server (world (service [] 0))
      = (world (service [] 0), Raise (ValueError msg)).
Proof.
  split; [|split].
  - apply (proj1 (proj2 (start_action_one_process_or_none
                           (env "" []) "id1"
                           (Body.mk (Some "archive") None None None None)
                           (world (service [] 0))))
                 "archive"); [reflexivity|discriminate..].
  - apply (proj2 (proj2 (proj2 (start_action_one_process_or_none
                                  env_known "id1" ingest_body_demo
                                  (world (service [] 0)))))
                 "demo" (CatalogInfo.mk (PyInt 1) "demo.derivacloud.org")
                 "https://example.org/bag.zip");
      [reflexivity | vm_compute; reflexivity | reflexivity..].
  - apply (proj1 (proj2 (proj2 (start_action_one_process_or_none
                                  env_known "id1" ingest_body_wrong_server
                                  (world (service [] 0)))))
                 "demo" (CatalogInfo.mk (PyInt 1) "demo.derivacloud.org")
                 "other.example.org");
      [reflexivity | vm_compute; reflexivity | reflexivity
       | discriminate | discriminate].
Defined.

Lemma run_replays_to_any_caller_witness :
  api.status (env "" []) carol "a1" (world (service [a1] 0))
  = Raise (NotAuthorized "You cannot view the status of action a1")
  ∧ api.run (env "" []) 4 [] carol (request "r1" ingest_body) (world (service [a1] 0))
    = (world (service [a1] 0), Some (Ok (Response.mk 200 a1))).
Proof.
  pose (tbl := mkTable "ACTIVE" (list_to_map [("a1", a1)])).
  apply (run_replays_to_any_caller
           (env "" []) 4 [] carol (request "r1" ingest_body)
           (world (service [a1] 0)) tbl a1 "a1" ["alice"; "bob"]);
    [vm_compute; reflexivity | reflexivity | vm_compute; reflexivity
     | vm_compute; lia | vm_compute; reflexivity | vm_compute; reflexivity
     | reflexivity
     | apply (bool_decide_unpack _); vm_compute; exact I
     | vm_compute; reflexivity].
Defined.

End StartFailureWitnesses.

(** ** The executors *)

Section Executors.
Import dynamodb utils store_spec store_inv process_spec executor_spec.

Lemma update_action_status_raise_unchanged d table_name action_id updates overwrite d' e :
  update_action_status d table_name action_id updates overwrite = (d', Raise e) →
  d' = d.
Proof.
  unfold update_action_status, put_item. intros H.
  repeat (case_match; simplify_eq; simpl in *; try done).
Qed.

Lemma set_dynamo_same w : set_dynamo (dynamo w) w = w.
Proof. by destruct w. Qed.

Lemma report_no_ids new :
  report new →
  Status.action_id new = None
  ∧ Status.request_id new = None
  ∧ Status.manage_by new = None
  ∧ Status.monitor_by new = None
  ∧ Status.creator_id new = None
  ∧ Status.release_after new = None
  ∧ Status.label new = None.
Proof. by intros []. Qed.

(** The failure branch the ingest and the modify executors share: the
    status write inside the [try], whose own failure is reported by the
    handler. *)
Lemma update_or_report env action_id w msg (on_msg : exn → string) :
  ∃ new after,
    report new
    ∧ Status.status new = Some "FAILED"
    ∧ match update_action_status (dynamo w) (TBL env) action_id
              (api.error_status msg) false with
      | (d, Ok _) => set_dynamo d w
      | (d, Raise e) =>
        api.self_report env action_id (api.error_status (on_msg e))
                        (api.after_error e) (set_dynamo d w)
      end
      = api.self_report env action_id new after w.
Proof.
  destruct (update_action_status (dynamo w) (TBL env) action_id
              (api.error_status msg) false) as [d [x|e]] eqn:Hupd.
  - exists (api.error_status msg), "". split; [constructor|]. split; [done|].
    unfold api.self_report. by rewrite Hupd.
  - apply update_action_status_raise_unchanged in Hupd as ->.
    rewrite set_dynamo_same.
    exists (api.error_status (on_msg e)), (api.after_error e).
    split; [constructor|]. by split.
Qed.

Lemma action_restore_self_reports env action_id url server catalog w token :
  get_deriva_token env = Ok token →
  ∃ new after,
    report new
    ∧ api.action_restore env action_id url server catalog w
      = api.self_report env action_id new after w.
Proof.
  intros Htok. unfold api.action_restore. rewrite Htok.
  repeat case_match; eexists _, _; (split; [|reflexivity]);
    first [apply report_failed | by apply report_succeeded].
Qed.

Lemma action_ingest_self_reports env action_id url servername catalog_id acls w :
  ∃ new after,
    report new
    ∧ api.action_ingest env action_id url servername catalog_id acls w
      = mkWorld (dynamo (api.self_report env action_id new after w))
                (processes (api.self_report env action_id new after w))
                (error_log (api.self_report env action_id new after w))
                (removed_dirs (api.self_report env action_id new after w)
                 ++ removed_by env (ingest_driver action_id url servername
                                                  catalog_id acls) new).
Proof.
  assert (Hsame : ∀ w0 : World,
             w0 = mkWorld (dynamo w0) (processes w0) (error_log w0)
                          (removed_dirs w0 ++ [])).
  { intros []. simpl. by rewrite app_nil_r. }
  unfold api.action_ingest.
  destruct (download_data env url _) as [bag_path|e];
    [|eexists _, _; split; [apply report_failed|apply Hsame]].
  destruct (_ ← listdir env _; _) as [schema_file|e];
    [|eexists _, _; split; [apply report_failed|apply Hsame]].
  destruct (deriva_ingest env _ _ catalog_id _) as [ingest_res|e];
    [|eexists _, _; split; [apply report_failed|apply Hsame]].
  destruct (IngestRes.success ingest_res); simpl.
  - destruct (IngestRes.catalog_id ingest_res) as [cid|]; simpl;
      [|eexists _, _; split; [apply report_failed|apply Hsame]].
    match goal with
    | |- context [api.self_report env action_id ?n ?a w] => exists n, a
    end.
    split; [by apply report_succeeded|].
    unfold rmtree, removed_by, staging_dir.
    cbn [is_ingest driver_action_id Status.status andb].
    by rewrite bool_decide_eq_true_2.
  - edestruct (update_or_report env action_id w) as (new & after & Hrep & Hst & ->).
    exists new, after. split; [done|].
    unfold removed_by. rewrite Hst. simpl. apply Hsame.
Qed.

Lemma action_modify_self_reports env deriva_modify action_id catalog_id servername
      acls w :
  ∃ new after,
    report new
    ∧ api.action_modify env deriva_modify action_id catalog_id servername acls w
      = api.self_report env action_id new after w.
Proof.
  unfold api.action_modify.
  destruct (deriva_modify _ catalog_id acls) as [modify_res|e];
    [|eexists _, _; split; [apply report_failed|reflexivity]].
  destruct (api.ModifyRes.success modify_res); simpl.
  - eexists _, _. split; [|reflexivity]. by apply report_succeeded.
  - edestruct (update_or_report env action_id w) as (new & after & Hrep & Hst & ->).
    by exists new, after.
Qed.

(** Every driver ends with one report, and removes what [removed_by]
    says. *)
Lemma run_driver_self_reports env deriva_modify p w :
  (is_restore p = true → is_ok (get_deriva_token env) = true) →
  ∃ new after,
    report new
    ∧ run_driver env deriva_modify p w
      = mkWorld (dynamo (api.self_report env (driver_action_id p) new after w))
                (processes (api.self_report env (driver_action_id p) new after w))
                (error_log (api.self_report env (driver_action_id p) new after w))
                (removed_dirs (api.self_report env (driver_action_id p) new after w)
                 ++ removed_by env p new).
Proof.
  assert (Hsame : ∀ w0 : World,
             w0 = mkWorld (dynamo w0) (processes w0) (error_log w0)
                          (removed_dirs w0 ++ [])).
  { intros []. simpl. by rewrite app_nil_r. }
  intros Htok. destruct p as [action_id url server catalog
                             |action_id url server catalog_id catalog_acls
                             |action_id catalog_id server catalog_acls]; simpl.
  - destruct (get_deriva_token env) as [token|e] eqn:Ht;
      [|specialize (Htok eq_refl); discriminate].
    destruct (action_restore_self_reports env action_id url server catalog w token Ht)
      as (new & after & Hrep & ->).
    exists new, after. split; [done|]. apply Hsame.
  - apply action_ingest_self_reports.
  - destruct (action_modify_self_reports env deriva_modify action_id catalog_id
                                         server catalog_acls w)
      as (new & after & Hrep & ->).
    exists new, after. split; [done|]. apply Hsame.
Qed.

Lemma self_report_healthy env action_id new after w tbl old :
  get_dmo_table (dynamo w) (TBL env) = Ok tbl →
  get_item_raises (faults (dynamo w)) = None →
  put_item_raises (faults (dynamo w)) = None →
  items tbl !! action_id = Some old →
  Status.action_id old = Some action_id →
  report new →
  api.self_report env action_id new after w
  = set_dynamo (set_items (TBL env) tbl
                          (<[action_id := stored_item (dict_merge new old)]> (items tbl))
                          (dynamo w)) w.
Proof.
  intros Hget Hgetf Hputf Hold Hkey Hrep. unfold api.self_report.
  apply report_no_ids in Hrep as (Hid & _).
  by rewrite (update_action_status_merge _ _ _ _ _ _ Hget Hgetf Hputf Hold Hid Hkey).
Qed.

Lemma self_report_failing env action_id new after w :
  is_ok (read_action_status (dynamo w) (TBL env) action_id) = false
  ∨ is_Some (put_item_raises (faults (dynamo w))) →
  ∃ e2,
    api.self_report env action_id new after w
    = write_error_log (error_log_text action_id e2 after) w
    ∧ (∀ e, read_action_status (dynamo w) (TBL env) action_id = Raise e → e2 = e)
    ∧ (∀ st msg, read_action_status (dynamo w) (TBL env) action_id = Ok st →
                 put_item_raises (faults (dynamo w)) = Some msg →
                 e2 = ServiceError msg).
Proof.
  intros Hfail. unfold api.self_report, update_action_status.
  destruct (read_action_status (dynamo w) (TBL env) action_id) as [old|e] eqn:Hread.
  - destruct Hfail as [Hfail|[msg Hput]]; [discriminate|].
    apply read_action_status_ok_inv in Hread as (tbl & Hget & _ & _).
    rewrite Hget. unfold put_item. rewrite Hput. simpl.
    exists (ServiceError msg). rewrite set_dynamo_same. split; [done|].
    split; [discriminate|]. by intros ? ? _ [= <-].
  - exists e. rewrite set_dynamo_same. split; [done|].
    split; [by intros ? [= <-]|discriminate].
Qed.

End Executors.

Section ExecutorReports.
Import dynamodb utils store_spec store_inv process_spec executor_spec.


(** X17. When the status cannot be written, because the record cannot be
    read or the put call raises, a driver leaves the store as it was and
    writes [ERROR.log] instead: the file names the action and the error
    of the write, which is the read's error or the [ServiceError] made
    of the put's.  No process is started. *)
Theorem drivers_fall_back_to_error_log env deriva_modify p w :
  (is_restore p = true → is_ok (get_deriva_token env) = true) →
  is_ok (read_action_status (dynamo w) (TBL env) (driver_action_id p)) = false
  ∨ is_Some (put_item_raises (faults (dynamo w))) →
  ∃ e2 after,
    error_log (run_driver env deriva_modify p w)
    = Some (error_log_text (driver_action_id p) e2 after)
    ∧ dynamo (run_driver env deriva_modify p w) = dynamo w
    ∧ processes (run_driver env deriva_modify p w) = processes w
    ∧ (∀ e, read_action_status (dynamo w) (TBL env) (driver_action_id p) = Raise e →
            e2 = e)
    ∧ (∀ st msg,
          read_action_status (dynamo w) (TBL env) (driver_action_id p) = Ok st →
          put_item_raises (faults (dynamo w)) = Some msg →
          e2 = ServiceError msg).
Proof.
  intros Htok Hfail.
  destruct (run_driver_self_reports env deriva_modify p w Htok)
    as (new & after & Hrep & ->).
  destruct (self_report_failing env (driver_action_id p) new after w Hfail)
    as (e2 & -> & Hread & Hput).
  exists e2, after. by repeat split.
Qed.

End ExecutorReports.

Section ExecutorReportsWitnesses.
Import dynamodb utils store_spec store_inv process_spec executor_spec.
Import Samples MoreSamples ExecutorSamples.


Lemma drivers_fall_back_to_error_log_witness :
  ∃ after,
    error_log (run_driver (env "" ["a.json"]) deriva_modify_ok
                          (modify_driver "a1" (PyInt 7) None
                                         (Some [("owner", ["alice"])]))
                          (world (failing_put [a1])))
    = Some (error_log_text "a1"
              (ServiceError "ProvisionedThroughputExceededException") after)
    ∧ dynamo (run_driver (env "" ["a.json"]) deriva_modify_ok
                         (modify_driver "a1" (PyInt 7) None
                                        (Some [("owner", ["alice"])]))
                         (world (failing_put [a1])))
      = failing_put [a1].
Proof.
  destruct (drivers_fall_back_to_error_log
              (env "" ["a.json"]) deriva_modify_ok
              (modify_driver "a1" (PyInt 7) None (Some [("owner", ["alice"])]))
              (world (failing_put [a1])))
    as (e2 & after & Hlog & Hdyn & _ & _ & Hput);
    [discriminate | right; by eexists |].
  exists after. split; [|exact Hdyn].
  rewrite Hlog.
  by rewrite (Hput a1 "ProvisionedThroughputExceededException"
                   ltac:(vm_compute; reflexivity) eq_refl).
Defined.

End ExecutorReportsWitnesses.

(** ** A submission and its driver *)

Section Lifecycle.
Import dynamodb utils store_spec store_inv process_spec executor_spec.




End Lifecycle.

Section LifecycleWitnesses.
Import dynamodb utils store_spec store_inv process_spec executor_spec.
Import Samples MoreSamples ExecutorSamples.


End LifecycleWitnesses.

(** ** The schema compiler, table by table *)

Section SchemaTables.
Import utils schema_spec.

Lemma result_map_ok_inv {A B} (f : A → result B) l ys :
  result_map f l = Ok ys → Forall2 (λ x y, f x = Ok y) l ys.
Proof.
  revert ys. induction l as [|x l IH]; intros ys; simpl.
  - intros [= <-]. constructor.
  - destruct (f x) as [y|e] eqn:Hx; simpl; [|discriminate].
    destruct (result_map f l) as [ys'|e]; simpl; [|discriminate].
    intros [= <-]. constructor; [done|]. by apply IH.
Qed.

Lemma result_map_all_ok {A B} (f : A → result B) l :
  Forall (λ x, is_ok (f x) = true) l → is_ok (result_map f l) = true.
Proof.
  induction 1 as [|x l Hx _ IH]; [done|]. simpl.
  destruct (f x); [|discriminate]. simpl.
  by destruct (result_map f l).
Qed.

Lemma result_map_first_error {A B} (f : A → result B) good bad rest e :
  Forall (λ x, is_ok (f x) = true) good →
  f bad = Raise e →
  result_map f (good ++ bad :: rest) = Raise e.
Proof.
  intros Hgood Hbad. induction Hgood as [|x l Hx _ IH]; simpl.
  - by rewrite Hbad.
  - destruct (f x); [|discriminate]. simpl. by rewrite IH.
Qed.

Lemma make_column_ok_iff cdef :
  is_ok (make_column cdef) = true
  ↔ default "string" (FieldDef.type cdef) ∈ supported_types.
Proof.
  unfold make_column. split.
  - destruct (make_type _) as [ty|e] eqn:Hty; [|discriminate].
    intros _. by apply make_type_ok_inv in Hty.
  - intros Hin. set (s := default "string" (FieldDef.type cdef)) in *.
    clearbody s. unfold supported_types in Hin.
    repeat (apply elem_of_cons in Hin as [->|Hin]; [done|]).
    by apply not_elem_of_nil in Hin.
Qed.

Lemma make_column_unsupported cdef :
  default "string" (FieldDef.type cdef) ∉ supported_types →
  make_column cdef
  = Raise (ValueError ("Mapping undefined for type '"
                       +:+ default "string" (FieldDef.type cdef) +:+ "'")).
Proof.
  intros Hty. unfold make_column. by rewrite (make_type_unsupported _ Hty).
Qed.

(** X19. What [make_table] makes of the fields and the foreign keys: the
    table compiles exactly when every field's type (a field without one
    being a string) is one of the five supported, and otherwise fails
    with the error of the first field whose type is not, whatever the
    keys say.  A compiled table has the name and the description of the
    definition, one column per field, in field order, with the field's
    name, description and mapped type, nullable unless the field is
    required; and one foreign key per definition, in order, within the
    schema, where a reference to the empty resource means the table
    itself. *)
Theorem make_table_columns tdef schema_name provide_system :
  (∀ t, make_table tdef schema_name provide_system = Ok t →
        Table.tname t = TableDef.name tdef
        ∧ Table.comment t = TableDef.description tdef
        ∧ Forall2 (λ cdef col,
                     Column.cname col = FieldDef.name cdef
                     ∧ make_type (default "string" (FieldDef.type cdef))
                       = Ok (Column.ctype col)
                     ∧ (Column.nullok col = false
                        ↔ ∃ k, FieldDef.constraints cdef = Some k
                               ∧ Constraints.required k = Some true)
                     ∧ Column.comment col = FieldDef.description cdef)
                  (TableDef.fields tdef) (Table.column_defs t)
        ∧ Forall2 (λ fkdef fk,
                     ForeignKey.fk_colnames fk = as_list (FKeyDef.fields fkdef)
                     ∧ ForeignKey.pk_sname fk = schema_name
                     ∧ ForeignKey.pk_tname fk
                       = (if decide (Reference.resource (FKeyDef.reference fkdef) = "")
                          then TableDef.name tdef
                          else Reference.resource (FKeyDef.reference fkdef))
                     ∧ ForeignKey.pk_colnames fk
                       = as_list (Reference.fields (FKeyDef.reference fkdef)))
                  (default [] (TableDef.foreignKeys tdef)) (Table.fkey_defs t))
  ∧ (is_ok (make_table tdef schema_name provide_system) = true
     ↔ Forall (λ cdef, default "string" (FieldDef.type cdef) ∈ supported_types)
              (TableDef.fields tdef))
  ∧ (∀ good bad rest,
        TableDef.fields tdef = good ++ bad :: rest →
        Forall (λ cdef, default "string" (FieldDef.type cdef) ∈ supported_types) good →
        default "string" (FieldDef.type bad) ∉ supported_types →
        make_table tdef schema_name provide_system
        = Raise (ValueError ("Mapping undefined for type '"
                             +:+ default "string" (FieldDef.type bad) +:+ "'"))).
Proof.
  split; [|split].
  - intros t. unfold make_table.
    destruct (result_map make_column (TableDef.fields tdef)) as [cols|e] eqn:Hcols;
      simpl; [|discriminate].
    intros [= <-]. simpl. split; [done|]. split; [done|]. split.
    + apply result_map_ok_inv in Hcols.
      eapply Forall2_impl; [exact Hcols|]. intros cdef col. unfold make_column.
      destruct (make_type _) as [ty|e]; simpl; [|discriminate].
      intros [= <-]. simpl. split; [done|]. split; [done|]. split; [|done].
      destruct (FieldDef.constraints cdef) as [[[[]|] u]|]; simpl; split;
        try discriminate; try done; eauto.
      * intros (k & [= <-] & Hr). discriminate.
      * intros (k & [= <-] & Hr). discriminate.
      * intros (k & Hk & _). discriminate.
    + apply Forall2_fmap_r, Forall_Forall2_diag, Forall_forall.
      intros fkdef _. unfold make_fkey. simpl. split; [done|]. split; [done|].
      split; [|done].
      destruct (decide _) as [->|Hne]; [done|].
      by apply String.eqb_neq in Hne as ->.
  - unfold make_table. split.
    + destruct (result_map make_column (TableDef.fields tdef)) as [cols|e] eqn:Hcols;
        simpl; [|discriminate].
      intros _. apply result_map_ok_inv in Hcols.
      apply Forall_forall. intros cdef Hin.
      apply list_elem_of_lookup in Hin as [i Hi].
      destruct (Forall2_lookup_l _ _ _ _ _ Hcols Hi) as (col & _ & Hcol).
      apply make_column_ok_iff. by rewrite Hcol.
    + intros Hall.
      assert (Hok : is_ok (result_map make_column (TableDef.fields tdef)) = true).
      { apply result_map_all_ok. eapply Forall_impl; [exact Hall|].
        intros cdef. apply make_column_ok_iff. }
      by destruct (result_map make_column (TableDef.fields tdef)).
  - intros good bad rest Hfields Hgood Hbad. unfold make_table.
    rewrite Hfields.
    rewrite (result_map_first_error make_column good bad rest _
               ltac:(eapply Forall_impl; [exact Hgood|];
                     intros cdef; apply make_column_ok_iff)
               (make_column_unsupported _ Hbad)).
    reflexivity.
Qed.

Lemma append_length (a b : string) :
  String.length (a +:+ b) = (String.length a + String.length b)%nat.
Proof. induction a as [|c a IH]; simpl; [done|]. by rewrite IH. Qed.

(** X20. The constraint names of a table's keys need not differ: the
    name joins the columns with an underscore, so the key of the columns
    [a] and [b] and the key of the one column [a_b] get the same name.
    A table whose primary key is [a, b] and whose only unique field is
    [a_b] compiles to two keys, on different columns, under one
    constraint name. *)
Theorem make_table_key_names_coincide tdef schema_name provide_system t a b cdef :
  make_table tdef schema_name provide_system = Ok t →
  TableDef.primaryKey tdef = Some (StrList [a; b]) →
  filter (λ c, is_unique c = true) (TableDef.fields tdef) = [cdef] →
  FieldDef.name cdef = a +:+ "_" +:+ b →
  ∃ k1 k2,
    Table.key_defs t = [k1; k2]
    ∧ Key.colnames k1 = [a; b]
    ∧ Key.colnames k2 = [a +:+ "_" +:+ b]
    ∧ Key.constraint_names k1 = Key.constraint_names k2.
Proof.
  intros Ht Hpk Hfilter Hname.
  rewrite (make_table_key_defs_spec _ _ _ _ Ht).
  unfold spec_key_constraints, spec_primary_key. rewrite Hpk.
  cbn [fmap option_fmap option_map as_list].
  assert (Hf : ∀ l : list FieldDef.t,
             filter (λ c, is_unique c = true
                          ∧ ¬ covered_by_primary_key (Some [a; b]) (FieldDef.name c)) l
             = filter (λ c, ¬ covered_by_primary_key (Some [a; b]) (FieldDef.name c))
                      (filter (λ c, is_unique c = true) l)).
  { intros l. rewrite list_filter_filter. apply list_filter_iff. tauto. }
  rewrite Hf, Hfilter, filter_cons.
  destruct (decide _) as [_|Hn].
  - eexists _, _. split; [reflexivity|]. simpl. rewrite Hname.
    split; [done|]. split; [done|]. reflexivity.
  - exfalso. apply Hn. rewrite Hname. intros [_ H].
    assert (Ha : a ∈ [a +:+ "_" +:+ b]) by (apply H; left).
    apply list_elem_of_singleton in Ha.
    apply (f_equal String.length) in Ha.
    rewrite append_length in Ha. simpl in Ha. lia.
Qed.

End SchemaTables.

Section SchemaConversion.
Import utils schema_spec.

Lemma foldl_insert_lookup_notin {A} (pairs : list (string * A)) (m : gmap string A) k :
  k ∉ pairs.*1 →
  foldl (λ m kv, <[kv.1 := kv.2]> m) m pairs !! k = m !! k.
Proof.
  revert m. induction pairs as [|[k' v] pairs IH]; intros m Hk; [done|].
  simpl in *. apply not_elem_of_cons in Hk as [Hne Hk].
  rewrite IH by done. by rewrite lookup_insert_ne.
Qed.

Lemma dict_of_lookup_none {A} (pairs : list (string * A)) k :
  k ∉ pairs.*1 → dict_of pairs !! k = None.
Proof. intros Hk. unfold dict_of. by rewrite foldl_insert_lookup_notin. Qed.

Lemma dict_of_lookup_last {A} (before after : list (string * A)) k v :
  k ∉ after.*1 →
  dict_of (before ++ (k, v) :: after) !! k = Some v.
Proof.
  intros Hk. unfold dict_of. rewrite foldl_app. simpl.
  rewrite foldl_insert_lookup_notin by done. apply lookup_insert_eq.
Qed.

Lemma compiled_names (resources : list TableDef.t) schema_name
      (compiled : list (string * Table.t)) :
  Forall2 (λ tdef kv, (t ← make_table tdef schema_name true;
                       Ok (TableDef.name tdef, t)) = Ok kv)
          resources compiled →
  compiled.*1 = TableDef.name <$> resources.
Proof.
  induction 1 as [|tdef kv resources compiled Hkv _ IH]; [done|].
  rewrite !fmap_cons, IH. f_equal.
  destruct (make_table tdef schema_name true); simpl in Hkv; [|discriminate].
  by injection Hkv as <-.
Qed.

(** X21. [convert_tableschema] returns one schema, under the name given,
    whose tables are the compiled resources by name: a name no resource
    has is not there, and a name holds the table compiled from the last
    resource of that name, so an earlier resource of the same name is
    dropped without an error.  The conversion succeeds exactly when
    every resource compiles, and fails with the error of the first one
    that does not. *)
Theorem convert_tableschema_tables tableschema schema_name :
  (∀ doc,
      convert_tableschema tableschema schema_name = Ok doc →
      ∃ tables,
        Ermrest.schemas doc = {[ schema_name := Ermrest.mkSchema schema_name tables ]}
        ∧ (∀ name, name ∉ TableDef.name <$> TableSchema.resources tableschema →
                   tables !! name = None)
        ∧ (∀ before tdef after,
              TableSchema.resources tableschema = before ++ tdef :: after →
              TableDef.name tdef ∉ TableDef.name <$> after →
              ∃ t, make_table tdef schema_name true = Ok t
                   ∧ tables !! TableDef.name tdef = Some t))
  ∧ (is_ok (convert_tableschema tableschema schema_name) = true
     ↔ Forall (λ tdef, is_ok (make_table tdef schema_name true) = true)
              (TableSchema.resources tableschema))
  ∧ (∀ good bad rest e,
        TableSchema.resources tableschema = good ++ bad :: rest →
        Forall (λ tdef, is_ok (make_table tdef schema_name true) = true) good →
        make_table bad schema_name true = Raise e →
        convert_tableschema tableschema schema_name = Raise e).
Proof.
  unfold convert_tableschema.
  set (f := λ tdef, t ← make_table tdef schema_name true; Ok (TableDef.name tdef, t)).
  assert (Hf : ∀ tdef, is_ok (f tdef) = is_ok (make_table tdef schema_name true)).
  { intros tdef. unfold f. by destruct (make_table tdef schema_name true). }
  split; [|split].
  - intros doc.
    destruct (result_map f (TableSchema.resources tableschema)) as [compiled|e]
      eqn:Hmap; simpl; [|discriminate].
    intros [= <-]. exists (dict_of compiled). split; [done|].
    apply result_map_ok_inv in Hmap.
    pose proof (compiled_names _ _ _ Hmap) as Hnames. split.
    + intros name Hname. apply dict_of_lookup_none. by rewrite Hnames.
    + intros before tdef after Hres Hlast. rewrite Hres in Hmap.
      apply Forall2_app_inv_l in Hmap as (cb & crest & _ & Hrest & ->).
      apply Forall2_cons_inv_l in Hrest as (kv & ca & Hkv & Hafter & ->).
      unfold f in Hkv.
      destruct (make_table tdef schema_name true) as [t|e]; simpl in Hkv;
        [|discriminate].
      injection Hkv as <-. exists t. split; [done|].
      apply dict_of_lookup_last. by rewrite (compiled_names _ _ _ Hafter).
  - split.
    + destruct (result_map f (TableSchema.resources tableschema)) as [compiled|e]
        eqn:Hmap; simpl; [|discriminate].
      intros _. apply result_map_ok_inv in Hmap.
      apply Forall_forall. intros tdef Hin.
      apply list_elem_of_lookup in Hin as [i Hi].
      destruct (Forall2_lookup_l _ _ _ _ _ Hmap Hi) as (kv & _ & Hkv).
      by rewrite <- Hf, Hkv.
    + intros Hall.
      assert (Hok : is_ok (result_map f (TableSchema.resources tableschema)) = true).
      { apply result_map_all_ok. eapply Forall_impl; [exact Hall|].
        intros tdef. by rewrite Hf. }
      by destruct (result_map f (TableSchema.resources tableschema)).
  - intros good bad rest e Hres Hgood Hbad. rewrite Hres.
    rewrite (result_map_first_error f good bad rest e).
    + reflexivity.
    + eapply Forall_impl; [exact Hgood|]. intros tdef. by rewrite Hf.
    + unfold f. by rewrite Hbad.
Qed.

End SchemaConversion.

Section SchemaTablesWitnesses.
Import utils schema_spec Samples ExecutorSamples.

Lemma make_table_columns_witness :
  (∃ t, make_table table_refs "s" true = Ok t
        ∧ Table.column_defs t
          = [Column.define "id" int8 false (Some "the node");
             Column.define "parent" int8 true None;
             Column.define "tag" text true None]
        ∧ Table.fkey_defs t
          = [ForeignKey.define ["parent"] "s" "n" ["id"] [["s"; "n_parent_fkey"]];
             ForeignKey.define ["tag"] "s" "t" ["a"] [["s"; "n_tag_fkey"]]])
  ∧ is_ok (make_table table_refs "s" true) = true
  ∧ make_table table_bad "s" true
    = Raise (ValueError "Mapping undefined for type 'object'").
Proof.
  split; [|split].
  - eexists. split; [reflexivity|].
    destruct (proj1 (make_table_columns table_refs "s" true) _ eq_refl)
      as (_ & _ & Hcols & Hfks).
    split; reflexivity.
  - apply (proj1 (proj2 (make_table_columns table_refs "s" true))).
    repeat constructor; apply (bool_decide_unpack _); vm_compute; exact I.
  - apply (proj2 (proj2 (make_table_columns table_bad "s" true))
                 [FieldDef.mk "a" (Some "integer") None None]
                 (FieldDef.mk "b" (Some "object") None None)
                 [FieldDef.mk "c" (Some "blob") None None]);
      [reflexivity
       | repeat constructor; apply (bool_decide_unpack _); vm_compute; exact I
       | apply (bool_decide_unpack _); vm_compute; exact I].
Defined.

Lemma make_table_key_names_coincide_witness :
  ∃ t k1 k2,
    make_table table_clash "s" true = Ok t
    ∧ Table.key_defs t = [k1; k2]
    ∧ Key.colnames k1 = ["a"; "b"]
    ∧ Key.colnames k2 = ["a_b"]
    ∧ Key.constraint_names k1 = [["s"; "t_a_b_key"]]
    ∧ Key.constraint_names k2 = [["s"; "t_a_b_key"]].
Proof.
  destruct (make_table_key_names_coincide
              table_clash "s" true _ "a" "b"
              (FieldDef.mk "a_b" None (Some (Constraints.mk None (Some true))) None)
              eq_refl eq_refl eq_refl eq_refl)
    as (k1 & k2 & Hkeys & Hc1 & Hc2 & Hnames).
  eexists _, k1, k2. split; [reflexivity|]. split; [exact Hkeys|].
  split; [exact Hc1|]. split; [exact Hc2|].
  injection Hkeys as <- <-. split; reflexivity.
Defined.

Lemma convert_tableschema_tables_witness :
  (∃ doc tables t,
      convert_tableschema (TableSchema.mk [table_a; table_refs; table_abc]) "s" = Ok doc
      ∧ Ermrest.schemas doc = {[ "s" := Ermrest.mkSchema "s" tables ]}
      ∧ make_table table_abc "s" true = Ok t
      ∧ tables !! "t" = Some t
      ∧ tables !! "x" = None)
  ∧ convert_tableschema (TableSchema.mk [table_a; table_bad; table_abc]) "s"
    = Raise (ValueError "Mapping undefined for type 'object'").
Proof.
  split.
  - destruct (proj1 (convert_tableschema_tables
                       (TableSchema.mk [table_a; table_refs; table_abc]) "s")
                    _ eq_refl)
      as (tables & Hdoc & Hnone & Hlast).
    destruct (Hlast [table_a; table_refs] table_abc [] eq_refl
                    ltac:(apply not_elem_of_nil))
      as (t & Ht & Hlook).
    eexists _, tables, t. split; [reflexivity|]. split; [exact Hdoc|].
    split; [exact Ht|]. split; [exact Hlook|].
    apply Hnone. apply (bool_decide_unpack _). vm_compute. exact I.
  - apply (proj2 (proj2 (convert_tableschema_tables
                           (TableSchema.mk [table_a; table_bad; table_abc]) "s"))
                 [table_a] table_bad [table_abc]);
      [reflexivity | repeat constructor | reflexivity].
Defined.

End SchemaTablesWitnesses.

(** ** What stops a submission *)

Section SubmissionErrors.
Import dynamodb utils store_spec store_inv process_spec.

(** X22. A body that has passed the validation of [run] holds what
    [start_action] reads: starting it never fails on a missing key.  It
    fails only on an operation that is none of restore, ingest and
    modify, or on a known catalog keyword given with a server that is not
    the catalog's. *)
Theorem validated_body_start_errors env action_id body w w' e :
  api.validate_body env body = Ok () →
  api.start_action env action_id body w = (w', Raise e) →
  (∃ op, Body.operation body = Some op
         ∧ op ≠ "restore" ∧ op ≠ "ingest" ∧ op ≠ "modify"
         ∧ e = InvalidRequest ("Operation '" +:+ op +:+ "' unknown"))
  ∨ (∃ key info server msg,
        Body.catalog_id body = Some (PyStr key)
        ∧ KNOWN_CATALOGS env !! key = Some info
        ∧ Body.server body = Some server
        ∧ server ≠ CatalogInfo.server info
        ∧ e = ValueError msg).
Proof.
  destruct body as [operation data_url catalog_id catalog_acls server].
  unfold api.validate_body, api.start_action. simpl.
  intros Hvalid Hstart.
  repeat (case_match; simplify_eq; simpl in *; try discriminate).
  all: repeat match goal with
       | H : (_ =? _)%string = true |- _ =>
         apply String.eqb_eq in H; subst; simpl in *
       end; try discriminate.
  all: try (left; eexists; repeat split; by apply String.eqb_neq).
  all: destruct server as [srv|]; simpl in *; try discriminate;
       right; do 4 eexists; repeat split; try done;
       match goal with
       | H : negb (bool_decide _) = true |- _ =>
         apply negb_true_iff, bool_decide_eq_false in H; congruence
       end.
Qed.

(** X23. A store that cannot be searched gets no new record.  When the
    scan of the lookup reports a status of 300 or more, a submission with
    a valid body is refused with a [ServiceError] and the world stays as
    it was; when the table is missing or inactive (which the lookup
    reports as [NotFound], the sign of a new request), [run] goes on to
    create the action, fails, and the world stays as it was. *)
Theorem run_on_unreadable_store env fuel oids auth req w :
  (∀ tbl,
      get_dmo_table (dynamo w) (TBL env) = Ok tbl →
      300 ≤ scan_status_code (faults (dynamo w)) →
      api.validate_body env (Request.body req) = Ok () →
      ∃ msg, api.run env (S fuel) oids auth req w
             = (w, Some (Raise (ServiceError msg))))
  ∧ (∀ e, get_dmo_table (dynamo w) (TBL env) = Raise e →
          ∃ e', api.run env fuel oids auth req w = (w, Some (Raise e'))).
Proof.
  split.
  - intros tbl Hget Hcode Hvalid. unfold api.run. rewrite Hvalid.
    unfold read_action_by_request. rewrite Hget. simpl.
    apply get_dmo_table_ok in Hget as (_ & Htbl & _).
    unfold scan. rewrite Htbl. simpl.
    assert (Hc : (300 <=? scan_status_code (faults (dynamo w))) = true)
      by (by apply Z.leb_le).
    rewrite Hc. by eexists.
  - intros e Hget. unfold api.run.
    destruct (api.validate_body env (Request.body req)) as [[]|e0]; [|by eexists].
    unfold read_action_by_request. rewrite Hget.
    assert (Hcreate : ∃ e', api.run_create env oids auth req w = (w, Some (Raise e'))).
    { unfold api.run_create.
      destruct (api.new_job env auth req) as [job|e1]; [|by eexists].
      unfold create_action_status. rewrite Hget. rewrite set_dynamo_same.
      by eexists. }
    destruct e; try by eexists. exact Hcreate.
Qed.

End SubmissionErrors.

Section SubmissionErrorsWitnesses.
Import dynamodb utils store_spec store_inv process_spec.
Import Samples MoreSamples ExecutorSamples.

Lemma validated_body_start_errors_witness :
  (∃ op, Body.operation ingest_body_wrong_server = Some op
         ∧ op ≠ "restore" ∧ op ≠ "ingest" ∧ op ≠ "modify"
         ∧ ValueError ("Server 'other.example.org' does not match server for "
                       +:+ "catalog '1' (demo.derivacloud.org)")
           = InvalidRequest ("Operation '" +:+ op +:+ "' unknown"))
  ∨ (∃ key info server msg,
        Body.catalog_id ingest_body_wrong_server = Some (PyStr key)
        ∧ KNOWN_CATALOGS env_known !! key = Some info
        ∧ Body.server ingest_body_wrong_server = Some server
        ∧ server ≠ CatalogInfo.server info
        ∧ ValueError ("Server 'other.example.org' does not match server for "
                      +:+ "catalog '1' (demo.derivacloud.org)")
          = ValueError msg).
Proof.
  apply (validated_body_start_errors
           env_known "id1" ingest_body_wrong_server (world (service [] 0))
           (world (service [] 0)));
    vm_compute; reflexivity.
Defined.

Lemma run_on_unreadable_store_witness :
  (∃ msg, api.run (env "" ["a.json"]) 1 ["id1"] alice (request "r1" ingest_body)
                  (world (failing_scan [a1]))
          = (world (failing_scan [a1]), Some (Raise (ServiceError msg))))
  ∧ (∃ e', api.run (env "" ["a.json"]) 1 ["id1"] alice (request "r1" ingest_body)
                   (world no_tables)
           = (world no_tables, Some (Raise e'))).
Proof.
  split.
  - apply (proj1 (run_on_unreadable_store
                    (env "" ["a.json"]) 0 ["id1"] alice (request "r1" ingest_body)
                    (world (failing_scan [a1])))
                 (mkTable "ACTIVE" (list_to_map [("a1", a1)])));
      [vm_compute; reflexivity | vm_compute; discriminate | reflexivity].
  - apply (proj2 (run_on_unreadable_store
                    (env "" ["a.json"]) 1 ["id1"] alice (request "r1" ingest_body)
                    (world no_tables))
                 table_missing).
    vm_compute. reflexivity.
Defined.

End SubmissionErrorsWitnesses.

(** ** An ingest that succeeds, as [status] serves it *)

Section IngestSuccess.
Import dynamodb utils store_spec store_inv process_spec executor_spec auth_spec.


End IngestSuccess.

Section IngestSuccessWitnesses.
Import dynamodb utils store_spec store_inv process_spec executor_spec auth_spec.
Import Samples MoreSamples ExecutorSamples.


End IngestSuccessWitnesses.

(** ** The drivers and the invariants of the store *)

Section DriverInvariants.
Import dynamodb utils store_spec store_inv process_spec executor_spec.

Lemma self_report_dynamo env action_id new after w :
  dynamo (api.self_report env action_id new after w)
  = (update_action_status (dynamo w) (TBL env) action_id new false).1.
Proof.
  unfold api.self_report.
  by destruct (update_action_status _ _ _ _ _) as [d [x|e]].
Qed.

(** The store after a driver: as it was, or after the write of one
    report. *)
Lemma run_driver_dynamo env deriva_modify p w :
  dynamo (run_driver env deriva_modify p w) = dynamo w
  ∨ ∃ new,
      report new
      ∧ dynamo (run_driver env deriva_modify p w)
        = (update_action_status (dynamo w) (TBL env) (driver_action_id p) new false).1.
Proof.
  destruct (is_restore p) eqn:Hres.
  - destruct p as [action_id url server catalog| |]; try discriminate. simpl.
    unfold api.action_restore.
    destruct (get_deriva_token env) as [token|e] eqn:Htok; [|by left].
    destruct (action_restore_self_reports env action_id url server catalog w token Htok)
      as (new & after & Hrep & Heq).
    unfold api.action_restore in Heq. rewrite Htok in Heq. rewrite Heq.
    right. exists new. split; [done|]. apply self_report_dynamo.
  - destruct (run_driver_self_reports env deriva_modify p w
                                      ltac:(rewrite Hres; discriminate))
      as (new & after & Hrep & ->).
    right. exists new. split; [done|]. apply self_report_dynamo.
Qed.

Lemma scan_order_insert_over (tbl : Table) (k : string) (v v' : Status.t) st :
  items tbl !! k = Some v →
  ∃ rest,
    scan_order tbl ≡ₚ v :: rest
    ∧ scan_order (mkTable st (<[k := v']> (items tbl))) ≡ₚ v' :: rest.
Proof.
  intros Hk. exists (map_to_list (delete k (items tbl))).*2.
  unfold scan_order. simpl. split.
  - rewrite <- (insert_delete_id (items tbl) k v Hk) at 1.
    by rewrite map_to_list_insert by apply lookup_delete_eq.
  - rewrite <- insert_delete_eq.
    by rewrite map_to_list_insert by apply lookup_delete_eq.
Qed.

Lemma update_merge_keeps_request_ids d table_name action_id new tbl :
  get_dmo_table d table_name = Ok tbl →
  well_keyed tbl →
  report new →
  ∃ tbl',
    get_dmo_table (update_action_status d table_name action_id new false).1 table_name
    = Ok tbl'
    ∧ request_ids tbl' ≡ₚ request_ids tbl.
Proof.
  intros Hget Hwk Hrep. unfold update_action_status.
  destruct (read_action_status d table_name action_id) as [old|e] eqn:Hread;
    [|by exists tbl].
  rewrite Hget.
  apply read_action_status_ok_inv in Hread as (tbl0 & Hget0 & Hgetf & Hold).
  assert (tbl0 = tbl) as -> by congruence.
  pose proof (Hwk _ _ Hold) as Hkey. simpl in Hkey.
  pose proof (get_dmo_table_ok _ _ _ Hget) as (_ & Htbl & _).
  apply report_no_ids in Hrep as (Hid & Hrid & _).
  unfold put_item. rewrite Htbl.
  destruct (put_item_raises (faults d)); [by exists tbl|].
  unfold dict_merge at 1. cbn [Status.action_id]. rewrite Hid, Hkey. simpl.
  eexists. split; [by apply get_dmo_table_set_items|].
  destruct (scan_order_insert_over tbl action_id old
              (stored_item (dict_merge new old)) (table_status tbl) Hold)
    as (rest & Hbefore & Hafter).
  unfold request_ids. rewrite Hbefore, Hafter. simpl.
  unfold dict_merge. simpl. by rewrite Hrid.
Qed.

(** X25. The drivers keep the invariants of the store: when every record
    is kept under its own [action_id], it still is after a driver has
    run; and then, when no two records of the active table carry the same
    request id, none do afterwards, the table carrying the same request
    ids as before, whatever the driver met. *)
Theorem drivers_keep_store_invariants env deriva_modify p w tbl :
  service_well_keyed (dynamo w) →
  get_dmo_table (dynamo w) (TBL env) = Ok tbl →
  service_well_keyed (dynamo (run_driver env deriva_modify p w))
  ∧ ∃ tbl',
      get_dmo_table (dynamo (run_driver env deriva_modify p w)) (TBL env) = Ok tbl'
      ∧ request_ids tbl' ≡ₚ request_ids tbl
      ∧ (unique_requests tbl → unique_requests tbl').
Proof.
  intros Hwk Hget.
  pose proof (get_dmo_table_ok _ _ _ Hget) as (_ & Htbl & _).
  destruct (run_driver_dynamo env deriva_modify p w) as [->|(new & Hrep & ->)].
  - split; [done|]. by exists tbl.
  - split; [by apply update_action_status_well_keyed|].
    destruct (update_merge_keeps_request_ids
                (dynamo w) (TBL env) (driver_action_id p) new tbl Hget
                (map_Forall_lookup_1 _ _ _ _ Hwk Htbl) Hrep)
      as (tbl' & Hget' & Hperm).
    exists tbl'. split; [done|]. split; [done|].
    unfold unique_requests. by rewrite Hperm.
Qed.

End DriverInvariants.

Section DriverInvariantsWitnesses.
Import dynamodb utils store_spec store_inv process_spec executor_spec.
Import Samples MoreSamples ExecutorSamples.

Lemma drivers_keep_store_invariants_witness :
  service_well_keyed
    (dynamo (run_driver (env "" ["a.json"]) deriva_modify_ok
                        (ingest_driver "a1" "https://example.org/bag.zip"
                                       None None None)
                        (world (service [a1; a4] 0))))
  ∧ ∃ tbl',
      get_dmo_table
        (dynamo (run_driver (env "" ["a.json"]) deriva_modify_ok
                            (ingest_driver "a1" "https://example.org/bag.zip"
                                           None None None)
                            (world (service [a1; a4] 0))))
        "actions"
      = Ok tbl'
      ∧ unique_requests tbl'.
Proof.
  pose (tbl := mkTable "ACTIVE" (list_to_map [("a1", a1); ("a4", a4)])).
  assert (Hd : service_well_keyed (service [a1; a4] 0)).
  { unfold service_well_keyed, well_keyed.
    apply (bool_decide_unpack _). vm_compute. exact I. }
  destruct (drivers_keep_store_invariants
              (env "" ["a.json"]) deriva_modify_ok
              (ingest_driver "a1" "https://example.org/bag.zip" None None None)
              (world (service [a1; a4] 0)) tbl Hd ltac:(vm_compute; reflexivity))
    as (Hwk & tbl' & Hget' & _ & Huniq).
  split; [exact Hwk|]. exists tbl'. split; [exact Hget'|].
  apply Huniq. unfold unique_requests.
  apply (bool_decide_unpack _). vm_compute. exact I.
Defined.

End DriverInvariantsWitnesses.

(** ** A restore into a catalog that is not named by a string *)

Section RestoreCatalog.
Import dynamodb utils store_spec store_inv process_spec executor_spec.

(** X26. The restore tool takes the catalog as an argument of its
    command line, which holds strings only.  A restore whose catalog is
    given and is not a string (the integer id of a known catalog, put in
    place of its keyword by [start_action], is one) fails once the
    download is done, whatever the tool would have answered: on a healthy
    store the action ends FAILED with an error that begins "Unable to run
    restore script". *)
Theorem action_restore_catalog_not_text env action_id url server catalog w tbl old
        token v :
  get_dmo_table (dynamo w) (TBL env) = Ok tbl →
  get_item_raises (faults (dynamo w)) = None →
  put_item_raises (faults (dynamo w)) = None →
  items tbl !! action_id = Some old →
  Status.action_id old = Some action_id →
  get_deriva_token env = Ok token →
  fetch_url env url (Py.path_join (DATA_DIR env) "cfde-backup.zip") = Ok () →
  catalog = Some v →
  (∀ s, v ≠ PyStr s) →
  ∃ final det msg,
    read_action_status
      (dynamo (api.action_restore env action_id url server catalog w))
      (TBL env) action_id
    = Ok final
    ∧ Status.status final = Some "FAILED"
    ∧ Status.details final = Some det
    ∧ Details.error det = Some (PyStr ("Unable to run restore script: " +:+ msg)).
Proof.
  intros Hget Hgetf Hputf Hold Hkey Htok Hfetch -> Hv.
  unfold api.action_restore. rewrite Htok, Hfetch.
  assert (Hargs : ∀ srv path, ∃ msg,
             api.restore_args token (Some v) srv path = Raise (TypeError msg)).
  { intros srv path. destruct v as [z|c x|s|b]; simpl; try by eexists.
    by destruct (Hv s). }
  match goal with
  | |- context [api.restore_args token (Some v) ?srv ?path] =>
    destruct (Hargs srv path) as [msg ->]
  end.
  cbn [mbind result_mbind result_bind].
  rewrite (self_report_healthy _ _ _ _ _ _ _ Hget Hgetf Hputf Hold Hkey
             ltac:(apply report_failed)).
  cbn [dynamo set_dynamo].
  rewrite (read_action_status_after_put _ _ _ _ _ Hget Hgetf).
  unfold stored_item, dict_merge.
  destruct (Status.details old) as [det_old|]; eexists _, _, msg;
    (split; [reflexivity|]); by repeat split.
Qed.

(** From the submission to the driver's arguments: the catalog a restore
    driver is started with, for a known keyword, is the configured id. *)
Lemma start_action_restore_keyword env action_id body w key info url :
  Body.operation body = Some "restore" →
  Body.data_url body = Some url →
  Body.catalog_id body = Some (PyStr key) →
  KNOWN_CATALOGS env !! key = Some info →
  Body.server body = None →
  api.start_action env action_id body w
  = (spawn (restore_driver action_id url (Some (CatalogInfo.server info))
                           (Some (CatalogInfo.catalog_id info))) w,
     Ok ()).
Proof.
  intros Hop Hurl Hcid Hkey Hsrv. unfold api.start_action.
  rewrite Hcid, Hkey, Hsrv. simpl. by rewrite Hop, Hurl.
Qed.

End RestoreCatalog.

Section RestoreCatalogWitnesses.
Import dynamodb utils store_spec store_inv process_spec executor_spec.
Import Samples MoreSamples ExecutorSamples.

Lemma action_restore_catalog_not_text_witness :
  ∃ final,
    read_action_status
      (dynamo (api.action_restore
                 (env "Restore of catalog 1 completed successfully" [])
                 "a1" "https://example.org/backup.zip"
                 (Some "demo.derivacloud.org") (Some (PyInt 1))
                 (world (service [a1] 0))))
      "actions" "a1"
    = Ok final
    ∧ Status.status final = Some "FAILED".
Proof.
  pose (tbl := mkTable "ACTIVE" (list_to_map [("a1", a1)])).
  destruct (action_restore_catalog_not_text
              (env "Restore of catalog 1 completed successfully" [])
              "a1" "https://example.org/backup.zip"
              (Some "demo.derivacloud.org") (Some (PyInt 1))
              (world (service [a1] 0)) tbl a1 "token" (PyInt 1))
    as (final & det & msg & Hread & Hst & _);
    [vm_compute; reflexivity | reflexivity | reflexivity
     | vm_compute; reflexivity | reflexivity | reflexivity | reflexivity
     | reflexivity | discriminate |].
  exists final. split; [exact Hread|exact Hst].
Defined.

End RestoreCatalogWitnesses.
